(** * Live-node directory of the Alternator client (shared/live_nodes.go)

    A shallow embedding of [AlternatorLiveNodes]: the snapshot store with its
    round-robin cursor, the active and idle refresh triggers, the
    [/localnodes] discovery client and the two rack/datacenter checks; and
    of the conversion of the client [Config] into the directory's
    configuration (shared/config.go).

    Conventions.
    - Go's fixed-width integers are [Z] with the wrap-around written out
      ([to_uint64], [to_int64]).
    - Go's [(value, error)] returns are pairs whose second component is
      [option error] ([None] is a nil error), or a [result] where the value
      is a pointer that is nil exactly when the error is not.
    - A Go panic is the outcome [Panics] of the state monad [M].
    - What the module calls from Go's libraries (net/url, net/http, io,
      encoding/json, time) is the class [Runtime]; the code is verified for
      every instance of it. [json.Unmarshal] into a [[]string] is modelled
      as well (module [Json]); a statement about the bodies the decoder
      takes assumes that the runtime agrees with it ([json_faithful]).
    - Atomic cells are plain fields: every function below performs its
      atomic operations in program order, one call at a time. *)

From stdpp Require Import base list strings pretty.
From Stdlib Require Import ZArith Lia Ascii.

Local Open Scope Z_scope.

(** ** Machine integers *)

Module Go.

Definition uint64_modulus : Z := 2 ^ 64.
Definition int64_max : Z := 2 ^ 63 - 1.

(** Conversion to [uint64]: the value modulo 2^64. *)
Definition to_uint64 (z : Z) : Z := z mod uint64_modulus.

(** Conversion to [int64]: two's complement wrap-around. *)
Definition to_int64 (z : Z) : Z := (z + 2 ^ 63) mod uint64_modulus - 2 ^ 63.

(** [a + b] on [int64]. *)
Definition add_int64 (a b : Z) : Z := to_int64 (a + b).

(** [len(s)] as a machine integer. A Go slice has [0 <= len(s) <= int64_max],
    so [uint64(len(s))] is [len(s)] itself. *)
Definition len {A} (s : list A) : Z := Z.of_nat (length s).

(** The lists that are Go slices. *)
Definition is_slice {A} (s : list A) : Prop := len s <= int64_max.

(** [time.Duration] constants, in nanoseconds. *)
Definition Second : Z := 1000000000.
Definition Minute : Z := 60 * Second.
Definition Hour : Z := 60 * Minute.

(** [http.StatusOK]. *)
Definition StatusOK : Z := 200.

End Go.

(** ** Errors and library values *)

(** Go [error] values, by the way the module obtains them. *)
Inductive error : Type :=
| errors_New (msg : string)
    (* errors.New(msg) *)
| fmt_Errorf_v (prefix : string) (cause : error)
    (* fmt.Errorf(prefix + "%v", cause): a new error, the cause only printed *)
| lib_error (pkg : string) (msg : string).
    (* an error returned by a library call *)

#[global] Instance error_eq_dec : EqDecision error.
Proof. solve_decision. Defined.

(** Outcome of a library call that returns [(value, error)] and whose value
    is only read when the error is nil. *)
Inductive result (A : Type) : Type :=
| Ok (a : A)
| Err (e : error).
Arguments Ok {A} a.
Arguments Err {A} e.

(** The fields of [url.URL] that the module reads or writes. [Host] holds
    "host:port" as [url.Parse] leaves it. *)
Record URL : Type := mkURL {
  URL_Scheme : string;
  URL_Host : string;
  URL_Path : string;
  URL_RawQuery : string
}.

#[global] Instance URL_eq_dec : EqDecision URL.
Proof. solve_decision. Defined.

Definition URL_with_Path (u : URL) (path : string) : URL :=
  mkURL (URL_Scheme u) (URL_Host u) path (URL_RawQuery u).

Definition URL_with_RawQuery (u : URL) (query : string) : URL :=
  mkURL (URL_Scheme u) (URL_Host u) (URL_Path u) query.

(** What [httpClient.Get(endpoint.String())] followed by
    [io.ReadAll(resp.Body)] can produce. *)
Inductive HttpReply : Type :=
| GetFailed (e : error)
    (* Get returned an error: no response *)
| Response (StatusCode : Z) (Body : result string).
    (* a response; Body is what reading it to the end gives *)

(** The library calls of the module. [http_Get n u] is the reply to a GET of
    [u] issued after [n] earlier requests, so replies may change over time. *)
Class Runtime : Type := {
  url_Parse : string -> result URL;
  http_Get : nat -> URL -> HttpReply;
  json_Unmarshal_strings : string -> result (list string);
  (** [int64(d.Seconds())] for a [time.Duration] of [d] nanoseconds *)
  Duration_Seconds : Z -> Z
}.

(** ** Configuration

    The fields of [ALNConfig] that the directory itself reads. The TLS and
    connection-pool fields only parameterise the HTTP transport, which is
    part of [Runtime] here. *)

Record ALNConfig : Type := mkALNConfig {
  Scheme : string;
  Port : Z;
  Rack : string;
  Datacenter : string;
  UpdatePeriod : Z;
  IdleUpdatePeriod : Z
}.

Definition defaultUpdatePeriod : Z := Go.Second * 10.
Definition defaultScheme : string := "http".
Definition defaultPort : Z := 8080.

Definition NewDefaultALNConfig : ALNConfig :=
  {| Scheme := defaultScheme;
     Port := defaultPort;
     Rack := "";
     Datacenter := "";
     UpdatePeriod := defaultUpdatePeriod;
     IdleUpdatePeriod := Go.Minute |}.

Definition ALNOption : Type := ALNConfig -> ALNConfig.

Definition WithALNPort (port : Z) : ALNOption := fun config =>
  mkALNConfig (Scheme config) port (Rack config) (Datacenter config)
              (UpdatePeriod config) (IdleUpdatePeriod config).

Definition WithALNRack (rack : string) : ALNOption := fun config =>
  mkALNConfig (Scheme config) (Port config) rack (Datacenter config)
              (UpdatePeriod config) (IdleUpdatePeriod config).

Definition WithALNDatacenter (datacenter : string) : ALNOption := fun config =>
  mkALNConfig (Scheme config) (Port config) (Rack config) datacenter
              (UpdatePeriod config) (IdleUpdatePeriod config).

Definition WithALNUpdatePeriod (period : Z) : ALNOption := fun config =>
  mkALNConfig (Scheme config) (Port config) (Rack config) (Datacenter config)
              period (IdleUpdatePeriod config).

Definition WithALNIdleUpdatePeriod (period : Z) : ALNOption := fun config =>
  mkALNConfig (Scheme config) (Port config) (Rack config) (Datacenter config)
              (UpdatePeriod config) period.

(** [WithALNScheme]: panics ([None]) on a scheme other than http and https. *)
Definition WithALNScheme (scheme : string) : option ALNOption :=
  if bool_decide (scheme = "http" ∨ scheme = "https") then
    Some (fun config =>
      mkALNConfig scheme (Port config) (Rack config) (Datacenter config)
                  (UpdatePeriod config) (IdleUpdatePeriod config))
  else None.

(** [fmt.Sprintf("%s://%s:%d", cfg.Scheme, node, cfg.Port)]. *)
Definition node_uri (c : ALNConfig) (node : string) : string :=
  Scheme c +:+ "://" +:+ node +:+ ":" +:+ pretty (Port c).

(** ** The directory *)

Record AlternatorLiveNodes : Type := mkALN {
  liveNodes : option (list URL);   (* atomic.Pointer[[]url.URL]; None is nil *)
  initialNodes : list URL;
  nextLiveNodeIdx : Z;             (* atomic.Uint64 *)
  cfg : ALNConfig;
  nextUpdate : Z;                  (* atomic.Int64, Unix seconds *)
  idleUpdaterStarted : bool;       (* atomic.Bool *)
  ctxDone : bool;                  (* ctx, cancelled by stopFn *)
  updateSignal : bool              (* chan struct{} of capacity 1: a token is buffered *)
}.

(** The directory together with what it did to the outside: the discovery
    requests issued so far (oldest first), the number of idle-updater
    goroutines launched, and the number of them that have returned. *)
Record World : Type := mkWorld {
  aln : AlternatorLiveNodes;
  requests : list URL;
  idleUpdaters : nat;
  idleReturned : nat
}.

Definition set_aln (f : AlternatorLiveNodes -> AlternatorLiveNodes) (w : World) : World :=
  mkWorld (f (aln w)) (requests w) (idleUpdaters w) (idleReturned w).

Definition store_liveNodes (nodes : list URL) (a : AlternatorLiveNodes) :=
  mkALN (Some nodes) (initialNodes a) (nextLiveNodeIdx a) (cfg a) (nextUpdate a)
        (idleUpdaterStarted a) (ctxDone a) (updateSignal a).

Definition store_nextLiveNodeIdx (i : Z) (a : AlternatorLiveNodes) :=
  mkALN (liveNodes a) (initialNodes a) i (cfg a) (nextUpdate a)
        (idleUpdaterStarted a) (ctxDone a) (updateSignal a).

Definition store_nextUpdate (t : Z) (a : AlternatorLiveNodes) :=
  mkALN (liveNodes a) (initialNodes a) (nextLiveNodeIdx a) (cfg a) t
        (idleUpdaterStarted a) (ctxDone a) (updateSignal a).

Definition store_idleUpdaterStarted (b : bool) (a : AlternatorLiveNodes) :=
  mkALN (liveNodes a) (initialNodes a) (nextLiveNodeIdx a) (cfg a) (nextUpdate a)
        b (ctxDone a) (updateSignal a).

Definition store_ctxDone (b : bool) (a : AlternatorLiveNodes) :=
  mkALN (liveNodes a) (initialNodes a) (nextLiveNodeIdx a) (cfg a) (nextUpdate a)
        (idleUpdaterStarted a) b (updateSignal a).

Definition store_updateSignal (b : bool) (a : AlternatorLiveNodes) :=
  mkALN (liveNodes a) (initialNodes a) (nextLiveNodeIdx a) (cfg a) (nextUpdate a)
        (idleUpdaterStarted a) (ctxDone a) b.

(** ** State monad with panics *)

Inductive outcome (A : Type) : Type :=
| Returns (a : A) (w : World)
| Panics.
Arguments Returns {A} a w.
Arguments Panics {A}.

Definition M (A : Type) : Type := World -> outcome A.

Definition ret {A} (a : A) : M A := fun w => Returns a w.

Definition bind {A B} (m : M A) (k : A -> M B) : M B := fun w =>
  match m w with
  | Returns a w' => k a w'
  | Panics => Panics
  end.

Definition panic {A} : M A := fun _ => Panics.
Definition read {A} (f : AlternatorLiveNodes -> A) : M A := fun w => Returns (f (aln w)) w.
Definition write (f : AlternatorLiveNodes -> AlternatorLiveNodes) : M unit :=
  fun w => Returns tt (set_aln f w).

Declare Scope go_scope.
Delimit Scope go_scope with go.
Notation "x <- m ;; k" := (bind m (fun x => k))
  (at level 100, m at next level, right associativity) : go_scope.
Notation "m ;;; k" := (bind m (fun _ => k))
  (at level 100, right associativity) : go_scope.
Local Open Scope go_scope.

(** ** Construction

    The context, its cancel function and the HTTP client that
    [NewAlternatorLiveNodes] also stores are [ctxDone] and the [Runtime]. *)

Section Directory.

Context {R : Runtime}.

(** The loop of [NewAlternatorLiveNodes] over the bootstrap hosts: the first
    host whose URI does not parse ends it with an error. *)
Fixpoint parse_initial (c : ALNConfig) (initial : list string) : result (list URL) :=
  match initial with
  | [] => Ok []
  | node :: rest =>
    match url_Parse (node_uri c node) with
    | Err err => Err (fmt_Errorf_v "invalid node URI: " err)
    | Ok parsed =>
      match parse_initial c rest with
      | Err e => Err e
      | Ok nodes => Ok (parsed :: nodes)
      end
    end
  end.

Definition apply_options (options : list ALNOption) (c : ALNConfig) : ALNConfig :=
  foldl (fun c opt => opt c) c options.

Definition NewAlternatorLiveNodes (initial : list string) (options : list ALNOption)
  : result AlternatorLiveNodes :=
  if decide (Go.len initial = 0) then Err (errors_New "liveNodes cannot be empty")
  else
    let c := apply_options options NewDefaultALNConfig in
    match parse_initial c initial with
    | Err e => Err e
    | Ok nodes =>
      Ok {| liveNodes := Some nodes;
            initialNodes := nodes;
            nextLiveNodeIdx := 0;
            cfg := c;
            nextUpdate := 0;
            idleUpdaterStarted := false;
            ctxDone := false;
            updateSignal := false |}
    end.

(** The world right after construction: nothing requested, nothing launched. *)
Definition fresh (a : AlternatorLiveNodes) : World := mkWorld a [] 0%nat 0%nat.

(** ** Node selection *)

(** [nextLiveNodeIdx.Add(1)]: stores the incremented cursor, wrapped to 64
    bits, and returns it. *)
Definition nextLiveNodeIdx_Add1 : M Z :=
  c <- read nextLiveNodeIdx ;;
  let c' := Go.to_uint64 (c + 1) in
  write (store_nextLiveNodeIdx c') ;;;
  ret c'.

(** [nodes[i]] with the run-time checks of Go: a zero length makes the
    modulo panic, an index out of range makes the lookup panic. *)
Definition index_mod (nodes : list URL) (c : Z) : M URL :=
  if decide (Go.len nodes = 0) then panic
  else
    match nodes !! Z.to_nat (c mod Go.len nodes) with
    | Some u => ret u
    | None => panic
    end.

(** The list [nextNode] selects from: the live snapshot, or the bootstrap
    list when the snapshot has length 0. *)
Definition selected (live initial : list URL) : list URL :=
  if decide (Go.len live = 0) then initial else live.

Definition nextNode : M URL :=
  p <- read liveNodes ;;
  match p with
  | None => panic
  | Some live =>
    initial <- read initialNodes ;;
    let nodes := selected live initial in
    c <- nextLiveNodeIdx_Add1 ;;
    index_mod nodes c
  end.

(** The copy of [base] that [nextAsURLWithPath] fills in. *)
Definition rewritten (base : URL) (path query : string) : URL :=
  let newURL := URL_with_Path base path in
  if decide (query ≠ "") then URL_with_RawQuery newURL query else newURL.

Definition nextAsURLWithPath (path query : string) : M URL :=
  base <- nextNode ;;
  ret (rewritten base path query).

Definition localnodes_query (c : ALNConfig) : string :=
  let query := "" in
  let query := if decide (Rack c ≠ "") then query +:+ "rack=" +:+ Rack c else query in
  if decide (Datacenter c ≠ "") then
    let query := if decide (query ≠ "") then query +:+ "&" else query in
    query +:+ "dc=" +:+ Datacenter c
  else query.

Definition nextAsLocalNodesURL : M URL :=
  c <- read cfg ;;
  nextAsURLWithPath "/localnodes" (localnodes_query c).

(** ** Discovery *)

(** [aln.httpClient.Get(endpoint.String())]: one request leaves. *)
Definition httpClient_Get (endpoint : URL) : M HttpReply := fun w =>
  Returns (http_Get (length (requests w)) endpoint)
          (mkWorld (aln w) (requests w ++ [endpoint]) (idleUpdaters w) (idleReturned w)).

(** The loop of [getNodes] over the decoded hosts: a host whose URI does not
    parse is passed over, the others are appended in order. *)
Definition parse_hosts (c : ALNConfig) (nodes : list string) : list URL :=
  foldl (fun uris node =>
           match url_Parse (node_uri c node) with
           | Err _ => uris
           | Ok nodeURL => uris ++ [nodeURL]
           end) [] nodes.

Definition getNodes (endpoint : URL) : M (list URL * option error) :=
  reply <- httpClient_Get endpoint ;;
  match reply with
  | GetFailed err => ret ([], Some err)
  | Response StatusCode Body =>
    if decide (StatusCode ≠ Go.StatusOK) then
      ret ([], Some (errors_New "non-200 response"))
    else
      match Body with
      | Err err => ret ([], Some err)
      | Ok body =>
        match json_Unmarshal_strings body with
        | Err err => ret ([], Some err)
        | Ok nodes =>
          c <- read cfg ;;
          ret (parse_hosts c nodes, None)
        end
      end
  end.

Definition UpdateLiveNodes : M (option error) :=
  endpoint <- nextAsLocalNodesURL ;;
  r <- getNodes endpoint ;;
  let '(newNodes, err) := r in
  (if decide (err = None ∧ Go.len newNodes > 0)
   then write (store_liveNodes newNodes) else ret tt) ;;;
  ret err.

(** ** Refresh scheduling *)

(** [aln.nextUpdate.CompareAndSwap(old, new)]. *)
Definition nextUpdate_CompareAndSwap (old new : Z) : M bool :=
  v <- read nextUpdate ;;
  if decide (v = old) then write (store_nextUpdate new) ;;; ret true
  else ret false.

(** [select { case aln.updateSignal <- struct{}{}: default: }]: the token is
    buffered unless one already is. *)
Definition updateSignal_trySend : M unit :=
  full <- read updateSignal ;;
  if full then ret tt else write (store_updateSignal true).

(** [now] is [time.Now().UTC().Unix()] as read by the call. *)
Definition triggerUpdate (now : Z) : M unit :=
  c <- read cfg ;;
  if decide (UpdatePeriod c <= 0) then ret tt
  else
    nextUpdate <- read nextUpdate ;;
    let current := now in
    if decide (nextUpdate < current) then
      swapped <- nextUpdate_CompareAndSwap nextUpdate
                   (Go.add_int64 current (Duration_Seconds (UpdatePeriod c))) ;;
      if swapped then updateSignal_trySend else ret tt
    else ret tt.

(** [aln.idleUpdaterStarted.CompareAndSwap(old, new)]. *)
Definition idleUpdaterStarted_CompareAndSwap (old new : bool) : M bool :=
  v <- read idleUpdaterStarted ;;
  if decide (v = old) then write (store_idleUpdaterStarted new) ;;; ret true
  else ret false.

(** The [go func() { ... }()] statement: one more idle updater runs. *)
Definition go_idleUpdater : M unit := fun w =>
  Returns tt (mkWorld (aln w) (requests w) (S (idleUpdaters w)) (idleReturned w)).

Definition startIdleUpdater : M unit :=
  c <- read cfg ;;
  if decide (IdleUpdatePeriod c <= 0) then ret tt
  else
    swapped <- idleUpdaterStarted_CompareAndSwap false true ;;
    if swapped then go_idleUpdater else ret tt.

(** The two working branches of the idle updater's [select]. Both store the
    deadline and refresh, dropping the refresh's error. *)
Definition idleUpdater_refresh (now : Z) : M unit :=
  c <- read cfg ;;
  write (store_nextUpdate (Go.add_int64 now (Duration_Seconds (UpdatePeriod c)))) ;;;
  UpdateLiveNodes ;;;
  ret tt.

(** ** Public entry points *)

Definition Start : M unit := startIdleUpdater.

(** [stopFn] is never nil in a constructed directory. *)
Definition Stop : M unit := write (store_ctxDone true).

Definition NextNode (now : Z) : M URL :=
  startIdleUpdater ;;;
  triggerUpdate now ;;;
  nextNode.

Definition CheckIfRackAndDatacenterSetCorrectly : M (option error) :=
  c <- read cfg ;;
  if decide (Rack c = "" ∧ Datacenter c = "") then ret None
  else
    endpoint <- nextAsLocalNodesURL ;;
    r <- getNodes endpoint ;;
    let '(newNodes, err) := r in
    match err with
    | Some err => ret (Some (fmt_Errorf_v "failed to read list of nodes: " err))
    | None =>
      if decide (Go.len newNodes = 0) then
        ret (Some (errors_New "node returned empty list, datacenter or rack might be incorrect"))
      else ret None
    end.

Definition CheckIfRackDatacenterFeatureIsSupported : M (bool * option error) :=
  baseURI <- nextAsURLWithPath "/localnodes" "" ;;
  fakeRackURI <- nextAsURLWithPath "/localnodes" "rack=fakeRack" ;;
  r1 <- getNodes fakeRackURI ;;
  let '(hostsWithFakeRack, err) := r1 in
  match err with
  | Some err => ret (false, Some err)
  | None =>
    r2 <- getNodes baseURI ;;
    let '(hostsWithoutRack, err) := r2 in
    match err with
    | Some err => ret (false, Some err)
    | None =>
      if decide (Go.len hostsWithoutRack = 0) then
        ret (false, Some (errors_New "host returned empty list"))
      else
        ret (bool_decide (Go.len hostsWithFakeRack ≠ Go.len hostsWithoutRack), None)
    end
  end.

(** ** Histories

    What can happen to a directory after construction: calls of its public
    methods by the owner, and the three branches of the [select] of a
    launched idle updater that has not returned. The timer branch can run
    at any time, the signal branch when a token is buffered (it takes the
    token), and the [ctx.Done()] branch, which makes the updater return,
    when the context is cancelled. [select] gives no branch priority: a
    cancelled context does not keep the timer and signal branches from
    running as long as the updater has not taken the [ctx.Done()] branch. *)

Inductive Action : Type :=
| DoStart
| DoStop
| DoNextNode (now : Z)
| DoUpdateLiveNodes
| DoCheckSetCorrectly
| DoCheckFeature
| IdleTick (now : Z)
| IdleSignal (now : Z)
| IdleDone.

(** An updater is in its loop: one was launched and has not returned. *)
Definition idleUpdater_running : M bool := fun w =>
  Returns (bool_decide (idleReturned w < idleUpdaters w)%nat) w.

(** The [return] of the [ctx.Done()] branch. *)
Definition idleUpdater_return : M unit := fun w =>
  Returns tt (mkWorld (aln w) (requests w) (idleUpdaters w) (S (idleReturned w))).

Definition perform (act : Action) : M unit :=
  match act with
  | DoStart => Start
  | DoStop => Stop
  | DoNextNode now => NextNode now ;;; ret tt
  | DoUpdateLiveNodes => UpdateLiveNodes ;;; ret tt
  | DoCheckSetCorrectly => CheckIfRackAndDatacenterSetCorrectly ;;; ret tt
  | DoCheckFeature => CheckIfRackDatacenterFeatureIsSupported ;;; ret tt
  | IdleTick now =>
    running <- idleUpdater_running ;;
    if running then idleUpdater_refresh now else ret tt
  | IdleSignal now =>
    running <- idleUpdater_running ;;
    token <- read updateSignal ;;
    if running && token then
      write (store_updateSignal false) ;;; idleUpdater_refresh now
    else ret tt
  | IdleDone =>
    running <- idleUpdater_running ;;
    done <- read ctxDone ;;
    if running && done then idleUpdater_return else ret tt
  end.

Fixpoint history (acts : list Action) : M unit :=
  match acts with
  | [] => ret tt
  | act :: rest => perform act ;;; history rest
  end.

(** [n] calls of [nextNode] in a row, with what they returned. *)
Fixpoint nextNode_times (n : nat) : M (list URL) :=
  match n with
  | O => ret []
  | S n' => u <- nextNode ;; us <- nextNode_times n' ;; ret (u :: us)
  end.

End Directory.

(** ** The JSON decoder

    [json.Unmarshal(body, &nodes)] of encoding/json for [nodes] a nil
    [[]string], as the package performs it: [checkValid] runs the scanner
    (scanner.go) over the whole body, then the value is decoded, each string
    literal through [unquoteBytes] (decode.go). The scanner is the state
    machine of the package cut down to the documents a [[]string] takes
    without an error, which are the literal [null] and the arrays whose
    elements are string literals or [null]; on any other body [Unmarshal]
    returns a [SyntaxError] or an [UnmarshalTypeError], which are not told
    apart here. Bodies are sequences of bytes. *)

Module Json.

Definition quote : ascii := "034"%char.
Definition backslash : ascii := "092"%char.

Definition code (c : ascii) : Z := Z.of_N (N_of_ascii c).
Definition char (b : Z) : ascii := ascii_of_N (Z.to_N b).

Fixpoint bytes (bs : list Z) : string :=
  match bs with
  | [] => EmptyString
  | b :: rest => String (char b) (bytes rest)
  end.

Definition isSpace (c : ascii) : bool :=
  bool_decide (c = " "%char \/ c = "009"%char \/ c = "013"%char \/ c = "010"%char).

Definition hexval (c : ascii) : option Z :=
  let b := code c in
  if decide (48 <= b <= 57) then Some (b - 48)
  else if decide (97 <= b <= 102) then Some (b - 97 + 10)
  else if decide (65 <= b <= 70) then Some (b - 65 + 10)
  else None.

(** *** The scanner *)

(** What the scanner has read: the literal [null], or an array with the
    bytes between the quotes of each string literal ([None] for an element
    [null]). *)
Inductive document : Type :=
| TopNull
| TopArray (elems : list (option string)).

Inductive state : Type :=
| stateBeginValue
    (* before the value *)
| stateTopN (expect : string)
    (* in the value null: the letters still to come *)
| stateBeginElemOrEmpty
    (* after [ *)
| stateBeginElem (done : list (option string))
    (* after , *)
| stateElemN (done : list (option string)) (expect : string)
    (* in an element null *)
| stateInString (done : list (option string)) (raw : string)
| stateInStringEsc (done : list (option string)) (raw : string)
    (* after a backslash *)
| stateInStringEscU (done : list (option string)) (raw : string) (expect : nat)
    (* after backslash u: the hex digits still to come *)
| stateEndElem (done : list (option string))
    (* after an element *)
| stateEndTop (v : document).
    (* after the value *)

Definition snoc (raw : string) (c : ascii) : string := raw +:+ String c EmptyString.

Definition beginElem (done : list (option string)) (c : ascii) : option state :=
  if bool_decide (c = quote) then Some (stateInString done EmptyString)
  else if bool_decide (c = "n"%char) then Some (stateElemN done "ull")
  else None.

Definition step (st : state) (c : ascii) : option state :=
  match st with
  | stateBeginValue =>
    if isSpace c then Some stateBeginValue
    else if bool_decide (c = "n"%char) then Some (stateTopN "ull")
    else if bool_decide (c = "["%char) then Some stateBeginElemOrEmpty
    else None
  | stateTopN expect =>
    match expect with
    | String x EmptyString =>
      if bool_decide (c = x) then Some (stateEndTop TopNull) else None
    | String x rest => if bool_decide (c = x) then Some (stateTopN rest) else None
    | EmptyString => None
    end
  | stateBeginElemOrEmpty =>
    if isSpace c then Some stateBeginElemOrEmpty
    else if bool_decide (c = "]"%char) then Some (stateEndTop (TopArray []))
    else beginElem [] c
  | stateBeginElem done =>
    if isSpace c then Some (stateBeginElem done) else beginElem done c
  | stateElemN done expect =>
    match expect with
    | String x EmptyString =>
      if bool_decide (c = x) then Some (stateEndElem (done ++ [None])) else None
    | String x rest => if bool_decide (c = x) then Some (stateElemN done rest) else None
    | EmptyString => None
    end
  | stateInString done raw =>
    if bool_decide (c = quote) then Some (stateEndElem (done ++ [Some raw]))
    else if bool_decide (c = backslash) then Some (stateInStringEsc done (snoc raw c))
    else if decide (code c < 32) then None
    else Some (stateInString done (snoc raw c))
  | stateInStringEsc done raw =>
    if bool_decide (c = "b"%char \/ c = "f"%char \/ c = "n"%char \/ c = "r"%char
                    \/ c = "t"%char \/ c = backslash \/ c = "/"%char \/ c = quote)
    then Some (stateInString done (snoc raw c))
    else if bool_decide (c = "u"%char) then Some (stateInStringEscU done (snoc raw c) 4)
    else None
  | stateInStringEscU done raw expect =>
    match hexval c, expect with
    | Some _, 1%nat => Some (stateInString done (snoc raw c))
    | Some _, S more => Some (stateInStringEscU done (snoc raw c) more)
    | _, _ => None
    end
  | stateEndElem done =>
    if isSpace c then Some (stateEndElem done)
    else if bool_decide (c = ","%char) then Some (stateBeginElem done)
    else if bool_decide (c = "]"%char) then Some (stateEndTop (TopArray done))
    else None
  | stateEndTop v => if isSpace c then Some (stateEndTop v) else None
  end.

Fixpoint steps (st : state) (body : string) : option state :=
  match body with
  | EmptyString => Some st
  | String c rest =>
    match step st c with
    | Some st' => steps st' rest
    | None => None
    end
  end.

(** [checkValid]: the body is read to its end, and the end must come after
    the value. *)
Definition scan (body : string) : option document :=
  match steps stateBeginValue body with
  | Some (stateEndTop v) => Some v
  | _ => None
  end.

(** *** Runes *)

Definition RuneError : Z := 0xFFFD.

(** [getu4]: the value of backslash u and four hex digits at the start of
    [s], or -1. *)
Definition getu4 (s : string) : Z :=
  match s with
  | String c0 (String c1 (String h1 (String h2 (String h3 (String h4 _))))) =>
    if bool_decide (c0 = backslash /\ c1 = "u"%char) then
      match hexval h1, hexval h2, hexval h3, hexval h4 with
      | Some d1, Some d2, Some d3, Some d4 => ((d1 * 16 + d2) * 16 + d3) * 16 + d4
      | _, _, _, _ => -1
      end
    else -1
  | _ => -1
  end.

Definition utf16_IsSurrogate (r : Z) : bool := bool_decide (0xD800 <= r < 0xE000).

Definition utf16_DecodeRune (r1 r2 : Z) : Z :=
  if decide (0xD800 <= r1 < 0xDC00 /\ 0xDC00 <= r2 < 0xE000) then
    Z.lor (Z.shiftl (r1 - 0xD800) 10) (r2 - 0xDC00) + 0x10000
  else RuneError.

Definition utf8_EncodeRune (r : Z) : string :=
  let tail (n : Z) := Z.lor 0x80 (Z.land (Z.shiftr r n) 0x3F) in
  if decide (0 <= r <= 0x7F) then bytes [r]
  else if decide (0 <= r <= 0x7FF) then bytes [Z.lor 0xC0 (Z.shiftr r 6); tail 0]
  else if decide (r < 0 \/ 0x10FFFF < r \/ 0xD800 <= r <= 0xDFFF) then
    bytes [0xEF; 0xBF; 0xBD]
  else if decide (r <= 0xFFFF) then
    bytes [Z.lor 0xE0 (Z.shiftr r 12); tail 6; tail 0]
  else bytes [Z.lor 0xF0 (Z.shiftr r 18); tail 12; tail 6; tail 0].

(** The table [first] of unicode/utf8, for the bytes that start a sequence
    of more than one byte: its size and the range of its second byte. *)
Definition first (p0 : Z) : option (nat * (Z * Z)) :=
  if decide (0xC2 <= p0 <= 0xDF) then Some (2%nat, (0x80, 0xBF))
  else if decide (p0 = 0xE0) then Some (3%nat, (0xA0, 0xBF))
  else if decide (0xE1 <= p0 <= 0xEC \/ 0xEE <= p0 <= 0xEF) then Some (3%nat, (0x80, 0xBF))
  else if decide (p0 = 0xED) then Some (3%nat, (0x80, 0x9F))
  else if decide (p0 = 0xF0) then Some (4%nat, (0x90, 0xBF))
  else if decide (0xF1 <= p0 <= 0xF3) then Some (4%nat, (0x80, 0xBF))
  else if decide (p0 = 0xF4) then Some (4%nat, (0x80, 0x8F))
  else None.

Definition at_ (p : string) (i : nat) : Z :=
  match String.get i p with Some c => code c | None => 0 end.

(** [utf8.DecodeRune]: the first rune of [p] and its size; an encoding that
    is not valid gives [(RuneError, 1)]. *)
Definition utf8_DecodeRune (p : string) : Z * nat :=
  match p with
  | EmptyString => (RuneError, 0%nat)
  | String c0 _ =>
    let p0 := code c0 in
    match first p0 with
    | None => (if decide (p0 < 0x80) then p0 else RuneError, 1%nat)
    | Some (sz, (lo, hi)) =>
      let b1 := at_ p 1 in
      let b2 := at_ p 2 in
      let b3 := at_ p 3 in
      if decide (String.length p < sz)%nat then (RuneError, 1%nat)
      else if decide (b1 < lo \/ hi < b1) then (RuneError, 1%nat)
      else if decide (sz <= 2)%nat then
        (Z.lor (Z.shiftl (Z.land p0 0x1F) 6) (Z.land b1 0x3F), 2%nat)
      else if decide (b2 < 0x80 \/ 0xBF < b2) then (RuneError, 1%nat)
      else if decide (sz <= 3)%nat then
        (Z.lor (Z.lor (Z.shiftl (Z.land p0 0x0F) 12) (Z.shiftl (Z.land b1 0x3F) 6))
               (Z.land b2 0x3F), 3%nat)
      else if decide (b3 < 0x80 \/ 0xBF < b3) then (RuneError, 1%nat)
      else
        (Z.lor (Z.lor (Z.lor (Z.shiftl (Z.land p0 0x07) 18) (Z.shiftl (Z.land b1 0x3F) 12))
                      (Z.shiftl (Z.land b2 0x3F) 6))
               (Z.land b3 0x3F), 4%nat)
    end
  end.

(** *** String literals *)

(** One turn of the loop of [unquoteBytes] with [s] the bytes from the read
    position on: the bytes written and the number of bytes read, or [None]
    where the function gives up. *)
Definition unquote_at (s : string) : option (string * nat) :=
  match s with
  | EmptyString => None
  | String c rest =>
    if bool_decide (c = backslash) then
      match rest with
      | EmptyString => None
      | String e _ =>
        if bool_decide (e = quote \/ e = backslash \/ e = "/"%char \/ e = "'"%char)
        then Some (String e EmptyString, 2%nat)
        else if bool_decide (e = "b"%char) then Some (bytes [8], 2%nat)
        else if bool_decide (e = "f"%char) then Some (bytes [12], 2%nat)
        else if bool_decide (e = "n"%char) then Some (bytes [10], 2%nat)
        else if bool_decide (e = "r"%char) then Some (bytes [13], 2%nat)
        else if bool_decide (e = "t"%char) then Some (bytes [9], 2%nat)
        else if bool_decide (e = "u"%char) then
          let rr := getu4 s in
          if decide (rr < 0) then None
          else if utf16_IsSurrogate rr then
            let rr1 := getu4 (String.substring 6 (String.length s - 6) s) in
            let dec := utf16_DecodeRune rr rr1 in
            if decide (dec <> RuneError) then Some (utf8_EncodeRune dec, 12%nat)
            else Some (utf8_EncodeRune RuneError, 6%nat)
          else Some (utf8_EncodeRune rr, 6%nat)
        else None
      end
    else if decide (c = quote \/ code c < 32) then None
    else if decide (code c < 0x80) then Some (String c EmptyString, 1%nat)
    else
      let '(rr, size) := utf8_DecodeRune s in
      Some (utf8_EncodeRune rr, size)
  end.

(** The loop: [skip] counts the bytes that the turn at an earlier position
    has read beyond its own. *)
Fixpoint unquote_from (s : string) (skip : nat) : option string :=
  match s with
  | EmptyString => Some EmptyString
  | String _ rest =>
    match skip with
    | S k => unquote_from rest k
    | O =>
      match unquote_at s with
      | Some (out, size) =>
        match unquote_from rest (size - 1) with
        | Some more => Some (out +:+ more)
        | None => None
        end
      | None => None
      end
    end
  end.

(** [unquoteBytes] for the literal that has [raw] between its quotes. *)
Definition unquoteBytes (raw : string) : option string := unquote_from raw 0.

(** *** Unmarshal *)

(** An element [null] leaves the element that the array decoder has
    appended at its zero value, the empty string. *)
Definition element (e : option string) : option string :=
  match e with
  | None => Some EmptyString
  | Some raw => unquoteBytes raw
  end.

(** [json.Unmarshal(body, &nodes)]: the strings left in [nodes] ([[]] also
    for the nil slice that the body [null] leaves), or [None] for an
    error. *)
Definition Unmarshal_strings (body : string) : option (list string) :=
  match scan body with
  | Some TopNull => Some []
  | Some (TopArray elems) => mapM element elems
  | None => None
  end.

(** In the words of the specification: the body is a JSON array of
    strings. *)
Definition array_of_strings (body : string) : bool :=
  match scan body with
  | Some (TopArray elems) => forallb (fun e => bool_decide (is_Some e)) elems
  | _ => false
  end.

End Json.

(** ** A simulated cluster

    An instance of [Runtime] small enough to run: URIs of the shape
    [scheme://host:port] parse unless they hold a space, bodies are decoded
    by [Json.Unmarshal_strings], and a duration is cut to whole seconds. The
    replies of the cluster are a parameter. *)

Module Sim.

Definition has_space (s : string) : bool :=
  existsb (fun a => bool_decide (a = " "%char)) (String.list_ascii_of_string s).

Definition parse_uri (s : string) : result URL :=
  if has_space s then Err (lib_error "net/url" "invalid character in host name")
  else
    match String.index 0 "://" s with
    | Some i =>
      Ok (mkURL (String.substring 0 i s)
                (String.substring (i + 3) (String.length s - (i + 3)) s) "" "")
    | None => Ok (mkURL "" "" s "")
    end.

(** The double quote. *)
Definition dquote : Ascii.ascii := "034"%char.

Definition bad_json : result (list string) :=
  Err (lib_error "encoding/json" "cannot unmarshal into Go value of type []string").

(** The decoder is encoding/json's. *)
Definition unmarshal (body : string) : result (list string) :=
  match Json.Unmarshal_strings body with
  | Some hosts => Ok hosts
  | None => bad_json
  end.

(** The body a node sends for a list of hosts. *)
Fixpoint literals (hosts : list string) : string :=
  match hosts with
  | [] => ""
  | [h] => String dquote h +:+ String dquote ""
  | h :: rest => String dquote h +:+ String dquote "," +:+ literals rest
  end.

Definition body_of (hosts : list string) : string := "[" +:+ literals hosts +:+ "]".

Definition runtime (replies : nat -> URL -> HttpReply) : Runtime :=
  {| url_Parse := parse_uri;
     http_Get := replies;
     json_Unmarshal_strings := unmarshal;
     Duration_Seconds := fun d => Z.quot d Go.Second |}.

Definition three_hosts : list string := ["10.0.0.1"; "10.0.0.2"; "10.0.0.3"].

(** A cluster of three nodes in one datacenter and rack that honours the
    [rack=] and [dc=] parameters. *)
Definition scoped_cluster : nat -> URL -> HttpReply := fun _ u =>
  if bool_decide (URL_Path u = "/localnodes") then
    if bool_decide (URL_RawQuery u = "" ∨ URL_RawQuery u = "dc=datacenter1"
                    ∨ URL_RawQuery u = "rack=rack1&dc=datacenter1")
    then Response 200 (Ok (body_of three_hosts))
    else Response 200 (Ok (body_of []))
  else Response 404 (Ok "").

(** A cluster that ignores the parameters. *)
Definition unscoped_cluster : nat -> URL -> HttpReply := fun _ u =>
  if bool_decide (URL_Path u = "/localnodes") then
    Response 200 (Ok (body_of three_hosts))
  else Response 404 (Ok "").

(** No node answers. *)
Definition refused : error := lib_error "net/http" "dial tcp: connection refused".

Definition unreachable : nat -> URL -> HttpReply := fun _ _ => GetFailed refused.

(** Every node answers with host names that hold a space. *)
Definition garbled_cluster : nat -> URL -> HttpReply := fun _ _ =>
  Response 200 (Ok (body_of ["bad host"; "worse host"])).

(** Every node answers with the JSON literal [null], or with an array
    whose one element is [null]. *)
Definition null_cluster : nat -> URL -> HttpReply := fun _ _ =>
  Response 200 (Ok "null").

Definition null_host_cluster : nat -> URL -> HttpReply := fun _ _ =>
  Response 200 (Ok "[null]").

Definition scoped : Runtime := runtime scoped_cluster.
Definition unscoped : Runtime := runtime unscoped_cluster.
Definition down : Runtime := runtime unreachable.
Definition garbled : Runtime := runtime garbled_cluster.
Definition nulled : Runtime := runtime null_cluster.
Definition null_host : Runtime := runtime null_host_cluster.

(** The addresses of [three_hosts] under the default configuration, and
    the directory and world that construction from them gives. *)
Definition node1 : URL := mkURL "http" "10.0.0.1:8080" "" "".
Definition node2 : URL := mkURL "http" "10.0.0.2:8080" "" "".
Definition node3 : URL := mkURL "http" "10.0.0.3:8080" "" "".
Definition three_nodes : list URL := [node1; node2; node3].

Definition directory (c : ALNConfig) : AlternatorLiveNodes :=
  mkALN (Some three_nodes) three_nodes 0 c 0 false false false.

Definition world : World := fresh (directory NewDefaultALNConfig).

End Sim.

(** ** Vocabulary of the statements *)

#[global] Instance URL_inhabited : Inhabited URL := populate (mkURL "" "" "" "").

Section Vocabulary.

Context {R : Runtime}.

(** The list the next [nextNode] call selects from (empty for a nil
    snapshot pointer). *)
Definition candidates (w : World) : list URL :=
  match liveNodes (aln w) with
  | Some live => selected live (initialNodes (aln w))
  | None => []
  end.

(** The cursor value the next [Add(1)] returns, and the index it gives. *)
Definition next_cursor (w : World) : Z := Go.to_uint64 (nextLiveNodeIdx (aln w) + 1).
Definition next_index (w : World) : Z := next_cursor w mod Go.len (candidates w).

(** The node the next [nextNode] call returns. *)
Definition target (w : World) : URL := candidates w !!! Z.to_nat (next_index w).

(** The world after one selection. *)
Definition advanced (w : World) : World := set_aln (store_nextLiveNodeIdx (next_cursor w)) w.

(** The world after a request to [endpoint] left. *)
Definition sent (endpoint : URL) (w : World) : World :=
  mkWorld (aln w) (requests w ++ [endpoint]) (idleUpdaters w) (idleReturned w).

(** What [getNodes endpoint] returns in [w]. *)
Definition discovered (endpoint : URL) (w : World) : list URL * option error :=
  match getNodes endpoint w with
  | Returns r _ => r
  | Panics => ([], None)
  end.

(** The endpoint and the outcome of the discovery call that
    [UpdateLiveNodes] and [CheckIfRackAndDatacenterSetCorrectly] make. *)
Definition localnodes_endpoint (w : World) : URL :=
  rewritten (target w) "/localnodes" (localnodes_query (cfg (aln w))).

Definition refresh_outcome (w : World) : list URL * option error :=
  discovered (localnodes_endpoint w) (advanced w).

(** The world after [UpdateLiveNodes]. *)
Definition refreshed (w : World) : World :=
  let w' := sent (localnodes_endpoint w) (advanced w) in
  match refresh_outcome w with
  | (newNodes, None) =>
    if decide (newNodes = []) then w' else set_aln (store_liveNodes newNodes) w'
  | (_, Some _) => w'
  end.

(** The directory holds a snapshot pointer and a bootstrap list, none empty,
    and its cursor is a [uint64]. *)
Definition sound (w : World) : Prop :=
  (exists live, liveNodes (aln w) = Some live /\ live <> [])
  /\ initialNodes (aln w) <> []
  /\ 0 <= nextLiveNodeIdx (aln w) < Go.uint64_modulus.

(** The three ways a reply makes discovery fail. *)
Definition transport_failed (reply : HttpReply) : Prop :=
  match reply with
  | GetFailed _ => True
  | Response _ (Err _) => True
  | Response _ (Ok _) => False
  end.

Definition status_not_OK (reply : HttpReply) : Prop :=
  match reply with
  | GetFailed _ => False
  | Response StatusCode _ => StatusCode <> Go.StatusOK
  end.

Definition body_undecodable (reply : HttpReply) : Prop :=
  match reply with
  | Response _ (Ok body) =>
    match json_Unmarshal_strings body with Err _ => True | Ok _ => False end
  | _ => False
  end.

(** The runtime decodes bodies as encoding/json does. *)
Definition json_faithful : Prop :=
  forall body,
    match Json.Unmarshal_strings body with
    | Some hosts => json_Unmarshal_strings body = Ok hosts
    | None => exists e, json_Unmarshal_strings body = Err e
    end.

(** The body was read and encoding/json returns an error for it. *)
Definition body_rejected (reply : HttpReply) : Prop :=
  match reply with
  | Response _ (Ok body) => Json.Unmarshal_strings body = None
  | _ => False
  end.

(** The hosts of a reply that is a 200 with a body that decodes. *)
Definition decoded_hosts (reply : HttpReply) : option (list string) :=
  match reply with
  | Response StatusCode (Ok body) =>
    if decide (StatusCode = Go.StatusOK) then
      match json_Unmarshal_strings body with Ok hosts => Some hosts | Err _ => None end
    else None
  | _ => None
  end.

(** A host's address, when its URI parses. *)
Definition host_address (c : ALNConfig) (host : string) : option URL :=
  match url_Parse (node_uri c host) with Ok u => Some u | Err _ => None end.

(** The node the [j]-th of the next [nextNode] calls returns ([j] from 1)
    while the snapshot stays the same, and the world after [n] such calls. *)
Definition nth_choice (w : World) (j : nat) : URL :=
  candidates w !!!
    Z.to_nat (Go.to_uint64 (nextLiveNodeIdx (aln w) + Z.of_nat j) mod Go.len (candidates w)).

Definition advanced_by (n : nat) (w : World) : World :=
  set_aln (store_nextLiveNodeIdx (Go.to_uint64 (nextLiveNodeIdx (aln w) + Z.of_nat n))) w.


(** The deadline that a refresh decided at [now] stores. *)
Definition deadline_from (now : Z) (w : World) : Z :=
  Go.add_int64 now (Duration_Seconds (UpdatePeriod (cfg (aln w)))).

(** The world after [triggerUpdate] claimed the deadline at [now]. *)
Definition claimed (now : Z) (w : World) : World :=
  set_aln (fun a => store_updateSignal true (store_nextUpdate (deadline_from now w) a)) w.

(** The world after [startIdleUpdater] launched the updater. *)
Definition launched (w : World) : World :=
  mkWorld (store_idleUpdaterStarted true (aln w)) (requests w) (S (idleUpdaters w))
          (idleReturned w).

(** The started flag accounts for the updaters launched, and is never set
    when the idle period disables the updater; only launched updaters have
    returned, and none has before the context was cancelled. *)
Definition accounted (w : World) : Prop :=
  idleUpdaters w = (if idleUpdaterStarted (aln w) then 1 else 0)%nat
  /\ (IdleUpdatePeriod (cfg (aln w)) <= 0 -> idleUpdaterStarted (aln w) = false)
  /\ (idleReturned w <= idleUpdaters w)%nat
  /\ (ctxDone (aln w) = false -> idleReturned w = 0%nat).

(** [w'] differs from [w] in nothing that concerns the configuration, the
    bootstrap list or the idle updater, and is sound if [w] is. *)
Definition calm (w w' : World) : Prop :=
  cfg (aln w') = cfg (aln w)
  /\ initialNodes (aln w') = initialNodes (aln w)
  /\ idleUpdaterStarted (aln w') = idleUpdaterStarted (aln w)
  /\ idleUpdaters w' = idleUpdaters w
  /\ (sound w -> sound w')
  /\ idleReturned w' = idleReturned w
  /\ (ctxDone (aln w) = true -> ctxDone (aln w') = true).

(** What a history does to a sound, accounted world: it stays so, keeps the
    configuration and the bootstrap list, the started flag is set exactly
    when it was set before or the idle period is positive and [starting]
    holds (the history ran [startIdleUpdater]), and a cancelled context
    stays cancelled. *)
Definition evolved (starting : bool) (w w' : World) : Prop :=
  sound w' /\ accounted w'
  /\ cfg (aln w') = cfg (aln w)
  /\ initialNodes (aln w') = initialNodes (aln w)
  /\ idleUpdaterStarted (aln w') =
     idleUpdaterStarted (aln w)
     || (bool_decide (0 < IdleUpdatePeriod (cfg (aln w))) && starting)
  /\ (ctxDone (aln w) = true -> ctxDone (aln w') = true).

End Vocabulary.

(** How many times [u] occurs in [l]. *)
Definition occurrences (u : URL) (l : list URL) : nat :=
  length (filter (fun x => x = u) l).

(** The calls that run [startIdleUpdater]. *)
Definition starts_updater (act : Action) : bool :=
  match act with
  | DoStart | DoNextNode _ => true
  | _ => false
  end.

(** A world that some history of a constructed directory leaves. *)
Definition reachable {R : Runtime} (w : World) : Prop :=
  exists initial options a acts,
    NewAlternatorLiveNodes initial options = Ok a
    /\ history acts (fresh a) = Returns tt w.

(** The actions that are not an explicit refresh or check: calls of [Start],
    [Stop] and [NextNode], and the branches of the idle updater. *)
Definition automatic (act : Action) : bool :=
  match act with
  | DoStart | DoStop | DoNextNode _ | IdleTick _ | IdleSignal _ | IdleDone => true
  | DoUpdateLiveNodes | DoCheckSetCorrectly | DoCheckFeature => false
  end.

(** No idle updater is in its loop in [w] and none can be launched: every
    launched updater has returned, and the started flag is set or the idle
    period disables the updater. *)
Definition updater_off (w : World) : Prop :=
  (idleUpdaters w <= idleReturned w)%nat
  /\ (idleUpdaterStarted (aln w) = true \/ IdleUpdatePeriod (cfg (aln w)) <= 0).

(** ** Client configuration (shared/config.go)

    [Config] with all its fields, and the fields of [ALNConfig] that
    parameterise the HTTP transport, beside the ones above. The three
    interfaces the configuration carries are abstract; a nil interface is
    [None]. *)

Section ClientConfig.

Context {CertSource Writer SessionCache : Type}.

(** The package variable [defaultTLSSessionCache]. *)
Variable defaultTLSSessionCache : SessionCache.

Record ALNTransport : Type := mkALNTransport {
  ALN_IgnoreServerCertificateError : bool;
  ALN_ClientCertificateSource : option CertSource;
  ALN_KeyLogWriter : option Writer;
  ALN_TLSSessionCache : option SessionCache;
  ALN_MaxIdleHTTPConnections : Z;
  ALN_IdleHTTPConnectionTimeout : Z
}.

(** The whole [ALNConfig] struct. *)
Record ALNConfigAll : Type := mkALNConfigAll {
  directory_part : ALNConfig;
  transport_part : ALNTransport
}.

Definition defaultIdleConnectionTimeout : Z := 6 * Go.Hour.

(** [NewDefaultALNConfig], all fields. *)
Definition NewDefaultALNConfigAll : ALNConfigAll :=
  {| directory_part := NewDefaultALNConfig;
     transport_part :=
       {| ALN_IgnoreServerCertificateError := false;
          ALN_ClientCertificateSource := None;
          ALN_KeyLogWriter := None;
          ALN_TLSSessionCache := Some defaultTLSSessionCache;
          ALN_MaxIdleHTTPConnections := 100;
          ALN_IdleHTTPConnectionTimeout := defaultIdleConnectionTimeout |} |}.

Definition ALNOptionAll : Type := ALNConfigAll -> ALNConfigAll.

(** An option that sets one of the fields the directory reads. *)
Definition on_directory (opt : ALNOption) : ALNOptionAll := fun config =>
  mkALNConfigAll (opt (directory_part config)) (transport_part config).

Definition WithALNIgnoreServerCertificateError (value : bool) : ALNOptionAll := fun config =>
  mkALNConfigAll (directory_part config)
    (mkALNTransport value (ALN_ClientCertificateSource (transport_part config)) (ALN_KeyLogWriter (transport_part config)) (ALN_TLSSessionCache (transport_part config)) (ALN_MaxIdleHTTPConnections (transport_part config)) (ALN_IdleHTTPConnectionTimeout (transport_part config))).

Definition WithALNClientCertificateSource (source : option CertSource) : ALNOptionAll := fun config =>
  mkALNConfigAll (directory_part config)
    (mkALNTransport (ALN_IgnoreServerCertificateError (transport_part config)) source (ALN_KeyLogWriter (transport_part config)) (ALN_TLSSessionCache (transport_part config)) (ALN_MaxIdleHTTPConnections (transport_part config)) (ALN_IdleHTTPConnectionTimeout (transport_part config))).

Definition WithALNKeyLogWriter (writer : option Writer) : ALNOptionAll := fun config =>
  mkALNConfigAll (directory_part config)
    (mkALNTransport (ALN_IgnoreServerCertificateError (transport_part config)) (ALN_ClientCertificateSource (transport_part config)) writer (ALN_TLSSessionCache (transport_part config)) (ALN_MaxIdleHTTPConnections (transport_part config)) (ALN_IdleHTTPConnectionTimeout (transport_part config))).

Definition WithALNTLSSessionCache (cache : option SessionCache) : ALNOptionAll := fun config =>
  mkALNConfigAll (directory_part config)
    (mkALNTransport (ALN_IgnoreServerCertificateError (transport_part config)) (ALN_ClientCertificateSource (transport_part config)) (ALN_KeyLogWriter (transport_part config)) cache (ALN_MaxIdleHTTPConnections (transport_part config)) (ALN_IdleHTTPConnectionTimeout (transport_part config))).

Definition WithALNMaxIdleHTTPConnections (value : Z) : ALNOptionAll := fun config =>
  mkALNConfigAll (directory_part config)
    (mkALNTransport (ALN_IgnoreServerCertificateError (transport_part config)) (ALN_ClientCertificateSource (transport_part config)) (ALN_KeyLogWriter (transport_part config)) (ALN_TLSSessionCache (transport_part config)) value (ALN_IdleHTTPConnectionTimeout (transport_part config))).

Definition WithALNIdleHTTPConnectionTimeout (value : Z) : ALNOptionAll := fun config =>
  mkALNConfigAll (directory_part config)
    (mkALNTransport (ALN_IgnoreServerCertificateError (transport_part config)) (ALN_ClientCertificateSource (transport_part config)) (ALN_KeyLogWriter (transport_part config)) (ALN_TLSSessionCache (transport_part config)) (ALN_MaxIdleHTTPConnections (transport_part config)) value).

Record Config : Type := mkConfig {
  Config_Port : Z;
  Config_Scheme : string;
  Config_Rack : string;
  Config_Datacenter : string;
  Config_AWSRegion : string;
  Config_AccessKeyID : string;
  Config_SecretAccessKey : string;
  Config_NodesListUpdatePeriod : Z;
  Config_ClientCertificateSource : option CertSource;
  Config_IgnoreServerCertificateError : bool;
  Config_OptimizeHeaders : bool;
  Config_IdleNodesListUpdatePeriod : Z;
  Config_KeyLogWriter : option Writer;
  Config_TLSSessionCache : option SessionCache;
  Config_MaxIdleHTTPConnections : Z;
  Config_IdleHTTPConnectionTimeout : Z
}.

Definition defaultAWSRegion : string := "default-alb-region".

Definition NewDefaultConfig : Config :=
  {| Config_Port := defaultPort;
     Config_Scheme := defaultScheme;
     Config_Rack := "";
     Config_Datacenter := "";
     Config_AWSRegion := defaultAWSRegion;
     Config_AccessKeyID := "";
     Config_SecretAccessKey := "";
     Config_NodesListUpdatePeriod := 5 * Go.Minute;
     Config_ClientCertificateSource := None;
     Config_IgnoreServerCertificateError := false;
     Config_OptimizeHeaders := false;
     Config_IdleNodesListUpdatePeriod := 2 * Go.Hour;
     Config_KeyLogWriter := None;
     Config_TLSSessionCache := Some defaultTLSSessionCache;
     Config_MaxIdleHTTPConnections := 100;
     Config_IdleHTTPConnectionTimeout := defaultIdleConnectionTimeout |}.

Definition Option : Type := Config -> Config.

Definition WithPort (port : Z) : Option := fun config =>
  mkConfig port (Config_Scheme config) (Config_Rack config) (Config_Datacenter config)
    (Config_AWSRegion config) (Config_AccessKeyID config) (Config_SecretAccessKey config)
    (Config_NodesListUpdatePeriod config) (Config_ClientCertificateSource config)
    (Config_IgnoreServerCertificateError config) (Config_OptimizeHeaders config)
    (Config_IdleNodesListUpdatePeriod config) (Config_KeyLogWriter config)
    (Config_TLSSessionCache config) (Config_MaxIdleHTTPConnections config)
    (Config_IdleHTTPConnectionTimeout config).

Definition WithRack (rack : string) : Option := fun config =>
  mkConfig (Config_Port config) (Config_Scheme config) rack (Config_Datacenter config)
    (Config_AWSRegion config) (Config_AccessKeyID config) (Config_SecretAccessKey config)
    (Config_NodesListUpdatePeriod config) (Config_ClientCertificateSource config)
    (Config_IgnoreServerCertificateError config) (Config_OptimizeHeaders config)
    (Config_IdleNodesListUpdatePeriod config) (Config_KeyLogWriter config)
    (Config_TLSSessionCache config) (Config_MaxIdleHTTPConnections config)
    (Config_IdleHTTPConnectionTimeout config).

Definition WithDatacenter (dc : string) : Option := fun config =>
  mkConfig (Config_Port config) (Config_Scheme config) (Config_Rack config) dc
    (Config_AWSRegion config) (Config_AccessKeyID config) (Config_SecretAccessKey config)
    (Config_NodesListUpdatePeriod config) (Config_ClientCertificateSource config)
    (Config_IgnoreServerCertificateError config) (Config_OptimizeHeaders config)
    (Config_IdleNodesListUpdatePeriod config) (Config_KeyLogWriter config)
    (Config_TLSSessionCache config) (Config_MaxIdleHTTPConnections config)
    (Config_IdleHTTPConnectionTimeout config).

Definition WithAWSRegion (region : string) : Option := fun config =>
  mkConfig (Config_Port config) (Config_Scheme config) (Config_Rack config)
    (Config_Datacenter config) region (Config_AccessKeyID config)
    (Config_SecretAccessKey config) (Config_NodesListUpdatePeriod config)
    (Config_ClientCertificateSource config) (Config_IgnoreServerCertificateError config)
    (Config_OptimizeHeaders config) (Config_IdleNodesListUpdatePeriod config)
    (Config_KeyLogWriter config) (Config_TLSSessionCache config)
    (Config_MaxIdleHTTPConnections config) (Config_IdleHTTPConnectionTimeout config).

Definition WithNodesListUpdatePeriod (period : Z) : Option := fun config =>
  mkConfig (Config_Port config) (Config_Scheme config) (Config_Rack config)
    (Config_Datacenter config) (Config_AWSRegion config) (Config_AccessKeyID config)
    (Config_SecretAccessKey config) period (Config_ClientCertificateSource config)
    (Config_IgnoreServerCertificateError config) (Config_OptimizeHeaders config)
    (Config_IdleNodesListUpdatePeriod config) (Config_KeyLogWriter config)
    (Config_TLSSessionCache config) (Config_MaxIdleHTTPConnections config)
    (Config_IdleHTTPConnectionTimeout config).

Definition WithCredentials (accessKeyID secretAccessKey : string) : Option := fun config =>
  mkConfig (Config_Port config) (Config_Scheme config) (Config_Rack config)
    (Config_Datacenter config) (Config_AWSRegion config) accessKeyID secretAccessKey
    (Config_NodesListUpdatePeriod config) (Config_ClientCertificateSource config)
    (Config_IgnoreServerCertificateError config) (Config_OptimizeHeaders config)
    (Config_IdleNodesListUpdatePeriod config) (Config_KeyLogWriter config)
    (Config_TLSSessionCache config) (Config_MaxIdleHTTPConnections config)
    (Config_IdleHTTPConnectionTimeout config).

Definition WithClientCertificateSource (source : option CertSource) : Option := fun config =>
  mkConfig (Config_Port config) (Config_Scheme config) (Config_Rack config)
    (Config_Datacenter config) (Config_AWSRegion config) (Config_AccessKeyID config)
    (Config_SecretAccessKey config) (Config_NodesListUpdatePeriod config) source
    (Config_IgnoreServerCertificateError config) (Config_OptimizeHeaders config)
    (Config_IdleNodesListUpdatePeriod config) (Config_KeyLogWriter config)
    (Config_TLSSessionCache config) (Config_MaxIdleHTTPConnections config)
    (Config_IdleHTTPConnectionTimeout config).

Definition WithIgnoreServerCertificateError (value : bool) : Option := fun config =>
  mkConfig (Config_Port config) (Config_Scheme config) (Config_Rack config)
    (Config_Datacenter config) (Config_AWSRegion config) (Config_AccessKeyID config)
    (Config_SecretAccessKey config) (Config_NodesListUpdatePeriod config)
    (Config_ClientCertificateSource config) value (Config_OptimizeHeaders config)
    (Config_IdleNodesListUpdatePeriod config) (Config_KeyLogWriter config)
    (Config_TLSSessionCache config) (Config_MaxIdleHTTPConnections config)
    (Config_IdleHTTPConnectionTimeout config).

Definition WithOptimizeHeaders (value : bool) : Option := fun config =>
  mkConfig (Config_Port config) (Config_Scheme config) (Config_Rack config)
    (Config_Datacenter config) (Config_AWSRegion config) (Config_AccessKeyID config)
    (Config_SecretAccessKey config) (Config_NodesListUpdatePeriod config)
    (Config_ClientCertificateSource config) (Config_IgnoreServerCertificateError config)
    value (Config_IdleNodesListUpdatePeriod config) (Config_KeyLogWriter config)
    (Config_TLSSessionCache config) (Config_MaxIdleHTTPConnections config)
    (Config_IdleHTTPConnectionTimeout config).

Definition WithIdleNodesListUpdatePeriod (period : Z) : Option := fun config =>
  mkConfig (Config_Port config) (Config_Scheme config) (Config_Rack config)
    (Config_Datacenter config) (Config_AWSRegion config) (Config_AccessKeyID config)
    (Config_SecretAccessKey config) (Config_NodesListUpdatePeriod config)
    (Config_ClientCertificateSource config) (Config_IgnoreServerCertificateError config)
    (Config_OptimizeHeaders config) period (Config_KeyLogWriter config)
    (Config_TLSSessionCache config) (Config_MaxIdleHTTPConnections config)
    (Config_IdleHTTPConnectionTimeout config).

Definition WithKeyLogWriter (writer : option Writer) : Option := fun config =>
  mkConfig (Config_Port config) (Config_Scheme config) (Config_Rack config)
    (Config_Datacenter config) (Config_AWSRegion config) (Config_AccessKeyID config)
    (Config_SecretAccessKey config) (Config_NodesListUpdatePeriod config)
    (Config_ClientCertificateSource config) (Config_IgnoreServerCertificateError config)
    (Config_OptimizeHeaders config) (Config_IdleNodesListUpdatePeriod config) writer
    (Config_TLSSessionCache config) (Config_MaxIdleHTTPConnections config)
    (Config_IdleHTTPConnectionTimeout config).

Definition WithTLSSessionCache (cache : option SessionCache) : Option := fun config =>
  mkConfig (Config_Port config) (Config_Scheme config) (Config_Rack config)
    (Config_Datacenter config) (Config_AWSRegion config) (Config_AccessKeyID config)
    (Config_SecretAccessKey config) (Config_NodesListUpdatePeriod config)
    (Config_ClientCertificateSource config) (Config_IgnoreServerCertificateError config)
    (Config_OptimizeHeaders config) (Config_IdleNodesListUpdatePeriod config)
    (Config_KeyLogWriter config) cache (Config_MaxIdleHTTPConnections config)
    (Config_IdleHTTPConnectionTimeout config).

Definition WithMaxIdleHTTPConnections (value : Z) : Option := fun config =>
  mkConfig (Config_Port config) (Config_Scheme config) (Config_Rack config)
    (Config_Datacenter config) (Config_AWSRegion config) (Config_AccessKeyID config)
    (Config_SecretAccessKey config) (Config_NodesListUpdatePeriod config)
    (Config_ClientCertificateSource config) (Config_IgnoreServerCertificateError config)
    (Config_OptimizeHeaders config) (Config_IdleNodesListUpdatePeriod config)
    (Config_KeyLogWriter config) (Config_TLSSessionCache config) value
    (Config_IdleHTTPConnectionTimeout config).

Definition WithIdleHTTPConnectionTimeout (value : Z) : Option := fun config =>
  mkConfig (Config_Port config) (Config_Scheme config) (Config_Rack config)
    (Config_Datacenter config) (Config_AWSRegion config) (Config_AccessKeyID config)
    (Config_SecretAccessKey config) (Config_NodesListUpdatePeriod config)
    (Config_ClientCertificateSource config) (Config_IgnoreServerCertificateError config)
    (Config_OptimizeHeaders config) (Config_IdleNodesListUpdatePeriod config)
    (Config_KeyLogWriter config) (Config_TLSSessionCache config)
    (Config_MaxIdleHTTPConnections config) value.

(** [WithScheme]: panics ([None]) on a scheme other than http and https. *)
Definition WithScheme (scheme : string) : option Option :=
  if bool_decide (scheme = "http" \/ scheme = "https") then
    Some (fun config =>
      mkConfig (Config_Port config) scheme (Config_Rack config)
        (Config_Datacenter config) (Config_AWSRegion config) (Config_AccessKeyID config)
        (Config_SecretAccessKey config) (Config_NodesListUpdatePeriod config)
        (Config_ClientCertificateSource config) (Config_IgnoreServerCertificateError config)
        (Config_OptimizeHeaders config) (Config_IdleNodesListUpdatePeriod config)
        (Config_KeyLogWriter config) (Config_TLSSessionCache config)
        (Config_MaxIdleHTTPConnections config) (Config_IdleHTTPConnectionTimeout config))
  else None.

(** [ToALNOptions]: [None] when building the options panics. *)
Definition ToALNOptions (c : Config) : option (list ALNOptionAll) :=
  match WithALNScheme (Config_Scheme c) with
  | None => None
  | Some withScheme =>
    let out :=
      [ on_directory (WithALNPort (Config_Port c));
        on_directory withScheme;
        on_directory (WithALNUpdatePeriod (Config_NodesListUpdatePeriod c));
        WithALNIgnoreServerCertificateError (Config_IgnoreServerCertificateError c);
        WithALNMaxIdleHTTPConnections (Config_MaxIdleHTTPConnections c);
        WithALNIdleHTTPConnectionTimeout (Config_IdleHTTPConnectionTimeout c) ] in
    let out :=
      if decide (Config_Rack c <> "")
      then out ++ [on_directory (WithALNRack (Config_Rack c))] else out in
    let out :=
      if decide (Config_Datacenter c <> "")
      then out ++ [on_directory (WithALNDatacenter (Config_Datacenter c))] else out in
    let out :=
      if decide (Config_IdleNodesListUpdatePeriod c <> 0)
      then out ++ [on_directory (WithALNIdleUpdatePeriod (Config_IdleNodesListUpdatePeriod c))]
      else out in
    let out :=
      match Config_ClientCertificateSource c with
      | Some _ => out ++ [WithALNClientCertificateSource (Config_ClientCertificateSource c)]
      | None => out
      end in
    let out :=
      match Config_KeyLogWriter c with
      | Some _ => out ++ [WithALNKeyLogWriter (Config_KeyLogWriter c)]
      | None => out
      end in
    let out :=
      match Config_TLSSessionCache c with
      | Some _ => out ++ [WithALNTLSSessionCache (Config_TLSSessionCache c)]
      | None => out
      end in
    Some out
  end.

(** [ToALNConfig]: the options of [ToALNOptions] applied in order to the
    default [ALNConfig]. *)
Definition ToALNConfig (c : Config) : option ALNConfigAll :=
  match ToALNOptions c with
  | None => None
  | Some options => Some (foldl (fun cfg opt => opt cfg) NewDefaultALNConfigAll options)
  end.

End ClientConfig.

(** ** Running the monad *)

Ltac run :=
  repeat (progress (cbv beta iota delta
    [bind ret read write panic set_aln nextLiveNodeIdx_Add1
     nextUpdate_CompareAndSwap idleUpdaterStarted_CompareAndSwap
     updateSignal_trySend go_idleUpdater httpClient_Get idleUpdater_running
     idleUpdater_return]);
    cbn [aln requests idleUpdaters idleReturned liveNodes initialNodes nextLiveNodeIdx cfg
         nextUpdate idleUpdaterStarted ctxDone updateSignal
         store_liveNodes store_nextLiveNodeIdx store_nextUpdate
         store_idleUpdaterStarted store_ctxDone store_updateSignal]).

Section Selection.

Context {R : Runtime}.

Lemma len_pos {A} (l : list A) : l <> [] -> 0 < Go.len l.
Proof. destruct l; [congruence|]. intros _. unfold Go.len. cbn. lia. Qed.

Lemma len_zero {A} (l : list A) : Go.len l = 0 <-> l = [].
Proof. unfold Go.len. destruct l; cbn; split; intros; try done; lia. Qed.

Lemma selected_nonempty (live initial : list URL) :
  initial <> [] -> selected live initial <> [].
Proof.
  intros Hi. unfold selected. case_decide as H; [done|].
  intros ->. apply H. reflexivity.
Qed.

Lemma selected_live (live initial : list URL) :
  live <> [] -> selected live initial = live.
Proof.
  intros Hl. unfold selected. case_decide as H; [|done].
  apply len_zero in H. done.
Qed.

Lemma sound_candidates (w : World) : sound w -> candidates w <> [].
Proof.
  intros [(live & Hl & _) [Hi _]]. unfold candidates. rewrite Hl.
  by apply selected_nonempty.
Qed.

Lemma next_index_bounds (w : World) :
  candidates w <> [] -> 0 <= next_index w < Go.len (candidates w).
Proof. intros H. apply Z.mod_pos_bound. by apply len_pos. Qed.

(** [nextNode] in closed form: with a snapshot pointer and a non-empty
    list to select from, it returns the entry at [next_index] and only
    moves the cursor. *)
Lemma nextNode_returns (w : World) :
  liveNodes (aln w) <> None -> candidates w <> [] ->
  exists u, candidates w !! Z.to_nat (next_index w) = Some u
            /\ nextNode w = Returns u (advanced w).
Proof.
  intros Hp Hc.
  pose proof (next_index_bounds w Hc) as Hb.
  destruct (candidates w !! Z.to_nat (next_index w)) as [u|] eqn:Hu.
  2:{ apply lookup_ge_None in Hu. unfold Go.len in Hb. lia. }
  exists u. split; [done|].
  unfold nextNode. run.
  unfold candidates in *. destruct (liveNodes (aln w)) as [live|] eqn:Hl; [|done].
  run. unfold index_mod.
  case_decide as Hz; [apply len_zero in Hz; done|].
  unfold next_index, next_cursor, candidates in Hu. rewrite Hl in Hu.
  cbn in Hu. rewrite Hu. reflexivity.
Qed.

End Selection.

Section Discovery.

Context {R : Runtime}.

Lemma target_lookup (w : World) :
  candidates w <> [] -> candidates w !! Z.to_nat (next_index w) = Some (target w).
Proof.
  intros Hc. pose proof (next_index_bounds w Hc) as Hb.
  unfold target. apply list_lookup_lookup_total_lt. unfold Go.len in Hb. lia.
Qed.

Lemma nextNode_target (w : World) :
  liveNodes (aln w) <> None -> candidates w <> [] ->
  nextNode w = Returns (target w) (advanced w).
Proof.
  intros Hp Hc. destruct (nextNode_returns w Hp Hc) as (u & Hu & ->).
  rewrite (target_lookup w Hc) in Hu. by inversion Hu.
Qed.

Lemma nextAsURLWithPath_returns (w : World) (path query : string) :
  liveNodes (aln w) <> None -> candidates w <> [] ->
  nextAsURLWithPath path query w = Returns (rewritten (target w) path query) (advanced w).
Proof.
  intros Hp Hc. unfold nextAsURLWithPath, bind.
  rewrite (nextNode_target w Hp Hc). reflexivity.
Qed.

Lemma nextAsLocalNodesURL_returns (w : World) :
  liveNodes (aln w) <> None -> candidates w <> [] ->
  nextAsLocalNodesURL w = Returns (localnodes_endpoint w) (advanced w).
Proof.
  intros Hp Hc. unfold nextAsLocalNodesURL. run.
  by rewrite nextAsURLWithPath_returns.
Qed.

(** [getNodes] never panics and sends exactly one request. *)
Lemma getNodes_returns (endpoint : URL) (w : World) :
  getNodes endpoint w = Returns (discovered endpoint w) (sent endpoint w).
Proof.
  unfold discovered. unfold getNodes. run.
  destruct (http_Get (length (requests w)) endpoint) as [e|st [body|e]]; run; try done.
  - case_decide; run; [done|].
    destruct (json_Unmarshal_strings body); run; done.
  - case_decide; run; done.
Qed.

(** The loop of [getNodes] keeps the hosts that parse, in order. *)
Lemma parse_hosts_omap (c : ALNConfig) (hosts : list string) :
  parse_hosts c hosts = omap (host_address c) hosts.
Proof.
  unfold parse_hosts.
  enough (forall acc,
    foldl (fun uris node =>
             match url_Parse (node_uri c node) with
             | Err _ => uris
             | Ok nodeURL => uris ++ [nodeURL]
             end) acc hosts = acc ++ omap (host_address c) hosts) as H
    by apply (H []).
  induction hosts as [|h hosts IH]; intros acc; cbn.
  - by rewrite app_nil_r.
  - rewrite IH. unfold host_address at 2.
    destruct (url_Parse (node_uri c h)); [|done].
    by rewrite <- app_assoc.
Qed.

(** The result of [getNodes], by the reply to its request. *)
Lemma discovered_reply (endpoint : URL) (w : World) :
  let reply := http_Get (length (requests w)) endpoint in
  match decoded_hosts reply with
  | Some hosts =>
    discovered endpoint w = (omap (host_address (cfg (aln w))) hosts, None)
  | None => exists e, discovered endpoint w = ([], Some e)
  end.
Proof.
  cbv zeta. unfold discovered, getNodes. run. unfold decoded_hosts.
  destruct (http_Get (length (requests w)) endpoint) as [e|st [body|e]]; run.
  - eauto.
  - destruct (decide (st = Go.StatusOK)) as [Hs|Hs].
    + rewrite decide_False by (intros Hn; by apply Hn).
      destruct (json_Unmarshal_strings body); run.
      * by rewrite parse_hosts_omap.
      * eauto.
    + rewrite decide_True by done. run. eauto.
  - case_decide; run; eauto.
Qed.

Lemma discovered_error_nil (endpoint : URL) (w : World) (nodes : list URL) (e : error) :
  discovered endpoint w = (nodes, Some e) -> nodes = [].
Proof.
  intros H. pose proof (discovered_reply endpoint w) as Hr. cbn in Hr.
  destruct (decoded_hosts _).
  - rewrite H in Hr. congruence.
  - destruct Hr as [e' Hr]. rewrite H in Hr. congruence.
Qed.

(** [UpdateLiveNodes] in closed form. *)
Lemma UpdateLiveNodes_returns (w : World) :
  liveNodes (aln w) <> None -> candidates w <> [] ->
  UpdateLiveNodes w = Returns (refresh_outcome w).2 (refreshed w).
Proof.
  intros Hp Hc. unfold UpdateLiveNodes, bind.
  rewrite (nextAsLocalNodesURL_returns w Hp Hc), getNodes_returns.
  unfold refreshed. fold (refresh_outcome w).
  destruct (refresh_outcome w) as [newNodes [e|]] eqn:Ho; run.
  - case_decide as H; [destruct H; congruence|]. run. done.
  - case_decide as H; case_decide as H'; run; try done.
    + subst. destruct H. unfold Go.len in *. cbn in *. lia.
    + exfalso. apply H. split; [done|]. apply len_pos in H'. lia.
Qed.

End Discovery.

Section Scheduling.

Context {R : Runtime}.

Lemma to_uint64_range (z : Z) : 0 <= Go.to_uint64 z < Go.uint64_modulus.
Proof. unfold Go.to_uint64. apply Z.mod_pos_bound. reflexivity. Qed.

Lemma to_uint64_idemp_add (a b : Z) :
  Go.to_uint64 (Go.to_uint64 a + b) = Go.to_uint64 (a + b).
Proof. unfold Go.to_uint64. by rewrite Zplus_mod_idemp_l. Qed.

Lemma to_uint64_small (z : Z) : 0 <= z < Go.uint64_modulus -> Go.to_uint64 z = z.
Proof. intros H. unfold Go.to_uint64. by apply Z.mod_small. Qed.

Lemma to_int64_small (z : Z) :
  - 2 ^ 63 <= z <= Go.int64_max -> Go.to_int64 z = z.
Proof.
  unfold Go.to_int64, Go.int64_max, Go.uint64_modulus. intros H.
  rewrite Z.mod_small; lia.
Qed.

(** [triggerUpdate] in closed form. *)
Lemma triggerUpdate_returns (now : Z) (w : World) :
  triggerUpdate now w =
  Returns tt (if decide (UpdatePeriod (cfg (aln w)) <= 0) then w
              else if decide (nextUpdate (aln w) < now) then claimed now w else w).
Proof.
  unfold triggerUpdate. run.
  case_decide as Hp; run; [done|].
  case_decide as Hd; run; [|done].
  rewrite decide_True by done. run.
  unfold claimed, deadline_from. destruct w as [a rq n m]. run.
  destruct (updateSignal a) eqn:Hs; run; [|done].
  unfold store_updateSignal, store_nextUpdate. cbn. by rewrite Hs.
Qed.

(** [startIdleUpdater] in closed form. *)
Lemma startIdleUpdater_returns (w : World) :
  startIdleUpdater w =
  Returns tt (if decide (IdleUpdatePeriod (cfg (aln w)) <= 0) then w
              else if idleUpdaterStarted (aln w) then w else launched w).
Proof.
  unfold startIdleUpdater. run.
  case_decide as Hp; run; [done|].
  destruct (idleUpdaterStarted (aln w)) eqn:Hs; cbn; run; done.
Qed.

Lemma calm_refl (w : World) : calm w w.
Proof. unfold calm. by split_and!. Qed.

Lemma calm_trans (w1 w2 w3 : World) : calm w1 w2 -> calm w2 w3 -> calm w1 w3.
Proof.
  intros (?&?&?&?&?&?&?) (?&?&?&?&?&?&?). unfold calm. split_and!; try congruence; tauto.
Qed.

Lemma calm_advanced (w : World) : calm w (advanced w).
Proof.
  unfold calm. split_and!; try done.
  intros (Hl & Hi & _). unfold sound. split_and!; try done.
  all: apply to_uint64_range.
Qed.

Lemma calm_sent (endpoint : URL) (w : World) : calm w (sent endpoint w).
Proof. unfold calm. by split_and!. Qed.

Lemma calm_store_nextUpdate (t : Z) (w : World) : calm w (set_aln (store_nextUpdate t) w).
Proof. unfold calm. by split_and!. Qed.

Lemma calm_store_ctxDone (w : World) : calm w (set_aln (store_ctxDone true) w).
Proof. unfold calm. by split_and!. Qed.

Lemma calm_store_updateSignal (b : bool) (w : World) :
  calm w (set_aln (store_updateSignal b) w).
Proof. unfold calm. by split_and!. Qed.

Lemma calm_claimed (now : Z) (w : World) : calm w (claimed now w).
Proof. unfold calm. by split_and!. Qed.

Lemma calm_store_liveNodes (nodes : list URL) (w : World) :
  nodes <> [] -> calm w (set_aln (store_liveNodes nodes) w).
Proof.
  intros Hn. unfold calm. split_and!; try done.
  intros (_ & Hi & Hc). unfold sound. split_and!; cbn; eauto; apply Hc.
Qed.

Lemma calm_refreshed (w : World) : calm w (refreshed w).
Proof.
  unfold refreshed.
  assert (calm w (sent (localnodes_endpoint w) (advanced w))) as Hc
    by (eapply calm_trans; [apply calm_advanced|apply calm_sent]).
  destruct (refresh_outcome w) as [newNodes [e|]]; [done|].
  case_decide; [done|].
  eapply calm_trans; [exact Hc|]. by apply calm_store_liveNodes.
Qed.

Lemma sound_pointer (w : World) : sound w -> liveNodes (aln w) <> None.
Proof. intros [(live & -> & _) _]. done. Qed.

Lemma candidates_advanced (w : World) : candidates (advanced w) = candidates w.
Proof. reflexivity. Qed.

End Scheduling.

Section Checks.

Context {R : Runtime}.

(** [CheckIfRackAndDatacenterSetCorrectly] in closed form. *)
Lemma CheckIfRackAndDatacenterSetCorrectly_returns (w : World) :
  liveNodes (aln w) <> None -> candidates w <> [] ->
  CheckIfRackAndDatacenterSetCorrectly w =
  if decide (Rack (cfg (aln w)) = "" /\ Datacenter (cfg (aln w)) = "") then Returns None w
  else
    Returns
      match refresh_outcome w with
      | (_, Some err) => Some (fmt_Errorf_v "failed to read list of nodes: " err)
      | (newNodes, None) =>
        if decide (newNodes = []) then
          Some (errors_New "node returned empty list, datacenter or rack might be incorrect")
        else None
      end
      (sent (localnodes_endpoint w) (advanced w)).
Proof.
  intros Hp Hc. unfold CheckIfRackAndDatacenterSetCorrectly. run.
  case_decide as Hq; run; [done|].
  rewrite (nextAsLocalNodesURL_returns w Hp Hc), getNodes_returns.
  fold (refresh_outcome w).
  destruct (refresh_outcome w) as [newNodes [e|]]; run; [done|].
  case_decide as Hz; case_decide as Hn; run; try done.
  - apply len_zero in Hz. done.
  - subst. exfalso. by apply Hz.
Qed.

(** [CheckIfRackDatacenterFeatureIsSupported] in closed form: the two
    endpoints come from two selections in a row, the scoped call goes first
    and the unscoped call follows only if the scoped one succeeded. *)
Lemma CheckIfRackDatacenterFeatureIsSupported_returns (w : World) :
  liveNodes (aln w) <> None -> candidates w <> [] ->
  let baseURI := rewritten (target w) "/localnodes" "" in
  let fakeRackURI := rewritten (target (advanced w)) "/localnodes" "rack=fakeRack" in
  let w2 := advanced (advanced w) in
  let w3 := sent fakeRackURI w2 in
  let w4 := sent baseURI w3 in
  CheckIfRackDatacenterFeatureIsSupported w =
  match discovered fakeRackURI w2 with
  | (_, Some err) => Returns (false, Some err) w3
  | (hostsWithFakeRack, None) =>
    match discovered baseURI w3 with
    | (_, Some err) => Returns (false, Some err) w4
    | (hostsWithoutRack, None) =>
      Returns
        (if decide (hostsWithoutRack = []) then
           (false, Some (errors_New "host returned empty list"))
         else
           (bool_decide (length hostsWithFakeRack <> length hostsWithoutRack), None))
        w4
    end
  end.
Proof.
  intros Hp Hc. cbv zeta.
  unfold CheckIfRackDatacenterFeatureIsSupported, bind.
  rewrite (nextAsURLWithPath_returns w _ _ Hp Hc).
  rewrite (nextAsURLWithPath_returns (advanced w) _ _ Hp Hc).
  rewrite getNodes_returns.
  destruct (discovered _ (advanced (advanced w))) as [fake [e|]]; run; [done|].
  rewrite getNodes_returns.
  destruct (discovered _ (sent _ _)) as [base [e|]]; run; [done|].
  case_decide as Hz; case_decide as Hn; run; try done.
  - apply len_zero in Hz. done.
  - subst. exfalso. by apply Hz.
  - do 2 f_equal. apply bool_decide_ext. unfold Go.len. lia.
Qed.

Lemma localnodes_query_nonempty (c : ALNConfig) :
  ~ (Rack c = "" /\ Datacenter c = "") -> localnodes_query c <> "".
Proof.
  intros Hq. unfold localnodes_query.
  destruct (Rack c) as [|r rs] eqn:Hr, (Datacenter c) as [|d ds] eqn:Hd;
    cbn; repeat case_decide; try done.
  exfalso. by apply Hq.
Qed.

Lemma calm_accounted (w w' : World) : calm w w' -> accounted w -> accounted w'.
Proof.
  intros (Hc & _ & Hs & Hn & _ & Hr & Hd) (Ha & Hb & Hle & Hz). unfold accounted.
  rewrite Hc, Hs, Hn, Hr. split_and!; try done.
  intros Hf. apply Hz. destruct (ctxDone (aln w)); [|done].
  rewrite Hd in Hf; done.
Qed.

Lemma UpdateLiveNodes_calm (w : World) :
  sound w -> exists err, UpdateLiveNodes w = Returns err (refreshed w) /\ calm w (refreshed w).
Proof.
  intros Hs. eexists. split; [|apply calm_refreshed].
  apply UpdateLiveNodes_returns; [by apply sound_pointer|by apply sound_candidates].
Qed.

Lemma idleUpdater_refresh_calm (now : Z) (w : World) :
  sound w -> exists w', idleUpdater_refresh now w = Returns tt w' /\ calm w w'.
Proof.
  intros Hs. unfold idleUpdater_refresh. run.
  set (w1 := mkWorld _ _ _ _).
  assert (calm w w1) as H1 by apply (calm_store_nextUpdate _ w).
  assert (sound w1) as Hs1 by (by apply H1).
  destruct (UpdateLiveNodes_calm w1 Hs1) as (err & -> & H2).
  eexists. split; [done|]. by eapply calm_trans.
Qed.

Lemma NextNode_returns (now : Z) (w : World) :
  sound w ->
  let w1 := if decide (IdleUpdatePeriod (cfg (aln w)) <= 0) then w
            else if idleUpdaterStarted (aln w) then w else launched w in
  let w2 := if decide (UpdatePeriod (cfg (aln w1)) <= 0) then w1
            else if decide (nextUpdate (aln w1) < now) then claimed now w1 else w1 in
  NextNode now w = Returns (target w) (advanced w2).
Proof.
  intros Hs. cbv zeta. unfold NextNode, bind.
  rewrite startIdleUpdater_returns, triggerUpdate_returns.
  set (w1 := if decide (IdleUpdatePeriod _ <= 0) then _ else _).
  set (w2 := if decide (UpdatePeriod _ <= 0) then _ else _).
  assert (liveNodes (aln w2) = liveNodes (aln w)
          /\ initialNodes (aln w2) = initialNodes (aln w)
          /\ nextLiveNodeIdx (aln w2) = nextLiveNodeIdx (aln w)) as (Hl & Hi & Hx).
  { subst w2 w1. repeat case_decide; destruct (idleUpdaterStarted (aln w)); done. }
  assert (candidates w2 = candidates w) as Hc by (unfold candidates; by rewrite Hl, Hi).
  rewrite nextNode_target.
  - f_equal. unfold target, next_index, next_cursor. by rewrite Hc, Hx.
  - rewrite Hl. by apply sound_pointer.
  - rewrite Hc. by apply sound_candidates.
Qed.

End Checks.

Section Histories.

Context {R : Runtime}.

Lemma evolved_calm (w w' : World) :
  sound w -> accounted w -> calm w w' -> evolved false w w'.
Proof.
  intros Hs Ha Hc. pose proof (calm_accounted w w' Hc Ha) as Ha'.
  destruct Hc as (Hc & Hi & Hf & Hn & Hs' & _ & Hd).
  unfold evolved. split_and!; auto.
  rewrite Hf. by rewrite andb_false_r, orb_false_r.
Qed.

Lemma evolved_trans (b1 b2 : bool) (w1 w2 w3 : World) :
  evolved b1 w1 w2 -> evolved b2 w2 w3 -> evolved (b1 || b2) w1 w3.
Proof.
  intros (_ & _ & Hc & Hi & Hf & Hd) (Hs & Ha & Hc' & Hi' & Hf' & Hd').
  unfold evolved. split_and!; try congruence; [|by auto].
  rewrite Hf', Hf, Hc.
  destruct (idleUpdaterStarted (aln w1)), (bool_decide _), b1, b2; done.
Qed.

Lemma evolved_startIdleUpdater (w : World) :
  sound w -> accounted w ->
  evolved true w (if decide (IdleUpdatePeriod (cfg (aln w)) <= 0) then w
                  else if idleUpdaterStarted (aln w) then w else launched w).
Proof.
  intros Hs Ha. pose proof Ha as (Hn & Hz & Hle & Hd). unfold evolved.
  case_decide as Hp.
  - split_and!; try done. rewrite (Hz Hp). rewrite bool_decide_eq_false_2 by lia. done.
  - rewrite (bool_decide_eq_true_2 (0 < _)) by lia.
    destruct (idleUpdaterStarted (aln w)) eqn:Hf.
    + split_and!; try done.
    + unfold accounted. split_and!; try done; cbn.
      * by rewrite Hn.
      * lia.
Qed.

Lemma evolved_refl (w : World) : sound w -> accounted w -> evolved false w w.
Proof. intros. apply evolved_calm; [done..|]. apply calm_refl. Qed.

Lemma sound_launched (w : World) : sound w -> sound (launched w).
Proof. done. Qed.

Lemma perform_evolved (act : Action) (w : World) :
  sound w -> accounted w ->
  exists w', perform act w = Returns tt w' /\ evolved (starts_updater act) w w'.
Proof.
  intros Hs Ha.
  pose proof (sound_pointer w Hs) as Hp. pose proof (sound_candidates w Hs) as Hc.
  destruct act as [| |now| | | |now|now|]; cbn [perform starts_updater].
  - unfold Start. rewrite startIdleUpdater_returns. eexists. split; [done|].
    by apply evolved_startIdleUpdater.
  - unfold Stop. run. eexists. split; [done|].
    apply evolved_calm; [done..|]. apply calm_store_ctxDone.
  - unfold bind. rewrite (NextNode_returns now w Hs). cbv zeta. run.
    set (w1 := if decide (IdleUpdatePeriod _ <= 0) then _ else _).
    set (w2 := if decide (UpdatePeriod _ <= 0) then _ else _).
    eexists. split; [done|].
    pose proof (evolved_startIdleUpdater w Hs Ha) as H1. fold w1 in H1.
    replace true with (true || false) by done.
    eapply evolved_trans; [exact H1|].
    destruct H1 as (Hs1 & Ha1 & _).
    apply evolved_calm; [done..|].
    apply calm_trans with w2; [|apply calm_advanced].
    subst w2. repeat case_decide; try apply calm_refl. apply calm_claimed.
  - unfold bind. destruct (UpdateLiveNodes_calm w Hs) as (err & -> & Hcalm). run.
    eexists. split; [done|]. by apply evolved_calm.
  - unfold bind. rewrite (CheckIfRackAndDatacenterSetCorrectly_returns w Hp Hc).
    case_decide; run.
    + eexists. split; [done|]. by apply evolved_refl.
    + eexists. split; [done|]. apply evolved_calm; [done..|].
      eapply calm_trans; [apply calm_advanced|apply calm_sent].
  - unfold bind. rewrite (CheckIfRackDatacenterFeatureIsSupported_returns w Hp Hc).
    cbv zeta.
    set (fakeURI := rewritten (target (advanced w)) _ _).
    set (baseURI := rewritten (target w) _ _).
    assert (calm w (sent fakeURI (advanced (advanced w)))) as H3.
    { eapply calm_trans; [apply calm_advanced|].
      eapply calm_trans; [apply calm_advanced|apply calm_sent]. }
    assert (calm w (sent baseURI (sent fakeURI (advanced (advanced w))))) as H4.
    { eapply calm_trans; [exact H3|apply calm_sent]. }
    destruct (discovered fakeURI _) as [fake [e|]]; run.
    { eexists. split; [done|]. by apply evolved_calm. }
    destruct (discovered baseURI _) as [base [e|]]; run.
    { eexists. split; [done|]. by apply evolved_calm. }
    eexists. split; [done|]. by apply evolved_calm.
  - run. destruct (bool_decide _).
    + destruct (idleUpdater_refresh_calm now w Hs) as (w' & -> & Hcalm).
      eexists. split; [done|]. by apply evolved_calm.
    + run. eexists. split; [done|]. apply evolved_calm; [done..|]. apply calm_refl.
  - run. destruct (bool_decide _ && updateSignal (aln w)).
    + run. set (w1 := mkWorld _ _ _ _).
      assert (calm w w1) as H1 by apply (calm_store_updateSignal false w).
      assert (sound w1) as Hs1 by (by apply H1).
      destruct (idleUpdater_refresh_calm now w1 Hs1) as (w' & -> & Hcalm).
      eexists. split; [done|]. apply evolved_calm; [done..|]. by eapply calm_trans.
    + run. eexists. split; [done|]. apply evolved_calm; [done..|]. apply calm_refl.
  - run. destruct (bool_decide (idleReturned w < idleUpdaters w)%nat) eqn:Hrun;
      [destruct (ctxDone (aln w)) eqn:Hd|]; cbn [andb]; run.
    + eexists. split; [done|]. apply bool_decide_eq_true in Hrun.
      destruct Ha as (Hn & Hz & Hle & Hnone).
      unfold evolved, accounted. cbn. split_and!; try done.
      * intros Hf. congruence.
      * by rewrite andb_false_r, orb_false_r.
    + eexists. split; [done|]. by apply evolved_refl.
    + eexists. split; [done|]. by apply evolved_refl.
Qed.

(** Every history of a sound directory runs to its end. *)
Lemma history_evolved (acts : list Action) (w : World) :
  sound w -> accounted w ->
  exists w', history acts w = Returns tt w' /\ evolved (existsb starts_updater acts) w w'.
Proof.
  revert w. induction acts as [|act acts IH]; intros w Hs Ha; cbn [history existsb].
  - eexists. split; [done|]. by apply evolved_refl.
  - unfold bind.
    destruct (perform_evolved act w Hs Ha) as (w1 & -> & H1).
    destruct (IH w1) as (w2 & -> & H2); [apply H1..|].
    eexists. split; [done|]. by eapply evolved_trans.
Qed.

(** [n] calls of [NextNode] in a row move the cursor by [n], modulo 2^64,
    and leave the snapshot and the bootstrap list as they are. *)
Lemma history_NextNode_repeat (now : Z) (n : nat) (w : World) :
  sound w -> accounted w ->
  exists w',
    history (repeat (DoNextNode now) n) w = Returns tt w'
    /\ liveNodes (aln w') = liveNodes (aln w)
    /\ initialNodes (aln w') = initialNodes (aln w)
    /\ nextLiveNodeIdx (aln w') = Go.to_uint64 (nextLiveNodeIdx (aln w) + Z.of_nat n).
Proof.
  revert w. induction n as [|n IH]; intros w Hs Ha; cbn [repeat history].
  - exists w. split_and!; try done.
    rewrite Z.add_0_r. symmetry. apply to_uint64_small. apply Hs.
  - destruct (perform_evolved (DoNextNode now) w Hs Ha) as (w1 & H1 & Hs1 & Ha1 & _).
    unfold bind. rewrite H1.
    destruct (IH w1 Hs1 Ha1) as (w' & -> & Hl & Hi & Hc).
    exists w'. split; [done|].
    cbn [perform] in H1. unfold bind in H1. rewrite (NextNode_returns now w Hs) in H1.
    cbv zeta in H1. injection H1 as <-.
    rewrite Hl, Hi, Hc. split_and!.
    + repeat case_decide; destruct (idleUpdaterStarted (aln w)); done.
    + repeat case_decide; destruct (idleUpdaterStarted (aln w)); done.
    + cbn [advanced set_aln aln store_nextLiveNodeIdx nextLiveNodeIdx].
      unfold next_cursor.
      assert (forall x y, nextLiveNodeIdx (aln x) = nextLiveNodeIdx (aln y) ->
              Go.to_uint64 (Go.to_uint64 (nextLiveNodeIdx (aln x) + 1) + Z.of_nat n)
              = Go.to_uint64 (nextLiveNodeIdx (aln y) + Z.of_nat (S n))) as Hgo.
      { intros x y ->. unfold Go.to_uint64. rewrite Zplus_mod_idemp_l. f_equal. lia. }
      apply Hgo.
      repeat case_decide; destruct (idleUpdaterStarted (aln w)); done.
Qed.

End Histories.

Section Rounds.

Context {R : Runtime}.

Lemma advanced_by_0 (w : World) :
  0 <= nextLiveNodeIdx (aln w) < Go.uint64_modulus -> advanced_by 0 w = w.
Proof.
  intros H. unfold advanced_by. rewrite Z.add_0_r, to_uint64_small by done.
  by destruct w as [[] ? ? ?].
Qed.

Lemma advanced_by_S (n : nat) (w : World) :
  advanced_by n (advanced w) = advanced_by (S n) w.
Proof.
  unfold advanced_by, advanced, next_cursor. run.
  rewrite to_uint64_idemp_add.
  replace (nextLiveNodeIdx (aln w) + 1 + Z.of_nat n)
    with (nextLiveNodeIdx (aln w) + Z.of_nat (S n)) by lia.
  reflexivity.
Qed.

Lemma nth_choice_advanced (w : World) (j : nat) :
  nth_choice (advanced w) j = nth_choice w (S j).
Proof.
  unfold nth_choice. rewrite candidates_advanced.
  unfold advanced, next_cursor. run. rewrite to_uint64_idemp_add.
  replace (nextLiveNodeIdx (aln w) + 1 + Z.of_nat j)
    with (nextLiveNodeIdx (aln w) + Z.of_nat (S j)) by lia.
  reflexivity.
Qed.

Lemma target_nth_choice (w : World) : target w = nth_choice w 1.
Proof. reflexivity. Qed.

(** [n] selections over an unchanging snapshot, in closed form. *)
Lemma nextNode_times_returns (n : nat) (w : World) :
  liveNodes (aln w) <> None -> candidates w <> [] ->
  0 <= nextLiveNodeIdx (aln w) < Go.uint64_modulus ->
  nextNode_times n w = Returns (nth_choice w <$> seq 1 n) (advanced_by n w).
Proof.
  revert w. induction n as [|n IH]; intros w Hp Hc Hr; cbn [nextNode_times].
  - by rewrite advanced_by_0.
  - unfold bind. rewrite (nextNode_target w Hp Hc).
    rewrite (IH (advanced w)); [|done|done|cbn; apply to_uint64_range].
    run. rewrite advanced_by_S. f_equal. cbn [seq fmap list_fmap].
    rewrite target_nth_choice. f_equal.
    rewrite <- (fmap_S_seq 1 n), <- list_fmap_compose.
    apply list_fmap_ext. intros i j _. cbn. apply nth_choice_advanced.
Qed.

(** One round over a list visits it in rotated order. *)
Lemma round_rotate (live : list URL) (s : nat) :
  live <> [] ->
  (fun j => live !!! rotate_nat_add s j (length live)) <$> seq 0 (length live)
  = rotate s live.
Proof.
  intros Hl. apply list_eq. intros i. rewrite list_lookup_fmap.
  destruct (decide (i < length live)%nat) as [Hi|Hi].
  - rewrite lookup_seq_lt, lookup_rotate_r by done. cbn.
    symmetry. apply list_lookup_lookup_total_lt.
    unfold rotate_nat_add. pose proof (len_pos live Hl) as Hpos. unfold Go.len in Hpos.
    pose proof (Z.mod_pos_bound (Z.of_nat s + Z.of_nat i) (Z.of_nat (length live)) Hpos).
    lia.
  - rewrite (lookup_ge_None_2 (seq _ _)) by (rewrite length_seq; lia).
    rewrite lookup_ge_None_2 by (rewrite length_rotate; lia). done.
Qed.

(** [k] rounds visit the rotated list [k] times over. *)
Lemma rounds_rotate (live : list URL) (s k : nat) :
  live <> [] ->
  (fun j => live !!! rotate_nat_add s j (length live)) <$> seq 0 (k * length live)
  = mjoin (replicate k (rotate s live)).
Proof.
  intros Hl. induction k as [|k IH]; [done|].
  cbn [Nat.mul replicate mjoin list_join]. rewrite seq_app, fmap_app.
  rewrite round_rotate by done. f_equal.
  etrans; [|exact IH]. rewrite Nat.add_comm.
  rewrite <- fmap_add_seq, <- list_fmap_compose.
  apply list_fmap_ext. intros i j _. cbn. f_equal.
  unfold rotate_nat_add. f_equal.
  rewrite Nat2Z.inj_add, Z.add_assoc, (Z.add_comm _ (Z.of_nat (length live))).
  rewrite <- Z.add_assoc.
  rewrite <- (Z.mul_1_l (Z.of_nat (length live))) at 1.
  rewrite Z.add_comm, Z_mod_plus_full. done.
Qed.

Lemma occurrences_app (u : URL) (l1 l2 : list URL) :
  occurrences u (l1 ++ l2) = (occurrences u l1 + occurrences u l2)%nat.
Proof. unfold occurrences. by rewrite filter_app, length_app. Qed.

Lemma occurrences_rotate (u : URL) (s : nat) (l : list URL) :
  occurrences u (rotate s l) = occurrences u l.
Proof.
  unfold rotate. set (n := (s `mod` length l)%nat).
  transitivity (occurrences u (take n l ++ drop n l)).
  - rewrite !occurrences_app. lia.
  - by rewrite take_drop.
Qed.

Lemma occurrences_rounds (u : URL) (k : nat) (l : list URL) :
  occurrences u (mjoin (replicate k l)) = (k * occurrences u l)%nat.
Proof.
  induction k as [|k IH]; [done|].
  change (mjoin (replicate (S k) l)) with (l ++ mjoin (replicate k l)).
  rewrite occurrences_app, IH. lia.
Qed.

Lemma occurrences_absent (u : URL) (l : list URL) : u ∉ l -> occurrences u l = 0%nat.
Proof.
  unfold occurrences. induction l as [|x l IH]; [done|].
  intros Hu. apply not_elem_of_cons in Hu as [Hne Hu].
  rewrite filter_cons. rewrite decide_False by done. by apply IH.
Qed.

Lemma occurrences_NoDup (u : URL) (l : list URL) :
  NoDup l -> u ∈ l -> occurrences u l = 1%nat.
Proof.
  induction 1 as [|x l Hx Hnd IH]; intros Hu; [by apply elem_of_nil in Hu|].
  change (x :: l) with ([x] ++ l). rewrite occurrences_app.
  destruct (decide (x = u)) as [->|Hne].
  - rewrite (occurrences_absent u l Hx). unfold occurrences.
    rewrite filter_cons, decide_True by done. done.
  - apply elem_of_cons in Hu as [->|Hu]; [done|]. rewrite (IH Hu).
    unfold occurrences. rewrite filter_cons, decide_False by done. done.
Qed.

End Rounds.

Section Construction.

Context {R : Runtime}.

Lemma parse_initial_Ok (c : ALNConfig) (initial : list string) (nodes : list URL) :
  parse_initial c initial = Ok nodes <->
  Forall2 (fun host u => url_Parse (node_uri c host) = Ok u) initial nodes.
Proof.
  revert nodes. induction initial as [|host rest IH]; intros nodes; cbn.
  - split.
    + intros [= <-]. constructor.
    + intros H. by inversion H.
  - destruct (url_Parse (node_uri c host)) as [u|e] eqn:Hu.
    + destruct (parse_initial c rest) as [nodes'|e] eqn:Hr.
      * split.
        -- intros [= <-]. constructor; [done|]. by apply IH.
        -- intros H. inversion H as [|? u' ? nodes'' Hu' Hrest]; subst.
           apply IH in Hrest. congruence.
      * split; [done|]. intros H. inversion H as [|? u' ? nodes'' Hu' Hrest]; subst.
        apply IH in Hrest. done.
    + split; [done|]. intros H. inversion H; subst. congruence.
Qed.

Lemma parse_initial_Err (c : ALNConfig) (initial : list string) :
  (exists e, parse_initial c initial = Err e) <->
  Exists (fun host => exists e, url_Parse (node_uri c host) = Err e) initial.
Proof.
  induction initial as [|host rest IH]; cbn.
  - split; [intros [e [=]]|intros H; inversion H].
  - destruct (url_Parse (node_uri c host)) as [u|e] eqn:Hu.
    + destruct (parse_initial c rest) as [nodes'|e] eqn:Hr.
      * split; [intros [e [=]]|].
        intros H. inversion H as [? ? [e He]|? ? Hrest]; subst; [congruence|].
        apply IH in Hrest as [e [=]].
      * split; [|eauto]. intros _. apply Exists_cons_tl. apply IH. eauto.
    + split; [|eauto]. intros _. apply Exists_cons_hd. eauto.
Qed.

(** What a successful construction leaves. *)
Lemma NewAlternatorLiveNodes_Ok (initial : list string) (options : list ALNOption)
    (a : AlternatorLiveNodes) :
  NewAlternatorLiveNodes initial options = Ok a ->
  initial <> []
  /\ parse_initial (apply_options options NewDefaultALNConfig) initial = Ok (initialNodes a)
  /\ a = mkALN (Some (initialNodes a)) (initialNodes a) 0
               (apply_options options NewDefaultALNConfig) 0 false false false.
Proof.
  unfold NewAlternatorLiveNodes. case_decide as Hz; [done|].
  destruct (parse_initial _ initial) as [nodes|e] eqn:Hp; [|done].
  intros [= <-]. cbn. split_and!; try done.
  intros ->. by apply Hz.
Qed.

Lemma initialNodes_nonempty (initial : list string) (options : list ALNOption)
    (a : AlternatorLiveNodes) :
  NewAlternatorLiveNodes initial options = Ok a -> initialNodes a <> [].
Proof.
  intros (Hne & Hp & _)%NewAlternatorLiveNodes_Ok.
  apply parse_initial_Ok in Hp. intros Hnil. rewrite Hnil in Hp.
  by inversion Hp.
Qed.

Lemma fresh_sound (initial : list string) (options : list ALNOption)
    (a : AlternatorLiveNodes) :
  NewAlternatorLiveNodes initial options = Ok a -> sound (fresh a) /\ accounted (fresh a).
Proof.
  intros H. pose proof (initialNodes_nonempty _ _ _ H) as Hne.
  apply NewAlternatorLiveNodes_Ok in H as (_ & _ & Ha).
  rewrite Ha in Hne. cbn in Hne.
  rewrite Ha. unfold sound, accounted. cbn. split_and!; try done. eauto.
Qed.

(** Every history of a constructed directory runs to its end, in a sound
    world. *)
Lemma reached (initial : list string) (options : list ALNOption)
    (a : AlternatorLiveNodes) (acts : list Action) :
  NewAlternatorLiveNodes initial options = Ok a ->
  exists w, history acts (fresh a) = Returns tt w
            /\ evolved (existsb starts_updater acts) (fresh a) w.
Proof.
  intros [Hs Ha]%fresh_sound. by apply history_evolved.
Qed.


End Construction.

(** * Properties of the specification *)

Section Properties.

Context {R : Runtime}.


(** C2. The published snapshot is never empty. Construction stores the
    bootstrap list, which is not empty, as the first snapshot; after any
    history the snapshot is a non-empty list; and [UpdateLiveNodes] makes
    one discovery call and leaves the discovered list as the snapshot if
    and only if that list is not empty: when it is empty the snapshot is the
    one from before the call. *)
Theorem snapshot_never_empty (initial : list string) (options : list ALNOption)
    (a : AlternatorLiveNodes) (acts : list Action) :
  NewAlternatorLiveNodes initial options = Ok a ->
  (liveNodes a = Some (initialNodes a) /\ initialNodes a <> [])
  /\ exists w,
       history acts (fresh a) = Returns tt w
       /\ (exists live, liveNodes (aln w) = Some live /\ live <> [])
       /\ exists newNodes err w',
            getNodes (localnodes_endpoint w) (advanced w)
              = Returns (newNodes, err) (sent (localnodes_endpoint w) (advanced w))
            /\ UpdateLiveNodes w = Returns err w'
            /\ (liveNodes (aln w') = Some newNodes <-> newNodes <> [])
            /\ (newNodes = [] -> liveNodes (aln w') = liveNodes (aln w))
            /\ (exists live', liveNodes (aln w') = Some live' /\ live' <> []).
Proof.
  intros H. split.
  - split; [|by eapply initialNodes_nonempty].
    apply NewAlternatorLiveNodes_Ok in H as (_ & _ & ->). done.
  - destruct (reached initial options a acts H) as (w & Hw & Hs & _).
    exists w. split; [done|]. split; [apply Hs|].
    pose proof (sound_pointer w Hs) as Hp. pose proof (sound_candidates w Hs) as Hc.
    destruct (refresh_outcome w) as [newNodes err] eqn:Ho.
    exists newNodes, err, (refreshed w). split_and!.
    + rewrite getNodes_returns. by rewrite <- Ho.
    + rewrite (UpdateLiveNodes_returns w Hp Hc). by rewrite Ho.
    + destruct Hs as ((live & Hl & Hne) & _).
      unfold refreshed. rewrite Ho. destruct err as [e|].
      * apply discovered_error_nil in Ho as ->. cbn. rewrite Hl. split; [|done].
        intros [= ->]. done.
      * case_decide as Hn; cbn.
        -- subst. rewrite Hl. split; [|done]. intros [= ->]. done.
        -- done.
    + intros ->. unfold refreshed. rewrite Ho. destruct err; [done|].
      by rewrite decide_True.
    + pose proof (calm_refreshed w) as (_ & _ & _ & _ & Hs'). apply Hs'. done.
Qed.

(** C3, as amended. Over a snapshot of [M >= 1] entries that stays the
    same, and while the 64-bit cursor does not wrap around, [k * M] calls of
    [nextNode] in a row return the snapshot [k] times over, in rotated
    order: every return is a member of the snapshot, every address is
    returned [k] times as often as it occurs in the snapshot, so exactly [k]
    times when the snapshot holds it once. *)
Theorem round_robin_fair (w : World) (live : list URL) (k : nat) :
  liveNodes (aln w) = Some live ->
  live <> [] ->
  0 <= nextLiveNodeIdx (aln w) ->
  nextLiveNodeIdx (aln w) + Z.of_nat (k * length live) < Go.uint64_modulus ->
  exists us w',
    nextNode_times (k * length live) w = Returns us w'
    /\ liveNodes (aln w') = Some live
    /\ us = mjoin (replicate k (rotate (Z.to_nat (nextLiveNodeIdx (aln w) + 1)) live))
    /\ Forall (fun u => u ∈ live) us
    /\ (forall u, occurrences u us = (k * occurrences u live)%nat)
    /\ (NoDup live -> forall u, u ∈ live -> occurrences u us = k).
Proof.
  intros Hl Hne Hc0 Hc1.
  assert (candidates w = live) as Hcand.
  { unfold candidates. rewrite Hl. by apply selected_live. }
  assert (Hus : nth_choice w <$> seq 1 (k * length live)
                = mjoin (replicate k (rotate (Z.to_nat (nextLiveNodeIdx (aln w) + 1)) live))).
  { rewrite <- rounds_rotate by done.
    rewrite <- (fmap_S_seq 0), <- list_fmap_compose.
    apply list_fmap_ext. intros i j Hj. cbn.
    apply lookup_seq in Hj as [-> Hj]. cbn in *.
    unfold nth_choice. rewrite Hcand. f_equal.
    unfold rotate_nat_add, Go.len. f_equal.
    rewrite to_uint64_small by lia. f_equal. lia. }
  eexists _, _. split_and!.
  - apply nextNode_times_returns; [by rewrite Hl|by rewrite Hcand|].
    split; [done|]. lia.
  - done.
  - exact Hus.
  - rewrite Hus. apply Forall_forall. intros u Hu.
    apply list_elem_of_join in Hu as (r & Hu & Hr).
    apply elem_of_replicate in Hr as [-> _]. by apply elem_of_rotate in Hu.
  - intros u. by rewrite Hus, occurrences_rounds, occurrences_rotate.
  - intros Hnd u Hu. rewrite Hus, occurrences_rounds, occurrences_rotate.
    rewrite (occurrences_NoDup u live Hnd Hu). lia.
Qed.

(** C4. The active-mode trigger, at any point of any history and for any
    clock reading [now]. With an update period [<= 0] it changes nothing.
    Otherwise, if the stored deadline is earlier than [now], it stores
    [now] plus the period in whole seconds as the new deadline and leaves a
    refresh signal buffered, changing nothing else; if the deadline is not
    earlier than [now] it changes nothing. [NextNode] runs this trigger:
    the deadline and the signal it leaves are the trigger's. *)
Theorem active_trigger (initial : list string) (options : list ALNOption)
    (a : AlternatorLiveNodes) (acts : list Action) (now : Z) :
  NewAlternatorLiveNodes initial options = Ok a ->
  exists w,
    history acts (fresh a) = Returns tt w
    /\ let period := UpdatePeriod (cfg (aln w)) in
       exists w',
         triggerUpdate now w = Returns tt w'
         /\ (period <= 0 -> w' = w)
         /\ (0 < period -> nextUpdate (aln w) < now ->
             w' = claimed now w
             /\ nextUpdate (aln w') = Go.add_int64 now (Duration_Seconds period)
             /\ (- 2 ^ 63 <= now + Duration_Seconds period <= Go.int64_max ->
                 nextUpdate (aln w') = now + Duration_Seconds period)
             /\ updateSignal (aln w') = true)
         /\ (0 < period -> now <= nextUpdate (aln w) -> w' = w)
         /\ exists u w'',
              NextNode now w = Returns u w''
              /\ nextUpdate (aln w'') = nextUpdate (aln w')
              /\ updateSignal (aln w'') = updateSignal (aln w').
Proof.
  intros H. destruct (reached initial options a acts H) as (w & Hw & Hs & _).
  exists w. split; [done|]. cbv zeta.
  eexists. split; [apply triggerUpdate_returns|]. split_and!.
  - intros Hp. by rewrite decide_True.
  - intros Hp Hd. rewrite decide_False by lia. rewrite decide_True by done.
    split_and!; try done.
    intros Hr. cbn. unfold deadline_from, Go.add_int64. by apply to_int64_small.
  - intros Hp Hd. rewrite decide_False by lia. by rewrite decide_False by lia.
  - eexists _, _. split; [by apply NextNode_returns|].
    repeat case_decide; destruct (idleUpdaterStarted (aln w)); cbn in *; try done; lia.
Qed.

(** [getNodes] for any runtime, in terms of what the calls of the runtime
    return: one request whatever the outcome, an error exactly when [Get]
    or reading the body fails, the status is not 200, or the call of
    [json.Unmarshal] returns an error; otherwise the addresses, in order, of
    the hosts whose URI parses. *)
Lemma getNodes_spec (endpoint : URL) (w : World) :
  let reply := http_Get (length (requests w)) endpoint in
  exists nodes err,
    getNodes endpoint w = Returns (nodes, err) (sent endpoint w)
    /\ requests (sent endpoint w) = requests w ++ [endpoint]
    /\ (err <> None <->
        transport_failed reply \/ status_not_OK reply \/ body_undecodable reply)
    /\ (err <> None -> nodes = [])
    /\ (err = None <-> exists hosts, decoded_hosts reply = Some hosts)
    /\ (forall hosts, decoded_hosts reply = Some hosts ->
        nodes = omap (host_address (cfg (aln w))) hosts
        /\ forall u, u ∈ nodes <->
             exists host, host ∈ hosts /\ url_Parse (node_uri (cfg (aln w)) host) = Ok u).
Proof.
  cbv zeta. pose proof (discovered_reply endpoint w) as Hd. cbv zeta in Hd.
  destruct (discovered endpoint w) as [nodes err] eqn:Ho.
  exists nodes, err. split; [by rewrite getNodes_returns, Ho|]. split; [done|].
  assert (decoded_hosts (http_Get (length (requests w)) endpoint) = None <->
          transport_failed (http_Get (length (requests w)) endpoint)
          \/ status_not_OK (http_Get (length (requests w)) endpoint)
          \/ body_undecodable (http_Get (length (requests w)) endpoint)) as Hfail.
  { unfold decoded_hosts, transport_failed, status_not_OK, body_undecodable.
    destruct (http_Get _ _) as [e|st [body|e]].
    - tauto.
    - case_decide as Hst.
      + destruct (json_Unmarshal_strings body).
        * split; [done|]. intros [[]|[Hn|[]]]. done.
        * tauto.
      + tauto.
    - tauto. }
  destruct (decoded_hosts _) as [hosts|] eqn:Hh.
  - injection Hd as -> ->. split_and!.
    + split; [done|]. intros Hf. apply Hfail in Hf. done.
    + done.
    + split; [eauto|done].
    + intros hosts' [= <-]. split; [done|]. intros u.
      rewrite list_elem_of_omap. unfold host_address.
      split; intros (host & Hin & Hp); exists host; split; try done.
      * destruct (url_Parse _); by inversion Hp.
      * by rewrite Hp.
  - destruct Hd as [e [= -> ->]]. split_and!.
    + split; [intros _; by apply Hfail|done].
    + done.
    + split; [done|]. intros [hosts [=]].
    + intros hosts [=].
Qed.

(** C5, as amended. [getNodes] sends exactly one request whatever the
    outcome, and returns an error exactly when the transport fails (no
    response, or the body cannot be read), the status is not 200, or
    [json.Unmarshal] rejects the body for a [[]string]; with an error the
    list is empty. The decoder takes more than the JSON arrays of strings:
    the body [null] is taken and gives no address and no error, and an
    element [null] of an array is taken as the empty host. For a body that
    is taken the list holds, in order, the address of every decoded host
    whose URI (the host with the configured scheme and port) parses; the
    hosts whose URI does not parse are left out and the call still
    succeeds. *)
Theorem getNodes_decoder (endpoint : URL) (w : World) :
  json_faithful ->
  let reply := http_Get (length (requests w)) endpoint in
  exists nodes err,
    getNodes endpoint w = Returns (nodes, err) (sent endpoint w)
    /\ requests (sent endpoint w) = requests w ++ [endpoint]
    /\ (err <> None <->
        transport_failed reply \/ status_not_OK reply \/ body_rejected reply)
    /\ (err <> None -> nodes = [])
    /\ (forall body hosts,
          reply = Response Go.StatusOK (Ok body) ->
          Json.Unmarshal_strings body = Some hosts ->
          err = None
          /\ nodes = omap (host_address (cfg (aln w))) hosts
          /\ forall u, u ∈ nodes <->
               exists host,
                 host ∈ hosts /\ url_Parse (node_uri (cfg (aln w)) host) = Ok u)
    /\ (forall body,
          reply = Response Go.StatusOK (Ok body) ->
          Json.scan body = Some Json.TopNull ->
          err = None /\ nodes = [])
    /\ (forall body elems hosts,
          reply = Response Go.StatusOK (Ok body) ->
          Json.scan body = Some (Json.TopArray elems) ->
          Json.Unmarshal_strings body = Some hosts ->
          forall i, elems !! i = Some None -> hosts !! i = Some EmptyString).
Proof.
  intros Hjson. cbv zeta.
  pose proof (discovered_reply endpoint w) as Hd. cbv zeta in Hd.
  destruct (discovered endpoint w) as [nodes err] eqn:Ho.
  exists nodes, err. split; [by rewrite getNodes_returns, Ho|]. split; [done|].
  assert (forall body hosts,
            http_Get (length (requests w)) endpoint = Response Go.StatusOK (Ok body) ->
            Json.Unmarshal_strings body = Some hosts ->
            err = None /\ nodes = omap (host_address (cfg (aln w))) hosts) as Htaken.
  { intros body hosts Hr Hu. rewrite Hr in Hd. unfold decoded_hosts in Hd.
    rewrite decide_True in Hd by done.
    pose proof (Hjson body) as Hb. rewrite Hu in Hb. rewrite Hb in Hd.
    by injection Hd as -> ->. }
  split_and!.
  - unfold decoded_hosts, transport_failed, status_not_OK, body_rejected in *.
    destruct (http_Get _ _) as [e|st [body|e]].
    + destruct Hd as [e' [= -> ->]]. split; [by left|done].
    + pose proof (Hjson body) as Hb.
      destruct (decide (st = Go.StatusOK)) as [Hst|Hst].
      * destruct (Json.Unmarshal_strings body) as [hosts|].
        -- rewrite Hb in Hd. injection Hd as -> ->.
           split; [done|]. intros [[]|[Hn|Hn]]; done.
        -- destruct Hb as [e Hb]. rewrite Hb in Hd. destruct Hd as [e' [= -> ->]].
           split; [by right; right|done].
      * destruct Hd as [e' [= -> ->]]. split; [by right; left|done].
    + destruct Hd as [e' [= -> ->]]. split; [by left|done].
  - intros He. destruct (decoded_hosts _); [by injection Hd as -> ->|].
    by destruct Hd as [e' [= -> ->]].
  - intros body hosts Hr Hu. destruct (Htaken body hosts Hr Hu) as [-> ->].
    split_and!; try done. intros u.
    rewrite list_elem_of_omap. unfold host_address.
    split; intros (host & Hin & Hp); exists host; split; try done.
    + destruct (url_Parse _); by inversion Hp.
    + by rewrite Hp.
  - intros body Hr Hscan.
    apply (Htaken body [] Hr). unfold Json.Unmarshal_strings. by rewrite Hscan.
  - intros body elems hosts _ Hscan Hu i Hi.
    unfold Json.Unmarshal_strings in Hu. rewrite Hscan in Hu.
    apply mapM_Some in Hu.
    destruct (Forall2_lookup_l _ _ _ _ _ Hu Hi) as (host & Hh & He).
    cbn in He. by injection He as <-.
Qed.

(** C6, as amended. [CheckIfRackDatacenterFeatureIsSupported] takes its
    two endpoints from two selections in a row (the unscoped one from the
    first, the one scoped to the fabricated rack from the second), so both
    address the same node when the list selected from has one entry. It
    sends the scoped call first and the unscoped call only when the scoped
    one succeeded. It returns the error of a failed call, an error when the
    unscoped call returns an empty list, and otherwise [true] exactly when
    the two lists differ in length. *)
Theorem feature_probe (initial : list string) (options : list ALNOption)
    (a : AlternatorLiveNodes) (acts : list Action) :
  NewAlternatorLiveNodes initial options = Ok a ->
  exists w,
    history acts (fresh a) = Returns tt w
    /\ let baseURI := rewritten (nth_choice w 1) "/localnodes" "" in
       let fakeRackURI := rewritten (nth_choice w 2) "/localnodes" "rack=fakeRack" in
       let w2 := advanced_by 2 w in
       let w3 := sent fakeRackURI w2 in
       let w4 := sent baseURI w3 in
       (length (candidates w) = 1%nat -> nth_choice w 2 = nth_choice w 1)
       /\ URL_RawQuery fakeRackURI = "rack=fakeRack"
       /\ exists hostsWithFakeRack errFake hostsWithoutRack errBase supported err w',
            getNodes fakeRackURI w2 = Returns (hostsWithFakeRack, errFake) w3
            /\ getNodes baseURI w3 = Returns (hostsWithoutRack, errBase) w4
            /\ CheckIfRackDatacenterFeatureIsSupported w = Returns (supported, err) w'
            /\ (errFake <> None -> supported = false /\ err = errFake /\ w' = w3)
            /\ (errFake = None ->
                w' = w4
                /\ (errBase <> None -> supported = false /\ err = errBase)
                /\ (errBase = None -> hostsWithoutRack = [] ->
                    supported = false
                    /\ err = Some (errors_New "host returned empty list"))
                /\ (errBase = None -> hostsWithoutRack <> [] ->
                    err = None
                    /\ (supported = true <->
                        length hostsWithFakeRack <> length hostsWithoutRack))).
Proof.
  intros H. destruct (reached initial options a acts H) as (w & Hw & Hs & _).
  exists w. split; [done|]. cbv zeta.
  pose proof (sound_pointer w Hs) as Hp. pose proof (sound_candidates w Hs) as Hc.
  assert (advanced_by 2 w = advanced (advanced w)) as ->.
  { rewrite <- !advanced_by_S. apply advanced_by_0. cbn. apply to_uint64_range. }
  rewrite <- (nth_choice_advanced w 1), <- !target_nth_choice.
  split_and!.
  - intros Hone. unfold target, next_index. rewrite candidates_advanced.
    unfold Go.len. rewrite Hone. by rewrite !Z.mod_1_r.
  - done.
  - pose proof (CheckIfRackDatacenterFeatureIsSupported_returns w Hp Hc) as Hr.
    cbv zeta in Hr.
    set (fakeURI := rewritten (target (advanced w)) _ _) in *.
    set (baseURI := rewritten (target w) _ _) in *.
    destruct (discovered fakeURI (advanced (advanced w))) as [fake errF] eqn:HoF.
    destruct (discovered baseURI (sent fakeURI (advanced (advanced w))))
      as [base errB] eqn:HoB.
    exists fake, errF, base, errB.
    destruct errF as [eF|].
    { eexists _, _, _. split_and!.
      - by rewrite getNodes_returns, HoF.
      - by rewrite getNodes_returns, HoB.
      - exact Hr.
      - done.
      - done. }
    destruct errB as [eB|].
    { eexists _, _, _. split_and!.
      - by rewrite getNodes_returns, HoF.
      - by rewrite getNodes_returns, HoB.
      - exact Hr.
      - done.
      - done. }
    destruct (decide (base = [])) as [Hb|Hb].
    { eexists _, _, _. split_and!.
      - by rewrite getNodes_returns, HoF.
      - by rewrite getNodes_returns, HoB.
      - exact Hr.
      - done.
      - done. }
    eexists _, _, _. split_and!.
    + by rewrite getNodes_returns, HoF.
    + by rewrite getNodes_returns, HoB.
    + exact Hr.
    + done.
    + intros _. split_and!; try done.
      intros _ _. split; [done|]. apply bool_decide_eq_true.
Qed.

(** C7, as amended. [CheckIfRackAndDatacenterSetCorrectly] returns nil
    without a request when neither rack nor datacenter is configured.
    Otherwise it makes one discovery call, to [/localnodes] with the
    configured rack and datacenter as the query, and returns: for a failed
    call a new error, whose message is the cause's behind the prefix "failed
    to read list of nodes: "; for an empty list a configuration error; for
    a non-empty list nil. *)
Theorem rack_datacenter_check (initial : list string) (options : list ALNOption)
    (a : AlternatorLiveNodes) (acts : list Action) :
  NewAlternatorLiveNodes initial options = Ok a ->
  exists w,
    history acts (fresh a) = Returns tt w
    /\ let c := cfg (aln w) in
       (Rack c = "" /\ Datacenter c = "" ->
        CheckIfRackAndDatacenterSetCorrectly w = Returns None w)
       /\ (~ (Rack c = "" /\ Datacenter c = "") ->
           let endpoint := localnodes_endpoint w in
           URL_Path endpoint = "/localnodes"
           /\ URL_RawQuery endpoint = localnodes_query c
           /\ exists newNodes err result,
                getNodes endpoint (advanced w)
                  = Returns (newNodes, err) (sent endpoint (advanced w))
                /\ CheckIfRackAndDatacenterSetCorrectly w
                   = Returns result (sent endpoint (advanced w))
                /\ (forall e, err = Some e ->
                    result = Some (fmt_Errorf_v "failed to read list of nodes: " e))
                /\ (err = None -> newNodes = [] ->
                    result = Some (errors_New
                      "node returned empty list, datacenter or rack might be incorrect"))
                /\ (err = None -> newNodes <> [] -> result = None)).
Proof.
  intros H. destruct (reached initial options a acts H) as (w & Hw & Hs & _).
  exists w. split; [done|]. cbv zeta.
  pose proof (sound_pointer w Hs) as Hp. pose proof (sound_candidates w Hs) as Hc.
  pose proof (CheckIfRackAndDatacenterSetCorrectly_returns w Hp Hc) as Hr.
  split.
  - intros Hq. by rewrite decide_True in Hr.
  - intros Hq. rewrite decide_False in Hr by done. split_and!.
    + unfold localnodes_endpoint, rewritten. cbv zeta. by case_decide.
    + unfold localnodes_endpoint, rewritten. cbv zeta.
      rewrite decide_True by (by apply localnodes_query_nonempty). done.
    + unfold refresh_outcome in Hr.
      destruct (discovered (localnodes_endpoint w) (advanced w)) as [newNodes err] eqn:Ho.
      exists newNodes, err. eexists. split_and!.
      * by rewrite getNodes_returns, Ho.
      * exact Hr.
      * intros e ->. done.
      * intros -> ->. by rewrite decide_True.
      * intros -> Hn. by rewrite decide_False.
Qed.

(** C8. [NewAlternatorLiveNodes] returns an error for the empty bootstrap
    list and for a list with a host whose assembled URI does not parse, and
    for no other list. For a non-empty list of hosts that all parse it
    returns a directory in which every bootstrap host can be selected at
    once: for each position of the list, some number of [nextNode] calls,
    at most the length of the list, ends with the address of the host at
    that position, and no request has been sent by then. The bootstrap list
    is a Go slice. *)
Theorem construction (initial : list string) (options : list ALNOption) :
  Go.is_slice initial ->
  let c := apply_options options NewDefaultALNConfig in
  (initial = [] ->
   NewAlternatorLiveNodes initial options = Err (errors_New "liveNodes cannot be empty"))
  /\ ((exists e, NewAlternatorLiveNodes initial options = Err e) <->
      initial = []
      \/ Exists (fun host => exists e, url_Parse (node_uri c host) = Err e) initial)
  /\ (initial <> [] ->
      Forall (fun host => exists u, url_Parse (node_uri c host) = Ok u) initial ->
      exists a,
        NewAlternatorLiveNodes initial options = Ok a
        /\ forall i host, initial !! i = Some host ->
             exists u n us w',
               url_Parse (node_uri c host) = Ok u
               /\ (n <= length initial)%nat
               /\ nextNode_times n (fresh a) = Returns us w'
               /\ last us = Some u
               /\ requests w' = []).
Proof.
  intros Hslice. cbv zeta. split_and!.
  - intros ->. done.
  - unfold NewAlternatorLiveNodes. split.
    + intros [e He]. case_decide as Hz; [left; by apply len_zero|right].
      apply parse_initial_Err. destruct (parse_initial _ initial); [done|eauto].
    + intros [->|Hex]; [eauto|].
      case_decide as Hz; [eauto|].
      apply parse_initial_Err in Hex as [e ->]. eauto.
  - intros Hne Hall.
    destruct (parse_initial (apply_options options NewDefaultALNConfig) initial)
      as [nodes|e] eqn:Hp.
    2:{ exfalso. assert (exists e, parse_initial (apply_options options NewDefaultALNConfig)
                                    initial = Err e) as Hex by eauto.
        apply parse_initial_Err in Hex. apply Exists_exists in Hex as (host & Hin & e' & He').
        rewrite Forall_forall in Hall. destruct (Hall host Hin) as [u Hu]. congruence. }
    eexists. split.
    { unfold NewAlternatorLiveNodes. rewrite decide_False by (by rewrite len_zero).
      rewrite Hp. reflexivity. }
    apply parse_initial_Ok in Hp.
    pose proof (Forall2_length _ _ _ Hp) as Hlen.
    intros i host Hi.
    destruct (Forall2_lookup_l _ _ _ _ _ Hp Hi) as (u & Hu & Hparse).
    pose proof (lookup_lt_Some _ _ _ Hu) as Hlt.
    set (w := fresh _).
    assert (nodes <> []) as Hnodes by (intros ->; cbn in Hlt; lia).
    assert (candidates w = nodes) as Hcand by (by apply selected_live).
    set (m := (if decide (i = 0) then length nodes - 1 else i - 1)%nat).
    exists u, (S m), (nth_choice w <$> seq 1 (S m)), (advanced_by (S m) w).
    split_and!.
    + done.
    + subst m. case_decide; lia.
    + apply nextNode_times_returns; [done|by rewrite Hcand|done].
    + rewrite fmap_last, seq_S, last_snoc. cbn [fmap option_fmap option_map].
      f_equal. unfold nth_choice. rewrite Hcand. cbn [nextLiveNodeIdx aln w fresh].
      apply list_lookup_total_correct.
      enough (Z.to_nat (Go.to_uint64 (0 + Z.of_nat (1 + m)) mod Go.len nodes) = i)
        as -> by done.
      unfold Go.is_slice, Go.int64_max, Go.len in *.
      rewrite to_uint64_small by (unfold Go.uint64_modulus; subst m; case_decide; lia).
      subst m. case_decide as Hi0.
      * subst i. replace (0 + Z.of_nat (1 + (length nodes - 1)))
          with (Z.of_nat (length nodes)) by lia.
        by rewrite Z_mod_same_full.
      * rewrite Z.mod_small by lia. lia.
    + done.
Qed.

(** C9. The idle updater is launched at most once in any history of a
    directory. After a history, the count of launched updaters is 1 when
    the idle period is positive and the history holds a [Start] or
    [NextNode] call, and 0 otherwise, however many such calls it holds; the
    started flag says the same. With an idle period [<= 0] no updater is
    ever launched. A further [startIdleUpdater] launches the updater and
    sets the flag only when the period is positive and the flag is not set
    yet, and otherwise changes nothing. *)
Theorem idle_updater_once (initial : list string) (options : list ALNOption)
    (a : AlternatorLiveNodes) (acts : list Action) :
  NewAlternatorLiveNodes initial options = Ok a ->
  exists w,
    history acts (fresh a) = Returns tt w
    /\ let enabled := bool_decide (0 < IdleUpdatePeriod (cfg a)) in
       idleUpdaterStarted (aln w) = enabled && existsb starts_updater acts
       /\ idleUpdaters w = (if enabled && existsb starts_updater acts then 1 else 0)%nat
       /\ (idleUpdaters w <= 1)%nat
       /\ (IdleUpdatePeriod (cfg a) <= 0 -> idleUpdaters w = 0%nat)
       /\ startIdleUpdater w =
          Returns tt (if enabled && negb (idleUpdaterStarted (aln w))
                      then launched w else w).
Proof.
  intros H. destruct (reached initial options a acts H) as (w & Hw & He).
  destruct He as (Hs & (Hn & Hz & _) & Hc & _ & Hf & _).
  apply NewAlternatorLiveNodes_Ok in H as (_ & _ & Ha).
  assert (idleUpdaterStarted (aln (fresh a)) = false) as Hf0 by (by rewrite Ha).
  rewrite Hf0 in Hf. cbn [orb fresh aln] in Hf, Hc.
  exists w. split; [done|]. cbv zeta. split_and!.
  - done.
  - by rewrite Hn, Hf.
  - rewrite Hn. destruct (idleUpdaterStarted (aln w)); lia.
  - intros Hp. rewrite Hn, Hz by (by rewrite Hc). done.
  - rewrite startIdleUpdater_returns, Hc.
    destruct (decide (IdleUpdatePeriod (cfg a) <= 0)) as [Hp|Hp].
    + by rewrite bool_decide_eq_false_2 by lia.
    + rewrite bool_decide_eq_true_2 by lia.
      by destruct (idleUpdaterStarted (aln w)).
Qed.

(** C10. When the discovery call of [UpdateLiveNodes] gets a 200 whose
    body decodes to an array of hosts of which none parses (the array may
    be empty or not), [UpdateLiveNodes] returns nil and the snapshot is the
    one from before; when some host parses it returns nil as well and the
    snapshot is the list of parsed hosts. The returned error is nil in both
    cases. *)
Theorem empty_discovery_is_silent (initial : list string) (options : list ALNOption)
    (a : AlternatorLiveNodes) (acts : list Action) :
  NewAlternatorLiveNodes initial options = Ok a ->
  exists w,
    history acts (fresh a) = Returns tt w
    /\ forall hosts,
         decoded_hosts (http_Get (length (requests w)) (localnodes_endpoint w)) = Some hosts ->
         exists w',
           UpdateLiveNodes w = Returns None w'
           /\ requests w' = requests w ++ [localnodes_endpoint w]
           /\ (Forall (fun host => host_address (cfg (aln w)) host = None) hosts ->
               liveNodes (aln w') = liveNodes (aln w))
           /\ (Exists (fun host => host_address (cfg (aln w)) host <> None) hosts ->
               liveNodes (aln w') = Some (omap (host_address (cfg (aln w))) hosts)
               /\ omap (host_address (cfg (aln w))) hosts <> []).
Proof.
  intros H. destruct (reached initial options a acts H) as (w & Hw & Hs & _).
  exists w. split; [done|]. intros hosts Hh.
  pose proof (sound_pointer w Hs) as Hp. pose proof (sound_candidates w Hs) as Hc.
  pose proof (discovered_reply (localnodes_endpoint w) (advanced w)) as Hd.
  cbv zeta in Hd. change (requests (advanced w)) with (requests w) in Hd.
  rewrite Hh in Hd. change (cfg (aln (advanced w))) with (cfg (aln w)) in Hd.
  exists (refreshed w). split_and!.
  - rewrite (UpdateLiveNodes_returns w Hp Hc). unfold refresh_outcome. by rewrite Hd.
  - unfold refreshed, refresh_outcome. rewrite Hd. by case_decide.
  - intros Hall. unfold refreshed, refresh_outcome. rewrite Hd.
    rewrite decide_True; [done|].
    clear -Hall. induction Hall as [|host hosts Hhost Hall IH]; [done|].
    cbn. by rewrite Hhost.
  - intros Hex.
    assert (omap (host_address (cfg (aln w))) hosts <> []) as Hne.
    { clear -Hex. induction Hex as [host hosts Hhost|host hosts Hex IH]; cbn.
      - destruct (host_address _ host); done.
      - destruct (host_address _ host); done. }
    split; [|done]. unfold refreshed, refresh_outcome. rewrite Hd.
    by rewrite decide_False.
Qed.

End Properties.

(** * The properties on the simulated cluster *)

Section Simulation.

Example sim_unmarshal :
  Sim.unmarshal (Sim.body_of Sim.three_hosts) = Ok Sim.three_hosts.
Proof. vm_compute. reflexivity. Qed.

Example sim_construct :
  NewAlternatorLiveNodes (R := Sim.scoped) Sim.three_hosts []
  = Ok (Sim.directory NewDefaultALNConfig).
Proof. vm_compute. reflexivity. Qed.

Example sim_construct_port :
  NewAlternatorLiveNodes (R := Sim.scoped) ["a"; "b c"] [WithALNPort 9999]
  = Err (fmt_Errorf_v "invalid node URI: "
           (lib_error "net/url" "invalid character in host name")).
Proof. vm_compute. reflexivity. Qed.


Lemma snapshot_never_empty_witness :
  exists a,
    NewAlternatorLiveNodes (R := Sim.garbled) Sim.three_hosts [] = Ok a
    /\ exists w,
         history (R := Sim.garbled) [DoUpdateLiveNodes; DoNextNode 7] (fresh a) = Returns tt w
         /\ exists live, liveNodes (aln w) = Some live /\ live <> [].
Proof.
  exists (Sim.directory NewDefaultALNConfig). split; [reflexivity|].
  destruct (snapshot_never_empty (R := Sim.garbled) Sim.three_hosts []
              (Sim.directory NewDefaultALNConfig) [DoUpdateLiveNodes; DoNextNode 7])
    as (_ & w & Hw & Hlive & _); [reflexivity|].
  exists w. split; [exact Hw|exact Hlive].
Defined.

Lemma round_robin_fair_witness :
  exists us w',
    nextNode_times (2 * length Sim.three_nodes) Sim.world = Returns us w'
    /\ forall u, u ∈ Sim.three_nodes -> occurrences u us = 2%nat.
Proof.
  destruct (round_robin_fair Sim.world Sim.three_nodes 2)
    as (us & w' & Hrun & _ & _ & _ & _ & Hfair).
  - reflexivity.
  - discriminate.
  - cbn. lia.
  - vm_compute. reflexivity.
  - exists us, w'. split; [exact Hrun|]. apply Hfair.
    repeat constructor; rewrite ?elem_of_cons, ?elem_of_nil; intros H;
      repeat destruct H as [H|H]; discriminate || done.
Defined.

(** The simulated runtimes decode as encoding/json does. *)
Lemma Sim_decoder_faithful (replies : nat -> URL -> HttpReply) :
  json_faithful (R := Sim.runtime replies).
Proof.
  intros body. cbn. unfold Sim.unmarshal.
  destruct (Json.Unmarshal_strings body); [reflexivity|]. by eexists.
Qed.

(** What the decoder does with bodies that are not arrays of plain string
    literals: white space, escapes, a surrogate pair, bytes that are not
    UTF-8, and bodies that it rejects. *)
Example json_white_space_and_escapes :
  Json.Unmarshal_strings
    ("[ " +:+ String Json.quote ("a" +:+ String Json.backslash ("u0041"
       +:+ String Json.backslash ("/" +:+ String Json.quote (" ," +:+ String "010"%char
       ("null ]" +:+ String "010"%char EmptyString))))))
  = Some ["aA/"; EmptyString].
Proof. vm_compute. reflexivity. Qed.

Example json_surrogates :
  Json.unquoteBytes (String Json.backslash ("uD83D" +:+ String Json.backslash "uDE00"))
  = Some (Json.bytes [0xF0; 0x9F; 0x98; 0x80])
  /\ Json.unquoteBytes (String Json.backslash ("uD83D" +:+ String Json.backslash "u0041"))
     = Some (Json.bytes [0xEF; 0xBF; 0xBD; 0x41]).
Proof. split; vm_compute; reflexivity. Qed.

Example json_invalid_utf8 :
  Json.unquoteBytes (Json.bytes [0xC3; 0xA9; 0xFF; 0xE2; 0x82; 0x41])
  = Some (Json.bytes [0xC3; 0xA9; 0xEF; 0xBF; 0xBD; 0xEF; 0xBF; 0xBD; 0xEF; 0xBF; 0xBD; 0x41]).
Proof. vm_compute. reflexivity. Qed.

Example json_rejected :
  Json.Unmarshal_strings EmptyString = None
  /\ Json.Unmarshal_strings "[1]" = None
  /\ Json.Unmarshal_strings "{}" = None
  /\ Json.Unmarshal_strings "[null,]" = None
  /\ Json.Unmarshal_strings "[null] x" = None
  /\ Json.Unmarshal_strings (Sim.body_of ["a"] +:+ Sim.body_of ["b"]) = None
  /\ Json.Unmarshal_strings (String Json.quote (String Json.quote EmptyString)) = None.
Proof. split_and!; vm_compute; reflexivity. Qed.

(** C5 as written fails on a 200 reply whose body is the JSON literal
    [null], and on one whose body is an array with the element [null]:
    neither body is a JSON array of strings, and [getNodes] returns no
    error, with no address for the first and the address of the empty host
    for the second. *)
Lemma getNodes_takes_null :
  let endpoint := localnodes_endpoint Sim.world in
  (json_faithful (R := Sim.nulled)
   /\ http_Get (Runtime := Sim.nulled) 0 endpoint = Response 200 (Ok "null")
   /\ Json.array_of_strings "null" = false
   /\ getNodes (R := Sim.nulled) endpoint Sim.world
      = Returns ([], None) (sent endpoint Sim.world))
  /\ (json_faithful (R := Sim.null_host)
      /\ http_Get (Runtime := Sim.null_host) 0 endpoint = Response 200 (Ok "[null]")
      /\ Json.array_of_strings "[null]" = false
      /\ getNodes (R := Sim.null_host) endpoint Sim.world
         = Returns ([mkURL "http" ":8080" "" ""], None) (sent endpoint Sim.world)).
Proof.
  cbv zeta. split_and!; try apply Sim_decoder_faithful; vm_compute; reflexivity.
Qed.

Lemma getNodes_decoder_witness :
  json_faithful (R := Sim.scoped)
  /\ exists nodes err,
       getNodes (R := Sim.scoped) (localnodes_endpoint Sim.world) Sim.world
       = Returns (nodes, err) (sent (localnodes_endpoint Sim.world) Sim.world)
       /\ err = None
       /\ nodes = Sim.three_nodes.
Proof.
  assert (json_faithful (R := Sim.scoped)) as Hjson.
  { intros body. cbn. unfold Sim.unmarshal.
    destruct (Json.Unmarshal_strings body); [reflexivity|].
    eexists. reflexivity. }
  split; [exact Hjson|].
  destruct (getNodes_decoder (R := Sim.scoped) (localnodes_endpoint Sim.world) Sim.world
              Hjson)
    as (nodes & err & Hrun & _ & _ & _ & Htaken & _).
  exists nodes, err. split; [exact Hrun|].
  destruct (Htaken (Sim.body_of Sim.three_hosts) Sim.three_hosts) as (He & Hn & _).
  - reflexivity.
  - vm_compute. reflexivity.
  - split; [exact He|]. rewrite Hn. vm_compute. reflexivity.
Defined.

Lemma active_trigger_witness :
  exists a,
    NewAlternatorLiveNodes (R := Sim.scoped) Sim.three_hosts [] = Ok a
    /\ exists w w',
         history (R := Sim.scoped) [DoStart] (fresh a) = Returns tt w
         /\ triggerUpdate (R := Sim.scoped) 1700000000 w = Returns tt w'.
Proof.
  exists (Sim.directory NewDefaultALNConfig). split; [reflexivity|].
  destruct (active_trigger (R := Sim.scoped) Sim.three_hosts []
              (Sim.directory NewDefaultALNConfig) [DoStart] 1700000000)
    as (w & Hw & w' & Hrun & _); [reflexivity|].
  exists w, w'. split; [exact Hw|exact Hrun].
Defined.

Lemma feature_probe_witness :
  exists a,
    NewAlternatorLiveNodes (R := Sim.unscoped) Sim.three_hosts [] = Ok a
    /\ exists w res w',
         history (R := Sim.unscoped) [DoNextNode 3] (fresh a) = Returns tt w
         /\ CheckIfRackDatacenterFeatureIsSupported (R := Sim.unscoped) w = Returns res w'.
Proof.
  exists (Sim.directory NewDefaultALNConfig). split; [reflexivity|].
  destruct (feature_probe (R := Sim.unscoped) Sim.three_hosts []
              (Sim.directory NewDefaultALNConfig) [DoNextNode 3])
    as (w & Hw & _ & _ & fake & eF & base & eB & b & e & w' & _ & _ & Hrun & _);
    [reflexivity|].
  exists w, (b, e), w'. split; [exact Hw|exact Hrun].
Defined.

Lemma rack_datacenter_check_witness :
  exists a,
    NewAlternatorLiveNodes (R := Sim.scoped) Sim.three_hosts [WithALNDatacenter "wrongDC"]
      = Ok a
    /\ exists w,
         history (R := Sim.scoped) [] (fresh a) = Returns tt w
         /\ (Rack (cfg (aln w)) = "" /\ Datacenter (cfg (aln w)) = "" ->
             CheckIfRackAndDatacenterSetCorrectly (R := Sim.scoped) w = Returns None w).
Proof.
  exists (Sim.directory (WithALNDatacenter "wrongDC" NewDefaultALNConfig)).
  split; [reflexivity|].
  destruct (rack_datacenter_check (R := Sim.scoped) Sim.three_hosts
              [WithALNDatacenter "wrongDC"]
              (Sim.directory (WithALNDatacenter "wrongDC" NewDefaultALNConfig)) [])
    as (w & Hw & Hnone & _); [reflexivity|].
  exists w. split; [exact Hw|exact Hnone].
Defined.

Lemma construction_witness :
  exists a,
    NewAlternatorLiveNodes (R := Sim.scoped) Sim.three_hosts [] = Ok a
    /\ forall i host, Sim.three_hosts !! i = Some host ->
         exists u n us w',
           url_Parse (Runtime := Sim.scoped) (node_uri NewDefaultALNConfig host) = Ok u
           /\ (n <= 3)%nat
           /\ nextNode_times n (fresh a) = Returns us w'
           /\ last us = Some u
           /\ requests w' = [].
Proof.
  destruct (construction (R := Sim.scoped) Sim.three_hosts []) as (_ & _ & Hok).
  - vm_compute. discriminate.
  - apply Hok; [discriminate|].
    repeat constructor; eexists; vm_compute; reflexivity.
Defined.

Lemma idle_updater_once_witness :
  exists a,
    NewAlternatorLiveNodes (R := Sim.scoped) Sim.three_hosts [] = Ok a
    /\ exists w,
         history (R := Sim.scoped) [DoStart; DoNextNode 5; DoStart; DoNextNode 6] (fresh a)
           = Returns tt w
         /\ idleUpdaters w = 1%nat.
Proof.
  exists (Sim.directory NewDefaultALNConfig). split; [reflexivity|].
  destruct (idle_updater_once (R := Sim.scoped) Sim.three_hosts []
              (Sim.directory NewDefaultALNConfig)
              [DoStart; DoNextNode 5; DoStart; DoNextNode 6])
    as (w & Hw & _ & Hn & _); [reflexivity|].
  exists w. split; [exact Hw|exact Hn].
Defined.

Lemma empty_discovery_is_silent_witness :
  exists a,
    NewAlternatorLiveNodes (R := Sim.garbled) Sim.three_hosts [] = Ok a
    /\ exists w,
         history (R := Sim.garbled) [] (fresh a) = Returns tt w
         /\ forall hosts,
              decoded_hosts (R := Sim.garbled)
                (http_Get (Runtime := Sim.garbled) (length (requests w))
                   (localnodes_endpoint w)) = Some hosts ->
              exists w', UpdateLiveNodes (R := Sim.garbled) w = Returns None w'.
Proof.
  exists (Sim.directory NewDefaultALNConfig). split; [reflexivity|].
  destruct (empty_discovery_is_silent (R := Sim.garbled) Sim.three_hosts []
              (Sim.directory NewDefaultALNConfig) [])
    as (w & Hw & Hsilent); [reflexivity|].
  exists w. split; [exact Hw|].
  intros hosts Hh. destruct (Hsilent hosts Hh) as (w' & Hrun & _).
  exists w'. exact Hrun.
Defined.

(** The calls of the integration tests, on the simulated clusters. *)

Example sim_wrong_datacenter :
  exists w,
    CheckIfRackAndDatacenterSetCorrectly (R := Sim.scoped)
      (fresh (Sim.directory (WithALNDatacenter "wrongDC" NewDefaultALNConfig)))
    = Returns (Some (errors_New
                 "node returned empty list, datacenter or rack might be incorrect")) w.
Proof. eexists. vm_compute. reflexivity. Qed.

Example sim_correct_rack :
  exists w,
    CheckIfRackAndDatacenterSetCorrectly (R := Sim.scoped)
      (fresh (Sim.directory
                (WithALNRack "rack1" (WithALNDatacenter "datacenter1" NewDefaultALNConfig))))
    = Returns None w.
Proof. eexists. vm_compute. reflexivity. Qed.

Example sim_feature_supported :
  exists w,
    CheckIfRackDatacenterFeatureIsSupported (R := Sim.scoped) Sim.world
    = Returns (true, None) w.
Proof. eexists. vm_compute. reflexivity. Qed.

Example sim_feature_unsupported :
  exists w,
    CheckIfRackDatacenterFeatureIsSupported (R := Sim.unscoped) Sim.world
    = Returns (false, None) w.
Proof. eexists. vm_compute. reflexivity. Qed.

Example sim_garbled_refresh :
  exists w,
    UpdateLiveNodes (R := Sim.garbled) Sim.world = Returns None w
    /\ liveNodes (aln w) = Some Sim.three_nodes.
Proof. eexists. split; vm_compute; reflexivity. Qed.

Example sim_trigger_claims :
  triggerUpdate (R := Sim.scoped) 1700000000 Sim.world
  = Returns tt
      (fresh (mkALN (Some Sim.three_nodes) Sim.three_nodes 0 NewDefaultALNConfig
                    1700000010 false false true)).
Proof. vm_compute. reflexivity. Qed.

Example sim_trigger_disabled :
  triggerUpdate (R := Sim.scoped) 1700000000
    (fresh (Sim.directory (WithALNUpdatePeriod 0 NewDefaultALNConfig)))
  = Returns tt (fresh (Sim.directory (WithALNUpdatePeriod 0 NewDefaultALNConfig))).
Proof. vm_compute. reflexivity. Qed.

Example sim_signalled_refresh :
  exists w,
    history (R := Sim.scoped)
      [DoNextNode 100; IdleSignal 101; DoStart; DoStop; IdleDone; IdleTick 200]
      (fresh (Sim.directory (WithALNDatacenter "datacenter1" NewDefaultALNConfig)))
    = Returns tt w
    /\ requests w = [mkURL "http" "10.0.0.3:8080" "/localnodes" "dc=datacenter1"]
    /\ nextUpdate (aln w) = 111
    /\ updateSignal (aln w) = false
    /\ idleUpdaters w = 1%nat
    /\ nextLiveNodeIdx (aln w) = 2.
Proof. eexists. split_and!; vm_compute; reflexivity. Qed.

(** ** Where the specification as written fails *)

(** C3 as written fails where the cursor wraps: after [2^64 - 2] calls of
    [NextNode] on a directory of three nodes, the next three selections
    return the first node twice and the third node not at all. *)
Lemma fairness_fails_at_wrap :
  NewAlternatorLiveNodes (R := Sim.scoped) Sim.three_hosts []
  = Ok (Sim.directory NewDefaultALNConfig)
  /\ exists acts w w',
       history (R := Sim.scoped) acts (fresh (Sim.directory NewDefaultALNConfig))
       = Returns tt w
       /\ liveNodes (aln w) = Some Sim.three_nodes
       /\ nextLiveNodeIdx (aln w) = 2 ^ 64 - 2
       /\ nextNode_times (1 * length Sim.three_nodes) w
          = Returns [Sim.node1; Sim.node1; Sim.node2] w'
       /\ occurrences Sim.node3 [Sim.node1; Sim.node1; Sim.node2] = 0%nat
       /\ occurrences Sim.node1 [Sim.node1; Sim.node1; Sim.node2] = 2%nat.
Proof.
  split; [reflexivity|].
  destruct (fresh_sound (R := Sim.scoped) Sim.three_hosts []
              (Sim.directory NewDefaultALNConfig)) as [Hs Ha]; [reflexivity|].
  pose (n := Z.to_nat (2 ^ 64 - 2)).
  assert (Z.of_nat n = 2 ^ 64 - 2) as Hn by (apply Z2Nat.id; discriminate).
  clearbody n.
  destruct (history_NextNode_repeat (R := Sim.scoped) 0 n _ Hs Ha)
    as (w & Hw & Hl & Hi & Hc).
  rewrite Hn in Hc.
  assert (nextLiveNodeIdx (aln w) = 2 ^ 64 - 2) as Hc' by (rewrite Hc; reflexivity).
  assert (candidates w = Sim.three_nodes) as Hcand.
  { unfold candidates. rewrite Hl, Hi. reflexivity. }
  exists (repeat (DoNextNode 0) n), w, (advanced_by 3 w). split_and!.
  - exact Hw.
  - rewrite Hl. reflexivity.
  - exact Hc'.
  - rewrite (nextNode_times_returns _ w).
    + f_equal. cbn [Nat.mul length Sim.three_nodes Nat.add seq fmap list_fmap].
      unfold nth_choice. rewrite Hcand, Hc'. reflexivity.
    + rewrite Hl. discriminate.
    + rewrite Hcand. discriminate.
    + rewrite Hc'. split; [discriminate|reflexivity].
  - vm_compute. reflexivity.
  - vm_compute. reflexivity.
Qed.

(** C6 as written fails on a snapshot of more than one node: the scoped
    call goes to the third node and the unscoped call to the second. *)
Lemma feature_probe_two_targets :
  exists w,
    CheckIfRackDatacenterFeatureIsSupported (R := Sim.scoped) Sim.world
    = Returns (true, None) w
    /\ requests w = [mkURL "http" "10.0.0.3:8080" "/localnodes" "rack=fakeRack";
                     mkURL "http" "10.0.0.2:8080" "/localnodes" ""]
    /\ URL_Host (mkURL "http" "10.0.0.3:8080" "/localnodes" "rack=fakeRack")
       <> URL_Host (mkURL "http" "10.0.0.2:8080" "/localnodes" "").
Proof.
  eexists. split_and!.
  - vm_compute. reflexivity.
  - reflexivity.
  - discriminate.
Qed.

(** C7 as written fails when the discovery call fails: the error returned
    is not the error of the call but a new one that quotes it. *)
Lemma rack_check_error_is_wrapped :
  NewAlternatorLiveNodes (R := Sim.down) Sim.three_hosts [WithALNDatacenter "datacenter1"]
  = Ok (Sim.directory (WithALNDatacenter "datacenter1" NewDefaultALNConfig))
  /\ exists endpoint w,
       getNodes (R := Sim.down) endpoint
         (advanced (fresh (Sim.directory (WithALNDatacenter "datacenter1"
                                            NewDefaultALNConfig))))
       = Returns ([], Some Sim.refused) w
       /\ CheckIfRackAndDatacenterSetCorrectly (R := Sim.down)
            (fresh (Sim.directory (WithALNDatacenter "datacenter1" NewDefaultALNConfig)))
          = Returns (Some (fmt_Errorf_v "failed to read list of nodes: " Sim.refused)) w
       /\ requests w = [endpoint]
       /\ fmt_Errorf_v "failed to read list of nodes: " Sim.refused <> Sim.refused.
Proof.
  split; [vm_compute; reflexivity|].
  exists (mkURL "http" "10.0.0.2:8080" "/localnodes" "dc=datacenter1").
  eexists. split_and!.
  - vm_compute. reflexivity.
  - vm_compute. reflexivity.
  - reflexivity.
  - discriminate.
Qed.

End Simulation.

(** * Further properties of the directory *)

Section Reachability.

Context {R : Runtime}.

Lemma history_app (acts1 acts2 : list Action) (w : World) :
  history (acts1 ++ acts2) w = bind (history acts1) (fun _ => history acts2) w.
Proof.
  revert w. induction acts1 as [|act acts1 IH]; intros w; cbn [app history].
  - reflexivity.
  - unfold bind. destruct (perform act w) as [[] w1|]; [|done]. apply IH.
Qed.

Lemma reachable_sound (w : World) : reachable w -> sound w /\ accounted w.
Proof.
  intros (initial & options & a & acts & Ha & Hw).
  destruct (reached initial options a acts Ha) as (w' & Hw' & Hs & Hacc & _).
  rewrite Hw in Hw'. injection Hw' as <-. done.
Qed.

Lemma reachable_fresh (initial : list string) (options : list ALNOption)
    (a : AlternatorLiveNodes) :
  NewAlternatorLiveNodes initial options = Ok a -> reachable (fresh a).
Proof. intros Ha. by exists initial, options, a, []. Qed.

(** A history that starts in a reachable world runs to its end, in a
    reachable world. *)
Lemma reachable_history (acts : list Action) (w : World) :
  reachable w ->
  exists w', history acts w = Returns tt w' /\ reachable w'
             /\ evolved (existsb starts_updater acts) w w'.
Proof.
  intros Hr. destruct (reachable_sound w Hr) as [Hs Ha].
  destruct (history_evolved acts w Hs Ha) as (w' & Hw' & He).
  exists w'. split_and!; try done.
  destruct Hr as (initial & options & a & acts0 & Hnew & Hw).
  exists initial, options, a, (acts0 ++ acts). split; [done|].
  rewrite history_app. unfold bind. by rewrite Hw.
Qed.

Lemma reachable_live (w : World) :
  reachable w ->
  exists live, liveNodes (aln w) = Some live /\ live <> [] /\ candidates w = live.
Proof.
  intros [((live & Hl & Hne) & _) _]%reachable_sound.
  exists live. split_and!; try done.
  unfold candidates. rewrite Hl. by apply selected_live.
Qed.

End Reachability.

Section Selecting.

Context {R : Runtime}.

(** [NextNode] works offline. In any reachable world it returns the node
    the round robin is at without sending a request: the request log and
    the snapshot are as before, and the cursor has moved by one. *)
Theorem NextNode_sends_nothing (now : Z) (w : World) :
  reachable w ->
  exists w',
    NextNode now w = Returns (nth_choice w 1) w'
    /\ requests w' = requests w
    /\ liveNodes (aln w') = liveNodes (aln w)
    /\ nextLiveNodeIdx (aln w') = Go.to_uint64 (nextLiveNodeIdx (aln w) + 1).
Proof.
  intros [Hs _]%reachable_sound.
  eexists. split; [rewrite <- target_nth_choice; by apply NextNode_returns|].
  repeat case_decide; destruct (idleUpdaterStarted (aln w)); done.
Qed.

(** The bootstrap fallback of [nextNode] is never taken in a constructed
    directory: in any reachable world the snapshot is not empty, so the
    node returned is an entry of the snapshot. *)
Theorem fallback_never_taken (w : World) :
  reachable w ->
  exists live u w',
    liveNodes (aln w) = Some live
    /\ selected live (initialNodes (aln w)) = live
    /\ nextNode w = Returns u w'
    /\ u ∈ live.
Proof.
  intros Hr. destruct (reachable_live w Hr) as (live & Hl & Hne & Hc).
  destruct (reachable_sound w Hr) as [Hs _].
  destruct (nextNode_returns w) as (u & Hu & Hn);
    [by apply sound_pointer|by apply sound_candidates|].
  exists live, u, (advanced w). split_and!; try done.
  - by apply selected_live.
  - rewrite Hc in Hu. by eapply list_elem_of_lookup_2.
Qed.

(** Nothing changes the configuration or the bootstrap list: after any
    history they are the ones construction stored, the configuration being
    the defaults with the options applied in order. *)
Theorem configuration_is_immutable (initial : list string) (options : list ALNOption)
    (a : AlternatorLiveNodes) (acts : list Action) (w : World) :
  NewAlternatorLiveNodes initial options = Ok a ->
  history acts (fresh a) = Returns tt w ->
  cfg (aln w) = apply_options options NewDefaultALNConfig
  /\ initialNodes (aln w) = initialNodes a
  /\ Forall2 (fun host u => url_Parse (node_uri (cfg (aln w)) host) = Ok u)
             initial (initialNodes (aln w)).
Proof.
  intros Ha Hw.
  destruct (reached initial options a acts Ha) as (w' & Hw' & _ & _ & Hc & Hi & _).
  rewrite Hw in Hw'. injection Hw' as <-.
  apply NewAlternatorLiveNodes_Ok in Ha as (_ & Hp & Heq).
  assert (cfg a = apply_options options NewDefaultALNConfig) as Hcfg by (by rewrite Heq).
  cbn in Hc, Hi. rewrite Hc, Hi, Hcfg. split_and!; try done.
  by apply parse_initial_Ok.
Qed.

(** The round robin starts at the second node: the cursor is incremented
    before it is used, so the first selection after construction returns
    the bootstrap node at position [1 mod len], the only node when there is
    one and the second otherwise. *)
Theorem first_selection (initial : list string) (options : list ALNOption)
    (a : AlternatorLiveNodes) (now : Z) :
  NewAlternatorLiveNodes initial options = Ok a ->
  exists u w',
    NextNode now (fresh a) = Returns u w'
    /\ initialNodes a !! (1 `mod` length (initialNodes a))%nat = Some u
    /\ (forall first second rest, initialNodes a = first :: second :: rest -> u = second).
Proof.
  intros Ha. pose proof (reachable_fresh _ _ _ Ha) as Hr.
  destruct (reachable_sound _ Hr) as [Hs _].
  pose proof (initialNodes_nonempty _ _ _ Ha) as Hne.
  apply NewAlternatorLiveNodes_Ok in Ha as (_ & _ & Heq).
  assert (candidates (fresh a) = initialNodes a) as Hc.
  { rewrite Heq. unfold candidates. cbn. by apply selected_live. }
  assert (next_index (fresh a) = Z.of_nat (1 `mod` length (initialNodes a))) as Hi.
  { unfold next_index, next_cursor. rewrite Hc. rewrite Heq at 1. cbn.
    unfold Go.len. rewrite Nat2Z.inj_mod. reflexivity. }
  pose proof (target_lookup (fresh a) (sound_candidates _ Hs)) as Ht.
  rewrite Hi, Nat2Z.id, Hc in Ht.
  eexists _, _. split; [by apply NextNode_returns|]. split; [exact Ht|].
  intros first second rest Hl. rewrite Hl in Ht.
  rewrite Nat.mod_small in Ht by (cbn; lia). cbn in Ht. congruence.
Qed.

(** Construction stops at the first host whose URI does not parse and
    returns that host's parse error behind the prefix "invalid node URI: ",
    whatever follows in the list. *)
Theorem construction_reports_first_bad_host (good : list string) (bad : string)
    (rest : list string) (options : list ALNOption) (e : error) :
  let c := apply_options options NewDefaultALNConfig in
  Forall (fun host => exists u, url_Parse (node_uri c host) = Ok u) good ->
  url_Parse (node_uri c bad) = Err e ->
  NewAlternatorLiveNodes (good ++ bad :: rest) options
  = Err (fmt_Errorf_v "invalid node URI: " e).
Proof.
  cbv zeta. intros Hgood Hbad. unfold NewAlternatorLiveNodes.
  rewrite decide_False by (rewrite len_zero; by destruct good).
  enough (parse_initial (apply_options options NewDefaultALNConfig) (good ++ bad :: rest)
          = Err (fmt_Errorf_v "invalid node URI: " e)) as -> by done.
  induction Hgood as [|host good [u Hu] Hgood IH]; cbn.
  - by rewrite Hbad.
  - by rewrite Hu, IH.
Qed.

End Selecting.

Section Refreshing.

Context {R : Runtime}.

(** What [UpdateLiveNodes] leaves alone, and what it always does. *)
Lemma refreshed_fields (w : World) :
  requests (refreshed w) = requests w ++ [localnodes_endpoint w]
  /\ nextLiveNodeIdx (aln (refreshed w)) = next_cursor w
  /\ nextUpdate (aln (refreshed w)) = nextUpdate (aln w)
  /\ updateSignal (aln (refreshed w)) = updateSignal (aln w)
  /\ ctxDone (aln (refreshed w)) = ctxDone (aln w)
  /\ idleUpdaters (refreshed w) = idleUpdaters w.
Proof.
  unfold refreshed. destruct (refresh_outcome w) as [newNodes [e|]]; [done|].
  by case_decide.
Qed.

(** The working branches of the idle updater in closed form. *)
Lemma idleUpdater_refresh_returns (now : Z) (w : World) :
  sound w ->
  idleUpdater_refresh now w
  = Returns tt (refreshed (set_aln (store_nextUpdate (deadline_from now w)) w)).
Proof.
  intros Hs. unfold idleUpdater_refresh. run.
  set (w1 := mkWorld _ _ _ _).
  assert (sound w1) as Hs1 by (by apply (calm_store_nextUpdate _ w)).
  unfold bind. rewrite (UpdateLiveNodes_returns w1);
    [done|by apply sound_pointer|by apply sound_candidates].
Qed.

Lemma localnodes_endpoint_fields (w : World) :
  let endpoint := localnodes_endpoint w in
  let query := localnodes_query (cfg (aln w)) in
  URL_Scheme endpoint = URL_Scheme (target w)
  /\ URL_Host endpoint = URL_Host (target w)
  /\ URL_Path endpoint = "/localnodes"
  /\ URL_RawQuery endpoint = (if decide (query = "") then URL_RawQuery (target w) else query).
Proof.
  cbv zeta. unfold localnodes_endpoint, rewritten. cbv zeta.
  destruct (decide (localnodes_query (cfg (aln w)) = "")) as [Hq|Hq].
  - rewrite decide_False by (intros Hn; by apply Hn). done.
  - rewrite decide_True by done. done.
Qed.

(** The discovery call of [UpdateLiveNodes] is load-balanced like any
    request: it goes to the node the round robin is at, with that node's
    scheme and host, the path [/localnodes] and the rack and datacenter of
    the configuration as its query, and it takes one turn of the round
    robin. Exactly one request is sent; the deadline, the buffered signal
    and the idle updater are left alone. *)
Theorem refresh_is_load_balanced (w : World) :
  reachable w ->
  exists err w' endpoint,
    UpdateLiveNodes w = Returns err w'
    /\ requests w' = requests w ++ [endpoint]
    /\ URL_Scheme endpoint = URL_Scheme (nth_choice w 1)
    /\ URL_Host endpoint = URL_Host (nth_choice w 1)
    /\ URL_Path endpoint = "/localnodes"
    /\ (~ (Rack (cfg (aln w)) = "" /\ Datacenter (cfg (aln w)) = "") ->
        URL_RawQuery endpoint = localnodes_query (cfg (aln w)))
    /\ nextLiveNodeIdx (aln w') = Go.to_uint64 (nextLiveNodeIdx (aln w) + 1)
    /\ nextUpdate (aln w') = nextUpdate (aln w)
    /\ updateSignal (aln w') = updateSignal (aln w)
    /\ idleUpdaters w' = idleUpdaters w.
Proof.
  intros [Hs _]%reachable_sound.
  pose proof (refreshed_fields w) as (Hrq & Hc & Hd & Hsig & _ & Hn).
  pose proof (localnodes_endpoint_fields w) as (Hsch & Hh & Hp & Hq). cbv zeta in Hq.
  exists (refresh_outcome w).2, (refreshed w), (localnodes_endpoint w).
  rewrite <- target_nth_choice. split_and!; try done.
  - apply UpdateLiveNodes_returns; [by apply sound_pointer|by apply sound_candidates].
  - intros Hcfg. rewrite Hq. rewrite decide_False; [done|].
    by apply localnodes_query_nonempty.
Qed.

(** [UpdateLiveNodes] hands the error of its discovery call to the caller
    unchanged, and a failed refresh leaves the directory as a selection and
    a request leave it: the snapshot is the one from before. *)
Theorem refresh_error_is_returned_as_is (w : World) (nodes : list URL) (e : error)
    (w1 : World) :
  reachable w ->
  getNodes (localnodes_endpoint w) (advanced w) = Returns (nodes, Some e) w1 ->
  UpdateLiveNodes w = Returns (Some e) w1
  /\ w1 = sent (localnodes_endpoint w) (advanced w)
  /\ liveNodes (aln w1) = liveNodes (aln w).
Proof.
  intros [Hs _]%reachable_sound Hg. rewrite getNodes_returns in Hg.
  injection Hg as Hd <-.
  rewrite (UpdateLiveNodes_returns w);
    [|by apply sound_pointer|by apply sound_candidates].
  unfold refreshed, refresh_outcome. rewrite Hd. done.
Qed.

(** After a refresh that discovered a non-empty list, selection returns
    nodes of that list only, however many selections follow: no address of
    the previous snapshot or of the bootstrap list is returned unless the
    new list holds it. *)
Theorem no_stale_address_after_refresh (w : World) (newNodes : list URL) (w1 : World)
    (n : nat) :
  reachable w ->
  getNodes (localnodes_endpoint w) (advanced w) = Returns (newNodes, None) w1 ->
  newNodes <> [] ->
  exists w' us w'',
    UpdateLiveNodes w = Returns None w'
    /\ liveNodes (aln w') = Some newNodes
    /\ nextNode_times n w' = Returns us w''
    /\ Forall (fun u => u ∈ newNodes) us.
Proof.
  intros [Hs _]%reachable_sound Hg Hne. rewrite getNodes_returns in Hg.
  injection Hg as Hd _.
  assert (refreshed w
          = set_aln (store_liveNodes newNodes) (sent (localnodes_endpoint w) (advanced w)))
    as Hw'.
  { unfold refreshed, refresh_outcome. rewrite Hd. by rewrite decide_False. }
  assert (candidates (refreshed w) = newNodes) as Hc.
  { rewrite Hw'. unfold candidates. cbn. by apply selected_live. }
  eexists (refreshed w), _, _. split_and!.
  - rewrite (UpdateLiveNodes_returns w);
      [|by apply sound_pointer|by apply sound_candidates].
    unfold refresh_outcome. by rewrite Hd.
  - by rewrite Hw'.
  - apply nextNode_times_returns.
    + by rewrite Hw'.
    + by rewrite Hc.
    + rewrite Hw'. cbn. apply to_uint64_range.
  - apply Forall_fmap, Forall_forall. intros j _. cbn.
    unfold nth_choice. rewrite Hc. apply list_elem_of_lookup_total_2.
    pose proof (Z.mod_pos_bound
                  (Go.to_uint64 (nextLiveNodeIdx (aln (refreshed w)) + Z.of_nat j))
                  (Go.len newNodes) (len_pos _ Hne)) as Hb.
    unfold Go.len in *. lia.
Qed.

(** The two checks never publish what they discover: after either of them
    the snapshot, the deadline and the buffered signal are as before,
    whatever the cluster answered. *)
Theorem checks_do_not_publish (w : World) :
  reachable w ->
  (exists result w',
     CheckIfRackAndDatacenterSetCorrectly w = Returns result w'
     /\ liveNodes (aln w') = liveNodes (aln w)
     /\ nextUpdate (aln w') = nextUpdate (aln w)
     /\ updateSignal (aln w') = updateSignal (aln w))
  /\ (exists result w',
        CheckIfRackDatacenterFeatureIsSupported w = Returns result w'
        /\ liveNodes (aln w') = liveNodes (aln w)
        /\ nextUpdate (aln w') = nextUpdate (aln w)
        /\ updateSignal (aln w') = updateSignal (aln w)).
Proof.
  intros [Hs _]%reachable_sound.
  pose proof (sound_pointer w Hs) as Hp. pose proof (sound_candidates w Hs) as Hc.
  split.
  - rewrite (CheckIfRackAndDatacenterSetCorrectly_returns w Hp Hc).
    case_decide; eexists _, _; (split; [reflexivity|done]).
  - rewrite (CheckIfRackDatacenterFeatureIsSupported_returns w Hp Hc). cbv zeta.
    destruct (discovered _ (advanced (advanced w))) as [fake [e|]].
    { eexists _, _. split; [reflexivity|done]. }
    destruct (discovered _ (sent _ _)) as [base [e|]].
    { eexists _, _. split; [reflexivity|done]. }
    eexists _, _. split; [reflexivity|done].
Qed.

End Refreshing.

Section Quiet.

Context {R : Runtime}.

(** [startIdleUpdater] does nothing where no updater can be launched. *)
Lemma startIdleUpdater_off (w : World) :
  updater_off w ->
  (if decide (IdleUpdatePeriod (cfg (aln w)) <= 0) then w
   else if idleUpdaterStarted (aln w) then w else launched w) = w.
Proof.
  intros [_ [Hf|Hp]].
  - case_decide; [done|]. by rewrite Hf.
  - by rewrite decide_True.
Qed.

(** With no idle updater in its loop and none to be launched, an automatic
    action sends nothing, keeps the snapshot and takes no buffered signal. *)
Lemma quiet_step (act : Action) (w : World) :
  sound w -> updater_off w -> automatic act = true ->
  exists w',
    perform act w = Returns tt w'
    /\ sound w' /\ updater_off w'
    /\ requests w' = requests w
    /\ liveNodes (aln w') = liveNodes (aln w)
    /\ cfg (aln w') = cfg (aln w)
    /\ (updateSignal (aln w) = true -> updateSignal (aln w') = true)
    /\ (ctxDone (aln w) = true -> ctxDone (aln w') = true)
    /\ idleUpdaters w' = idleUpdaters w.
Proof.
  intros Hs Hoff Hauto.
  assert (bool_decide (idleReturned w < idleUpdaters w)%nat = false) as Hrun.
  { apply bool_decide_eq_false_2. destruct Hoff as [Hle _]. lia. }
  pose proof (startIdleUpdater_off w Hoff) as Hstart.
  destruct act as [| |now| | | |now|now|]; try discriminate; cbn [perform].
  - unfold Start. rewrite startIdleUpdater_returns, Hstart. eexists. by split_and!.
  - unfold Stop. run. eexists. split; [done|]. by split_and!.
  - unfold bind. rewrite (NextNode_returns now w Hs). cbv zeta. rewrite Hstart. run.
    set (w2 := if decide (UpdatePeriod _ <= 0) then _ else _).
    assert (sound w2 /\ updater_off w2 /\ cfg (aln w2) = cfg (aln w)
            /\ requests w2 = requests w /\ liveNodes (aln w2) = liveNodes (aln w)
            /\ (updateSignal (aln w) = true -> updateSignal (aln w2) = true)
            /\ ctxDone (aln w2) = ctxDone (aln w)
            /\ idleUpdaters w2 = idleUpdaters w)
      as (Hs2 & Hoff2 & Hc2 & Hr2 & Hl2 & Hg2 & Hd2 & Hn2).
    { subst w2. repeat case_decide; done. }
    eexists. split; [done|]. split_and!.
    + by apply (calm_advanced w2).
    + exact Hoff2.
    + cbn. congruence.
    + cbn. congruence.
    + cbn. congruence.
    + cbn. exact Hg2.
    + cbn. congruence.
    + cbn. congruence.
  - run. rewrite Hrun. run. eexists. by split_and!.
  - run. rewrite Hrun. cbn [andb]. run. eexists. by split_and!.
  - run. rewrite Hrun. cbn [andb]. run. eexists. by split_and!.
Qed.

Lemma quiet_history (acts : list Action) (w : World) :
  sound w -> updater_off w -> forallb automatic acts = true ->
  exists w',
    history acts w = Returns tt w'
    /\ sound w' /\ updater_off w'
    /\ requests w' = requests w
    /\ liveNodes (aln w') = liveNodes (aln w)
    /\ cfg (aln w') = cfg (aln w)
    /\ (updateSignal (aln w) = true -> updateSignal (aln w') = true)
    /\ (ctxDone (aln w) = true -> ctxDone (aln w') = true)
    /\ idleUpdaters w' = idleUpdaters w.
Proof.
  revert w. induction acts as [|act acts IH]; intros w Hs Hoff Hall; cbn [history].
  - exists w. by split_and!.
  - cbn in Hall. apply andb_true_iff in Hall as [Hact Hall].
    destruct (quiet_step act w Hs Hoff Hact)
      as (w1 & H1 & Hs1 & Hoff1 & Hr1 & Hl1 & Hc1 & Hg1 & Hd1 & Hn1).
    destruct (IH w1 Hs1 Hoff1 Hall)
      as (w2 & H2 & Hs2 & Hoff2 & Hr2 & Hl2 & Hc2 & Hg2 & Hd2 & Hn2).
    exists w2. unfold bind. rewrite H1. split_and!; try done; try congruence; auto.
Qed.

(** [Stop] ends automatic discovery once the idle updater has noticed it.
    Where an updater was launched (or the idle period disables it), take
    any history that begins with [Stop]; the updater may still refresh in
    it, since its [select] gives [ctx.Done()] no priority. Once the updater
    has taken its [ctx.Done()] branch, whatever calls of [Start], [Stop] and
    [NextNode] follow, no request is sent and the snapshot stays as it is:
    the updater that returned is not launched again. *)
Theorem Stop_ends_automatic_discovery (before acts : list Action) (w : World) :
  reachable w ->
  (0 < idleUpdaters w)%nat \/ IdleUpdatePeriod (cfg (aln w)) <= 0 ->
  forallb automatic acts = true ->
  exists w1 w',
    history (DoStop :: before) w = Returns tt w1
    /\ history (IdleDone :: acts) w1 = Returns tt w'
    /\ ctxDone (aln w') = true
    /\ requests w' = requests w1
    /\ liveNodes (aln w') = liveNodes (aln w1).
Proof.
  intros [Hs Ha]%reachable_sound Hlaunched Hall.
  set (w0 := set_aln (store_ctxDone true) w).
  assert (perform DoStop w = Returns tt w0) as H0 by (cbn [perform]; unfold Stop; by run).
  destruct (perform_evolved DoStop w Hs Ha) as (w0' & H0' & Hs0 & Ha0 & _).
  rewrite H0 in H0'. injection H0' as <-.
  destruct (history_evolved before w0 Hs0 Ha0) as (w1 & H1 & Hs1 & Ha1 & Hc1 & _ & Hf1 & Hd1).
  assert (ctxDone (aln w1) = true) as Hdone1 by (by apply Hd1).
  assert (idleUpdaterStarted (aln w1) = true \/ IdleUpdatePeriod (cfg (aln w1)) <= 0)
    as Hlaunched1.
  { destruct Hlaunched as [Hpos|Hp].
    - left. rewrite Hf1. destruct Ha as (Hn & _).
      change (idleUpdaterStarted (aln w0)) with (idleUpdaterStarted (aln w)).
      destruct (idleUpdaterStarted (aln w)); [done|lia].
    - right. by rewrite Hc1. }
  assert (exists w2, perform IdleDone w1 = Returns tt w2
          /\ sound w2 /\ updater_off w2 /\ ctxDone (aln w2) = true
          /\ requests w2 = requests w1 /\ liveNodes (aln w2) = liveNodes (aln w1))
    as (w2 & H2 & Hs2 & Hoff2 & Hd2 & Hr2 & Hl2).
  { destruct Ha1 as (Hn & Hz & Hle & _).
    cbn [perform]. run. rewrite Hdone1, andb_true_r.
    destruct (bool_decide (idleReturned w1 < idleUpdaters w1)%nat) eqn:Hrun;
      run; (eexists; split; [done|]).
    - apply bool_decide_eq_true in Hrun. unfold updater_off. cbn. split_and!; try done.
      destruct (idleUpdaterStarted (aln w1)); lia.
    - apply bool_decide_eq_false in Hrun. unfold updater_off. split_and!; try done. lia. }
  destruct (quiet_history acts w2 Hs2 Hoff2 Hall)
    as (w' & Hw' & _ & _ & Hr & Hl & _ & _ & Hd & _).
  exists w1, w'. split_and!.
  - cbn [history]. unfold bind. by rewrite H0.
  - cbn [history]. unfold bind. by rewrite H2.
  - by apply Hd.
  - congruence.
  - congruence.
Qed.

(** An idle period [<= 0] disables every automatic refresh, the active one
    included: the signal that [NextNode] buffers is only ever taken by the
    idle updater, which is then never launched. In any history of [Start],
    [Stop] and [NextNode] calls, with the timer and the signal free to fire,
    no request is sent and the snapshot stays the bootstrap list, while a
    first [NextNode] at a positive clock with a positive update period does
    leave its signal buffered. *)
Theorem idle_period_off_disables_active_refresh (initial : list string)
    (options : list ALNOption) (a : AlternatorLiveNodes) (acts : list Action) :
  NewAlternatorLiveNodes initial options = Ok a ->
  IdleUpdatePeriod (cfg a) <= 0 ->
  forallb automatic acts = true ->
  exists w,
    history acts (fresh a) = Returns tt w
    /\ requests w = []
    /\ idleUpdaters w = 0%nat
    /\ liveNodes (aln w) = Some (initialNodes a)
    /\ (forall now rest, acts = DoNextNode now :: rest ->
        0 < UpdatePeriod (cfg a) -> 0 < now ->
        updateSignal (aln w) = true).
Proof.
  intros Ha Hz Hall.
  destruct (fresh_sound _ _ _ Ha) as [Hs _].
  assert (updater_off (fresh a)) as Hoff by (split; [done|by right]).
  apply NewAlternatorLiveNodes_Ok in Ha as (_ & _ & Heq).
  destruct (quiet_history acts (fresh a) Hs Hoff Hall)
    as (w & Hw & _ & Hoff' & Hr & Hl & Hc & _ & _ & Hn).
  exists w. split_and!; try done.
  - rewrite Hl, Heq. done.
  - intros now rest -> Hp Hnow. cbn in Hall.
    cbn [history] in Hw. unfold bind in Hw.
    destruct (quiet_step (DoNextNode now) (fresh a) Hs Hoff eq_refl)
      as (w1 & H1 & Hs1 & Hoff1 & _).
    rewrite H1 in Hw.
    destruct (quiet_history rest w1 Hs1 Hoff1 Hall) as (w2 & H2 & _ & _ & _ & _ & _ & Hg & _).
    rewrite H2 in Hw. injection Hw as <-. apply Hg.
    assert (nextUpdate (aln (fresh a)) = 0) as Hd0 by (by rewrite Heq).
    cbn [perform] in H1. unfold bind in H1. rewrite (NextNode_returns now _ Hs) in H1.
    cbv zeta in H1.
    rewrite (decide_True (P := IdleUpdatePeriod (cfg (aln (fresh a))) <= 0)) in H1 by done.
    rewrite (decide_False (P := UpdatePeriod (cfg (aln (fresh a))) <= 0)) in H1
      by (cbn; lia).
    rewrite (decide_True (P := nextUpdate (aln (fresh a)) < now)) in H1
      by (by rewrite Hd0).
    injection H1 as <-. done.
Qed.

End Quiet.

Section Deadlines.

Context {R : Runtime}.

(** What [NextNode] does to the world, field by field. *)
Lemma NextNode_fields (now : Z) (w : World) :
  sound w -> accounted w ->
  exists w',
    perform (DoNextNode now) w = Returns tt w'
    /\ sound w' /\ accounted w'
    /\ requests w' = requests w
    /\ (now <= nextUpdate (aln w) ->
        nextUpdate (aln w') = nextUpdate (aln w)
        /\ updateSignal (aln w') = updateSignal (aln w)).
Proof.
  intros Hs Ha.
  destruct (perform_evolved (DoNextNode now) w Hs Ha) as (w' & Hw' & Hs' & Ha' & _).
  exists w'. split_and!; try done.
  - cbn [perform] in Hw'. unfold bind in Hw'. rewrite (NextNode_returns now w Hs) in Hw'.
    cbv zeta in Hw'. injection Hw' as <-.
    repeat case_decide; destruct (idleUpdaterStarted (aln w)); done.
  - intros Hd.
    cbn [perform] in Hw'. unfold bind in Hw'. rewrite (NextNode_returns now w Hs) in Hw'.
    cbv zeta in Hw'. injection Hw' as <-.
    repeat case_decide; destruct (idleUpdaterStarted (aln w)); cbn in *; try done; lia.
Qed.

Lemma NextNode_history_fields (ts : list Z) (w : World) :
  sound w -> accounted w ->
  exists w',
    history (DoNextNode <$> ts) w = Returns tt w'
    /\ sound w' /\ accounted w'
    /\ requests w' = requests w
    /\ (Forall (fun t => t <= nextUpdate (aln w)) ts ->
        nextUpdate (aln w') = nextUpdate (aln w)
        /\ updateSignal (aln w') = updateSignal (aln w)).
Proof.
  revert w. induction ts as [|t ts IH]; intros w Hs Ha; cbn [fmap list_fmap history].
  - exists w. by split_and!.
  - destruct (NextNode_fields t w Hs Ha) as (w1 & H1 & Hs1 & Ha1 & Hr1 & Hd1).
    destruct (IH w1 Hs1 Ha1) as (w2 & H2 & Hs2 & Ha2 & Hr2 & Hd2).
    exists w2. unfold bind. rewrite H1. split_and!; try done; try congruence.
    intros Hall. apply Forall_cons in Hall as [Ht Hall].
    destruct (Hd1 Ht) as [Hn1 Hg1].
    destruct Hd2 as [Hn2 Hg2]; [by rewrite Hn1|]. split; congruence.
Qed.

(** The active refresh is rate-limited by the deadline: however many
    [NextNode] calls are made at clock readings that are not past the
    stored deadline, the deadline stays, no signal is added to the buffer
    (one that the updater has taken is not put back), and no request is
    sent. *)
Theorem NextNode_waits_for_deadline (ts : list Z) (w : World) :
  reachable w ->
  Forall (fun t => t <= nextUpdate (aln w)) ts ->
  exists w',
    history (DoNextNode <$> ts) w = Returns tt w'
    /\ nextUpdate (aln w') = nextUpdate (aln w)
    /\ updateSignal (aln w') = updateSignal (aln w)
    /\ requests w' = requests w.
Proof.
  intros [Hs Ha]%reachable_sound Hall.
  destruct (NextNode_history_fields ts w Hs Ha) as (w' & Hw' & _ & _ & Hr & Hd).
  destruct (Hd Hall) as [Hn Hg]. exists w'. by split_and!.
Qed.

(** A second run of the updater's signal branch finds nothing to do. *)
Lemma IdleSignal_twice (t1 t2 : Z) (w : World) :
  sound w ->
  exists w',
    perform (IdleSignal t1) w = Returns tt w'
    /\ perform (IdleSignal t2) w' = Returns tt w'
    /\ (length (requests w') <= length (requests w) + 1)%nat.
Proof.
  intros Hs. cbn [perform]. run.
  destruct (bool_decide (idleReturned w < idleUpdaters w)%nat
            && updateSignal (aln w)) eqn:Hrun.
  - run. set (w1 := mkWorld _ _ _ _).
    assert (sound w1) as Hs1 by (by apply (calm_store_updateSignal false w)).
    change (idleUpdater_refresh t1 w1) with (idleUpdater_refresh t1 w1).
    rewrite (idleUpdater_refresh_returns t1 w1 Hs1).
    set (w2 := set_aln _ w1).
    pose proof (refreshed_fields w2) as (Hr & _ & _ & Hg & _ & _).
    eexists. split; [done|]. run. rewrite Hg. cbn [updateSignal aln w2 w1 set_aln
      store_nextUpdate store_updateSignal]. rewrite andb_false_r. run.
    split; [done|]. rewrite Hr, length_app. cbn. lia.
  - run. exists w. rewrite Hrun. run. split_and!; try done. lia.
Qed.

(** Signals are coalesced: the buffer holds one signal, so after any
    number of [NextNode] calls the updater's signal branch refreshes once
    at most. A second run of the branch changes nothing, and at most one
    request has been sent. *)
Theorem signals_are_coalesced (ts : list Z) (t1 t2 : Z) (w : World) :
  reachable w ->
  exists w',
    history ((DoNextNode <$> ts) ++ [IdleSignal t1]) w = Returns tt w'
    /\ history ((DoNextNode <$> ts) ++ [IdleSignal t1; IdleSignal t2]) w = Returns tt w'
    /\ (length (requests w') <= length (requests w) + 1)%nat.
Proof.
  intros [Hs Ha]%reachable_sound.
  destruct (NextNode_history_fields ts w Hs Ha) as (w1 & H1 & Hs1 & _ & Hr1 & _).
  destruct (IdleSignal_twice t1 t2 w1 Hs1) as (w' & Hfirst & Hsecond & Hlen).
  exists w'. rewrite !history_app. unfold bind. rewrite H1. cbn [history]. unfold bind.
  rewrite Hfirst, Hsecond. run. split_and!; try done. by rewrite <- Hr1.
Qed.

(** A refresh by the idle updater, on the timer or on a signal, first sets
    the active deadline to the clock plus the update period in whole
    seconds and then sends one discovery request to the node the round
    robin is at. The deadline is set whatever the outcome of the request,
    so until it has passed the active trigger does nothing. *)
Theorem idle_refresh_resets_deadline (now : Z) (w : World) :
  reachable w ->
  (0 < idleUpdaters w)%nat ->
  ctxDone (aln w) = false ->
  let deadline := Go.add_int64 now (Duration_Seconds (UpdatePeriod (cfg (aln w)))) in
  (exists w',
     perform (IdleTick now) w = Returns tt w'
     /\ nextUpdate (aln w') = deadline
     /\ requests w' = requests w ++ [localnodes_endpoint w]
     /\ forall t, t <= deadline -> triggerUpdate t w' = Returns tt w')
  /\ (updateSignal (aln w) = true ->
      exists w',
        perform (IdleSignal now) w = Returns tt w'
        /\ nextUpdate (aln w') = deadline
        /\ updateSignal (aln w') = false
        /\ requests w' = requests w ++ [localnodes_endpoint w]
        /\ forall t, t <= deadline -> triggerUpdate t w' = Returns tt w').
Proof.
  intros [Hs Ha]%reachable_sound Hn Hd. cbv zeta.
  assert (bool_decide (idleReturned w < idleUpdaters w)%nat = true) as Hrun.
  { destruct Ha as (_ & _ & _ & Hret). apply bool_decide_eq_true_2.
    rewrite (Hret Hd). done. }
  assert (forall w1, sound w1 -> cfg (aln w1) = cfg (aln w) ->
          exists w', idleUpdater_refresh now w1 = Returns tt w'
            /\ nextUpdate (aln w')
               = Go.add_int64 now (Duration_Seconds (UpdatePeriod (cfg (aln w))))
            /\ updateSignal (aln w') = updateSignal (aln w1)
            /\ requests w' = requests w1 ++ [localnodes_endpoint w1]
            /\ forall t,
                 t <= Go.add_int64 now (Duration_Seconds (UpdatePeriod (cfg (aln w)))) ->
                 triggerUpdate t w' = Returns tt w') as Hrefresh.
  { intros w1 Hs1 Hc1. rewrite (idleUpdater_refresh_returns now w1 Hs1).
    set (w2 := set_aln _ w1).
    pose proof (refreshed_fields w2) as (Hr & _ & Hdl & Hg & _ & _).
    eexists. split; [done|]. split_and!.
    - rewrite Hdl. unfold w2, deadline_from. cbn. by rewrite Hc1.
    - by rewrite Hg.
    - by rewrite Hr.
    - intros t Ht. rewrite triggerUpdate_returns.
      destruct (decide (UpdatePeriod (cfg (aln (refreshed w2))) <= 0)); [done|].
      rewrite decide_False; [done|].
      rewrite Hdl. unfold w2, deadline_from. cbn. rewrite Hc1. lia. }
  split.
  - cbn [perform]. run. rewrite Hrun.
    destruct (Hrefresh w Hs eq_refl) as (w' & Hw' & Hdl & _ & Hr & Ht).
    exists w'. by split_and!.
  - intros Hg. cbn [perform]. run. rewrite Hrun, Hg. cbn [andb]. run.
    set (w1 := mkWorld _ _ _ _).
    assert (sound w1) as Hs1 by (by apply (calm_store_updateSignal false w)).
    destruct (Hrefresh w1 Hs1 eq_refl) as (w' & Hw' & Hdl & Hg' & Hr & Ht).
    exists w'. by split_and!.
Qed.

(** The path from traffic to discovery. On a fresh directory with positive
    update and idle periods, the first [NextNode] at a positive clock
    launches the idle updater, claims the deadline and buffers a signal
    without sending anything; the updater's signal branch then takes the
    signal, sets the deadline again from its own clock and sends the one
    discovery request. *)
Theorem first_NextNode_triggers_discovery (initial : list string)
    (options : list ALNOption) (a : AlternatorLiveNodes) (now now' : Z) :
  NewAlternatorLiveNodes initial options = Ok a ->
  0 < UpdatePeriod (cfg a) ->
  0 < IdleUpdatePeriod (cfg a) ->
  0 < now ->
  exists w1 w,
    perform (DoNextNode now) (fresh a) = Returns tt w1
    /\ idleUpdaters w1 = 1%nat
    /\ updateSignal (aln w1) = true
    /\ nextUpdate (aln w1) = Go.add_int64 now (Duration_Seconds (UpdatePeriod (cfg a)))
    /\ requests w1 = []
    /\ perform (IdleSignal now') w1 = Returns tt w
    /\ requests w = [localnodes_endpoint w1]
    /\ updateSignal (aln w) = false
    /\ nextUpdate (aln w) = Go.add_int64 now' (Duration_Seconds (UpdatePeriod (cfg a))).
Proof.
  intros Ha Hp Hi Hnow.
  destruct (fresh_sound _ _ _ Ha) as [Hs Hacc].
  apply NewAlternatorLiveNodes_Ok in Ha as (_ & _ & Heq).
  assert (nextUpdate (aln (fresh a)) = 0 /\ idleUpdaterStarted (aln (fresh a)) = false
          /\ ctxDone (aln (fresh a)) = false) as (Hd0 & Hf0 & Hc0) by (by rewrite Heq).
  destruct (perform_evolved (DoNextNode now) (fresh a) Hs Hacc) as (w1 & H1 & Hs1 & _).
  pose proof H1 as H1'.
  cbn [perform] in H1'. unfold bind in H1'. rewrite (NextNode_returns now _ Hs) in H1'.
  cbv zeta in H1'.
  rewrite (decide_False (P := IdleUpdatePeriod (cfg (aln (fresh a))) <= 0)) in H1'
    by (cbn; lia).
  rewrite Hf0 in H1'.
  rewrite (decide_False (P := UpdatePeriod (cfg (aln (launched (fresh a)))) <= 0)) in H1'
    by (cbn; lia).
  rewrite (decide_True (P := nextUpdate (aln (launched (fresh a))) < now)) in H1'
    by (change (nextUpdate (aln (fresh a)) < now); by rewrite Hd0).
  injection H1' as Hw1.
  assert (cfg (aln w1) = cfg a /\ ctxDone (aln w1) = false) as [Hcfg1 Hdone1]
    by (by rewrite <- Hw1).
  exists w1. cbn [perform]. run.
  assert (bool_decide (idleReturned w1 < idleUpdaters w1)%nat
          && updateSignal (aln w1) = true) as ->.
  { rewrite <- Hw1. reflexivity. }
  run. set (w2 := mkWorld _ _ _ _).
  assert (sound w2) as Hs2 by (by apply (calm_store_updateSignal false w1)).
  rewrite (idleUpdater_refresh_returns now' w2 Hs2).
  set (w3 := set_aln _ w2).
  pose proof (refreshed_fields w3) as (Hr & _ & Hdl & Hg & _ & _).
  exists (refreshed w3). split_and!.
  - exact H1.
  - by rewrite <- Hw1.
  - by rewrite <- Hw1.
  - by rewrite <- Hw1.
  - by rewrite <- Hw1.
  - reflexivity.
  - assert (requests w1 = []) as Hr1 by (by rewrite <- Hw1).
    rewrite Hr.
    change (requests w3 ++ [localnodes_endpoint w3])
      with (requests w1 ++ [localnodes_endpoint w1]).
    by rewrite Hr1.
  - by rewrite Hg.
  - rewrite Hdl. unfold w3, deadline_from. cbn. by rewrite Hcfg1.
Qed.

(** [Stop] before the first [NextNode] does not keep discovery from
    happening: [startIdleUpdater] does not look at the context, so on a
    fresh directory with positive periods a [NextNode] at a positive clock
    after [Stop] launches the updater and buffers a signal, and the
    [select] of the updater, which gives [ctx.Done()] no priority, may take
    the signal and send a discovery request with the context cancelled. *)
Theorem Stop_does_not_prevent_launch (initial : list string)
    (options : list ALNOption) (a : AlternatorLiveNodes) (now now' : Z) :
  NewAlternatorLiveNodes initial options = Ok a ->
  0 < UpdatePeriod (cfg a) ->
  0 < IdleUpdatePeriod (cfg a) ->
  0 < now ->
  exists w1 w,
    history [DoStop; DoNextNode now] (fresh a) = Returns tt w1
    /\ ctxDone (aln w1) = true
    /\ idleUpdaters w1 = 1%nat
    /\ updateSignal (aln w1) = true
    /\ requests w1 = []
    /\ perform (IdleSignal now') w1 = Returns tt w
    /\ requests w = [localnodes_endpoint w1]
    /\ ctxDone (aln w) = true.
Proof.
  intros Ha Hp Hi Hnow.
  destruct (fresh_sound _ _ _ Ha) as [Hs Hacc].
  apply NewAlternatorLiveNodes_Ok in Ha as (_ & _ & Heq).
  set (w0 := set_aln (store_ctxDone true) (fresh a)).
  assert (sound w0) as Hs0 by (by apply (calm_store_ctxDone (fresh a))).
  assert (nextUpdate (aln w0) = 0 /\ idleUpdaterStarted (aln w0) = false
          /\ cfg (aln w0) = cfg a) as (Hd0 & Hf0 & Hc0)
    by (subst w0; by rewrite Heq).
  set (w1 := advanced (claimed now (launched w0))).
  assert (history [DoStop; DoNextNode now] (fresh a) = Returns tt w1) as H1.
  { cbn [history perform]. unfold Stop. run. fold w0.
    unfold bind. rewrite (NextNode_returns now w0 Hs0). cbv zeta.
    rewrite (decide_False (P := IdleUpdatePeriod (cfg (aln w0)) <= 0))
      by (rewrite Hc0; lia).
    rewrite Hf0.
    rewrite (decide_False (P := UpdatePeriod (cfg (aln (launched w0))) <= 0))
      by (change (~ UpdatePeriod (cfg (aln w0)) <= 0); rewrite Hc0; lia).
    rewrite (decide_True (P := nextUpdate (aln (launched w0)) < now))
      by (change (nextUpdate (aln w0) < now); by rewrite Hd0).
    reflexivity. }
  assert (sound w1) as Hs1.
  { pose proof (calm_advanced (claimed now (launched w0))) as (_ & _ & _ & _ & Hadv & _).
    pose proof (calm_claimed now (launched w0)) as (_ & _ & _ & _ & Hcl & _).
    apply Hadv, Hcl. exact Hs0. }
  exists w1. cbn [perform]. run.
  change (bool_decide (idleReturned w1 < idleUpdaters w1)%nat && updateSignal (aln w1))
    with true.
  cbn match. run. set (w2 := mkWorld _ _ _ _).
  assert (sound w2) as Hs2 by (by apply (calm_store_updateSignal false w1)).
  rewrite (idleUpdater_refresh_returns now' w2 Hs2).
  set (w3 := set_aln _ w2).
  pose proof (refreshed_fields w3) as (Hr & _ & _ & _ & Hdone & _).
  exists (refreshed w3). by split_and!.
Qed.

End Deadlines.

Section ClientConfiguration.

Context {CertSource Writer SessionCache : Type}.
Variable defaultTLSSessionCache : SessionCache.

(** [ToALNOptions], and so [ToALNConfig], panic exactly when the scheme of
    the configuration is neither "http" nor "https"; no other field can
    make them fail. *)
Theorem ToALNConfig_panics_on_bad_scheme (c : @Config CertSource Writer SessionCache) :
  (ToALNConfig defaultTLSSessionCache c = None <->
   ~ (Config_Scheme c = "http" \/ Config_Scheme c = "https"))
  /\ (ToALNOptions c = None <-> ToALNConfig defaultTLSSessionCache c = None).
Proof.
  unfold ToALNConfig, ToALNOptions, WithALNScheme.
  destruct (decide (Config_Scheme c = "http" \/ Config_Scheme c = "https")) as [Hs|Hs].
  - rewrite bool_decide_eq_true_2 by done. split; (split; [done|]); intros Hn; done.
  - rewrite bool_decide_eq_false_2 by done. done.
Qed.

(** What [ToALNConfig] makes of a configuration with a valid scheme. Port,
    scheme, update period, rack, datacenter and the transport settings are
    the configuration's. The idle period is the configuration's unless
    that is 0: then it is the directory's default of one minute, so an idle
    period of 0 in [Config] does not disable the idle updater. A nil TLS
    session cache gives the default cache. *)
Theorem ToALNConfig_fields (c : @Config CertSource Writer SessionCache) :
  Config_Scheme c = "http" \/ Config_Scheme c = "https" ->
  exists all,
    ToALNConfig defaultTLSSessionCache c = Some all
    /\ Port (directory_part all) = Config_Port c
    /\ Scheme (directory_part all) = Config_Scheme c
    /\ UpdatePeriod (directory_part all) = Config_NodesListUpdatePeriod c
    /\ Rack (directory_part all) = Config_Rack c
    /\ Datacenter (directory_part all) = Config_Datacenter c
    /\ IdleUpdatePeriod (directory_part all)
       = (if decide (Config_IdleNodesListUpdatePeriod c = 0) then Go.Minute
          else Config_IdleNodesListUpdatePeriod c)
    /\ ALN_IgnoreServerCertificateError (transport_part all)
       = Config_IgnoreServerCertificateError c
    /\ ALN_MaxIdleHTTPConnections (transport_part all) = Config_MaxIdleHTTPConnections c
    /\ ALN_IdleHTTPConnectionTimeout (transport_part all)
       = Config_IdleHTTPConnectionTimeout c
    /\ ALN_ClientCertificateSource (transport_part all) = Config_ClientCertificateSource c
    /\ ALN_KeyLogWriter (transport_part all) = Config_KeyLogWriter c
    /\ ALN_TLSSessionCache (transport_part all)
       = (match Config_TLSSessionCache c with
          | Some cache => Some cache
          | None => Some defaultTLSSessionCache
          end).
Proof.
  intros Hs. unfold ToALNConfig, ToALNOptions, WithALNScheme.
  rewrite bool_decide_eq_true_2 by done.
  eexists. split; [reflexivity|].
  destruct c as [port scheme rack dc region key secret period source ignore optimize
                 idle writer cache maxIdle idleTimeout].
  cbn [Config_Port Config_Scheme Config_Rack Config_Datacenter
       Config_NodesListUpdatePeriod Config_ClientCertificateSource
       Config_IgnoreServerCertificateError Config_IdleNodesListUpdatePeriod
       Config_KeyLogWriter Config_TLSSessionCache Config_MaxIdleHTTPConnections
       Config_IdleHTTPConnectionTimeout].
  destruct (decide (rack <> "")) as [Hr|Hr];
    destruct (decide (dc <> "")) as [Hd|Hd];
    destruct (decide (idle <> 0)) as [Hi|Hi];
    destruct source, writer, cache;
    cbn; split_and!; try reflexivity;
    try (rewrite decide_False by done; reflexivity);
    try (rewrite decide_True by (by destruct (decide (idle = 0))); reflexivity);
    try (by destruct (decide (rack = "")));
    try (by destruct (decide (dc = ""))).
Qed.

End ClientConfiguration.

(** ** The further properties on the simulated cluster *)

Section FurtherSimulation.

Lemma NextNode_sends_nothing_witness :
  exists w',
    NextNode (R := Sim.scoped) 1700000000 Sim.world = Returns Sim.node2 w'
    /\ requests w' = [].
Proof.
  destruct (NextNode_sends_nothing (R := Sim.scoped) 1700000000 Sim.world)
    as (w' & Hrun & Hreq & _).
  - exists Sim.three_hosts, [], (Sim.directory NewDefaultALNConfig), [].
    split; reflexivity.
  - exists w'. split; [exact Hrun|exact Hreq].
Defined.

Lemma fallback_never_taken_witness :
  exists live u w',
    liveNodes (aln Sim.world) = Some live
    /\ selected live (initialNodes (aln Sim.world)) = live
    /\ nextNode Sim.world = Returns u w'
    /\ u ∈ live.
Proof.
  apply (fallback_never_taken (R := Sim.scoped) Sim.world).
  exists Sim.three_hosts, [], (Sim.directory NewDefaultALNConfig), [].
  split; reflexivity.
Defined.

Lemma configuration_is_immutable_witness :
  cfg (aln (launched (fresh (Sim.directory (WithALNPort 8080 NewDefaultALNConfig)))))
  = apply_options [WithALNPort 8080] NewDefaultALNConfig.
Proof.
  destruct (configuration_is_immutable (R := Sim.scoped) Sim.three_hosts [WithALNPort 8080]
              (Sim.directory (WithALNPort 8080 NewDefaultALNConfig)) [DoStart]
              (launched (fresh (Sim.directory (WithALNPort 8080 NewDefaultALNConfig)))))
    as (Hcfg & _).
  - reflexivity.
  - reflexivity.
  - exact Hcfg.
Defined.

Lemma first_selection_witness :
  exists u w',
    NextNode (R := Sim.scoped) 5 (fresh (Sim.directory NewDefaultALNConfig)) = Returns u w'
    /\ Sim.three_nodes !! 1%nat = Some u.
Proof.
  destruct (first_selection (R := Sim.scoped) Sim.three_hosts []
              (Sim.directory NewDefaultALNConfig) 5)
    as (u & w' & Hrun & Hu & _); [reflexivity|].
  exists u, w'. split; [exact Hrun|exact Hu].
Defined.

Lemma construction_reports_first_bad_host_witness :
  NewAlternatorLiveNodes (R := Sim.scoped) (["10.0.0.1"] ++ "bad host" :: ["also bad"]) []
  = Err (fmt_Errorf_v "invalid node URI: "
           (lib_error "net/url" "invalid character in host name")).
Proof.
  apply (construction_reports_first_bad_host (R := Sim.scoped)).
  - repeat constructor. eexists. vm_compute. reflexivity.
  - vm_compute. reflexivity.
Defined.

Lemma refresh_is_load_balanced_witness :
  exists err w' endpoint,
    UpdateLiveNodes (R := Sim.scoped) Sim.world = Returns err w'
    /\ requests w' = [endpoint]
    /\ URL_Host endpoint = URL_Host Sim.node2.
Proof.
  destruct (refresh_is_load_balanced (R := Sim.scoped) Sim.world)
    as (err & w' & endpoint & Hrun & Hreq & _ & Hhost & _).
  - exists Sim.three_hosts, [], (Sim.directory NewDefaultALNConfig), [].
    split; reflexivity.
  - exists err, w', endpoint. split; [exact Hrun|]. split; [exact Hreq|exact Hhost].
Defined.

Lemma refresh_error_is_returned_as_is_witness :
  UpdateLiveNodes (R := Sim.down) Sim.world
  = Returns (Some Sim.refused)
      (sent (localnodes_endpoint Sim.world) (advanced Sim.world)).
Proof.
  destruct (refresh_error_is_returned_as_is (R := Sim.down) Sim.world [] Sim.refused
              (sent (localnodes_endpoint Sim.world) (advanced Sim.world)))
    as (Hrun & _).
  - exists Sim.three_hosts, [], (Sim.directory NewDefaultALNConfig), [].
    split; reflexivity.
  - reflexivity.
  - exact Hrun.
Defined.

Lemma no_stale_address_after_refresh_witness :
  exists w' us w'',
    UpdateLiveNodes (R := Sim.scoped)
      (fresh (mkALN (Some [Sim.node1]) [Sim.node1] 0 NewDefaultALNConfig 0 false false false))
    = Returns None w'
    /\ liveNodes (aln w') = Some Sim.three_nodes
    /\ nextNode_times 5 w' = Returns us w''
    /\ Forall (fun u => u ∈ Sim.three_nodes) us.
Proof.
  eapply (no_stale_address_after_refresh (R := Sim.scoped)
            (fresh (mkALN (Some [Sim.node1]) [Sim.node1] 0 NewDefaultALNConfig 0
                          false false false))
            Sim.three_nodes).
  - exists ["10.0.0.1"], [],
      (mkALN (Some [Sim.node1]) [Sim.node1] 0 NewDefaultALNConfig 0 false false false),
      [].
    split; reflexivity.
  - vm_compute. reflexivity.
  - discriminate.
Defined.

Lemma checks_do_not_publish_witness :
  exists result w',
    CheckIfRackDatacenterFeatureIsSupported (R := Sim.scoped) Sim.world = Returns result w'
    /\ liveNodes (aln w') = liveNodes (aln Sim.world).
Proof.
  destruct (checks_do_not_publish (R := Sim.scoped) Sim.world)
    as (_ & result & w' & Hrun & Hlive & _).
  - exists Sim.three_hosts, [], (Sim.directory NewDefaultALNConfig), [].
    split; reflexivity.
  - exists result, w'. split; [exact Hrun|exact Hlive].
Defined.

Lemma Stop_ends_automatic_discovery_witness :
  exists w1 w',
    history (R := Sim.scoped) [DoStop; IdleTick 70] (launched Sim.world) = Returns tt w1
    /\ requests w1 = [mkURL "http" "10.0.0.2:8080" "/localnodes" ""]
    /\ history (R := Sim.scoped)
         [IdleDone; DoNextNode 100; IdleSignal 101; IdleTick 130; DoStart; IdleTick 190]
         w1 = Returns tt w'
    /\ requests w' = requests w1.
Proof.
  destruct (Stop_ends_automatic_discovery (R := Sim.scoped)
              [IdleTick 70]
              [DoNextNode 100; IdleSignal 101; IdleTick 130; DoStart; IdleTick 190]
              (launched Sim.world))
    as (w1 & w' & H1 & H2 & _ & Hreq & _).
  - exists Sim.three_hosts, [], (Sim.directory NewDefaultALNConfig), [DoStart].
    split; reflexivity.
  - left. cbn. lia.
  - reflexivity.
  - exists w1, w'. split; [exact H1|]. split; [|split; [exact H2|exact Hreq]].
    vm_compute in H1. injection H1 as <-. reflexivity.
Defined.

Lemma idle_period_off_disables_active_refresh_witness :
  exists w,
    history (R := Sim.scoped) [DoNextNode 10; IdleSignal 11; IdleTick 70; DoNextNode 71]
      (fresh (Sim.directory (WithALNIdleUpdatePeriod 0 NewDefaultALNConfig)))
    = Returns tt w
    /\ requests w = []
    /\ updateSignal (aln w) = true.
Proof.
  destruct (idle_period_off_disables_active_refresh (R := Sim.scoped) Sim.three_hosts
              [WithALNIdleUpdatePeriod 0]
              (Sim.directory (WithALNIdleUpdatePeriod 0 NewDefaultALNConfig))
              [DoNextNode 10; IdleSignal 11; IdleTick 70; DoNextNode 71])
    as (w & Hrun & Hreq & _ & _ & Hsig).
  - reflexivity.
  - cbn. lia.
  - reflexivity.
  - exists w. split; [exact Hrun|]. split; [exact Hreq|].
    apply (Hsig 10 [IdleSignal 11; IdleTick 70; DoNextNode 71]); reflexivity.
Defined.

Lemma NextNode_waits_for_deadline_witness :
  exists w1 w',
    history (R := Sim.scoped) [DoNextNode 100] Sim.world = Returns tt w1
    /\ history (R := Sim.scoped) (DoNextNode <$> [100; 105; 110]) w1 = Returns tt w'
    /\ nextUpdate (aln w') = nextUpdate (aln w1)
    /\ requests w' = requests w1.
Proof.
  exists (advanced (claimed (R := Sim.scoped) 100 (launched Sim.world))).
  destruct (NextNode_waits_for_deadline (R := Sim.scoped) [100; 105; 110]
              (advanced (claimed (R := Sim.scoped) 100 (launched Sim.world))))
    as (w' & Hrun & Hdl & _ & Hreq).
  - exists Sim.three_hosts, [], (Sim.directory NewDefaultALNConfig), [DoNextNode 100].
    split; reflexivity.
  - repeat (apply Forall_cons; split; [vm_compute; discriminate|]). constructor.
  - exists w'. split; [reflexivity|]. split; [exact Hrun|]. split; [exact Hdl|exact Hreq].
Defined.

Lemma signals_are_coalesced_witness :
  exists w',
    history (R := Sim.scoped) ((DoNextNode <$> [100; 200; 300]) ++ [IdleSignal 301])
      Sim.world = Returns tt w'
    /\ history (R := Sim.scoped)
         ((DoNextNode <$> [100; 200; 300]) ++ [IdleSignal 301; IdleSignal 302])
         Sim.world = Returns tt w'
    /\ (length (requests w') <= length (requests Sim.world) + 1)%nat.
Proof.
  apply (signals_are_coalesced (R := Sim.scoped) [100; 200; 300] 301 302 Sim.world).
  exists Sim.three_hosts, [], (Sim.directory NewDefaultALNConfig), [].
  split; reflexivity.
Defined.

Lemma idle_refresh_resets_deadline_witness :
  exists w',
    perform (R := Sim.scoped) (IdleTick 1000) (launched Sim.world) = Returns tt w'
    /\ nextUpdate (aln w') = 1010
    /\ forall t, t <= 1010 -> triggerUpdate (R := Sim.scoped) t w' = Returns tt w'.
Proof.
  destruct (idle_refresh_resets_deadline (R := Sim.scoped) 1000 (launched Sim.world))
    as ((w' & Hrun & Hdl & _ & Hquiet) & _).
  - exists Sim.three_hosts, [], (Sim.directory NewDefaultALNConfig), [DoStart].
    split; reflexivity.
  - cbn. lia.
  - reflexivity.
  - exists w'. split; [exact Hrun|]. split; [exact Hdl|exact Hquiet].
Defined.

Lemma first_NextNode_triggers_discovery_witness :
  exists w1 w,
    perform (R := Sim.scoped) (DoNextNode 100) Sim.world = Returns tt w1
    /\ perform (R := Sim.scoped) (IdleSignal 103) w1 = Returns tt w
    /\ requests w = [mkURL "http" "10.0.0.3:8080" "/localnodes" ""]
    /\ nextUpdate (aln w) = 113.
Proof.
  destruct (first_NextNode_triggers_discovery (R := Sim.scoped) Sim.three_hosts []
              (Sim.directory NewDefaultALNConfig) 100 103)
    as (w1 & w & H1 & _ & _ & Hd1 & Hr1 & H2 & Hr & _ & Hd); try reflexivity.
  exists w1, w. split; [exact H1|]. split; [exact H2|].
  assert (w1 = advanced (claimed (R := Sim.scoped) 100 (launched Sim.world))) as Hw1.
  { vm_compute in H1. injection H1 as <-. reflexivity. }
  split; [rewrite Hr, Hw1; reflexivity|exact Hd].
Defined.

Lemma Stop_does_not_prevent_launch_witness :
  exists w1 w,
    history (R := Sim.scoped) [DoStop; DoNextNode 100] Sim.world = Returns tt w1
    /\ ctxDone (aln w1) = true
    /\ perform (R := Sim.scoped) (IdleSignal 103) w1 = Returns tt w
    /\ requests w = [mkURL "http" "10.0.0.3:8080" "/localnodes" ""].
Proof.
  destruct (Stop_does_not_prevent_launch (R := Sim.scoped) Sim.three_hosts []
              (Sim.directory NewDefaultALNConfig) 100 103)
    as (w1 & w & H1 & Hd1 & _ & _ & _ & H2 & Hr & _); try reflexivity.
  exists w1, w. split; [exact H1|]. split; [exact Hd1|]. split; [exact H2|].
  assert (w1 = advanced (claimed (R := Sim.scoped) 100
                           (launched (set_aln (store_ctxDone true) Sim.world)))) as Hw1.
  { vm_compute in H1. injection H1 as <-. reflexivity. }
  rewrite Hr, Hw1. reflexivity.
Defined.

Lemma ToALNConfig_fields_witness :
  exists all,
    ToALNConfig tt (WithIdleNodesListUpdatePeriod 0
                      (NewDefaultConfig (CertSource := unit) (Writer := unit) tt))
    = Some all
    /\ IdleUpdatePeriod (directory_part all) = Go.Minute.
Proof.
  destruct (ToALNConfig_fields tt
              (WithIdleNodesListUpdatePeriod 0
                 (NewDefaultConfig (CertSource := unit) (Writer := unit) tt)))
    as (all & Hall & _ & _ & _ & _ & _ & Hidle & _).
  - left. reflexivity.
  - exists all. split; [exact Hall|exact Hidle].
Defined.

End FurtherSimulation.
